(* ===== verification/_CoqProject ===== *)
-Q . S2P
Prelude.v
Interfaces.v
ReplayMemory.v
World.v
Toy.v
Init.v
LearnReward.v
Scheduler.v
Episode.v
SuccessWindow.v
Train.v
Logging.v
Main.v
