(* ===== verification/Prelude.v ===== *)
(** * A verification development for [src/main.py] (off-policy scoring-based RL)

    The program is one Python file, [src/main.py], whose class [OPRRL]
    trains a control policy (an SAC agent) against a reward model fitted
    from ranked trajectories.  The file is the training orchestrator; the
    environment, the agent, the reward network and the replay memory are
    imported collaborators whose code is not in [src/].

    ** Parts of the program and how they interact

    - [OPRRL.__init__] (lines 24-103) reads the configuration, builds the
      environment for one of three backends (raising for any other
      backend name, and [KeyError] for an unknown Meta-World task), seeds
      the random generators, builds the agent, the replay memory and the
      reward network from the environment's dimensions, opens the wandb
      run when logging, and zeroes the counters and lists.
    - [OPRRL.learn_reward] (lines 133-150) refits the reward model: one
      call of [learn_reward_soft] while fewer than five ranking rounds
      happened, otherwise up to [num_learn_reward] calls with an optional
      early stop once the accuracy exceeds 0.97; then it relabels the
      replay memory with the new model.
    - [OPRRL.train] (lines 152-303) is the episode loop.  Each episode
      resets the environment and runs the step loop (lines 174-223: action
      choice, agent updates, environment step, reward scoring, terminal
      mask, hard truncation, the two pushes), then the per-episode
      bookkeeping: the success window and logs (228-252), the frequency
      state machine (258-268), the ranking/refit trigger (271-284), the
      one-time pretrain exit (288-297), the periodic evaluation (299-300)
      and the stop test (302-303).
    - [OPRRL.evaluate] (lines 106-131) runs whole episodes with the agent in
      evaluation mode and returns their true returns.
    - The entry point (lines 307-319) composes the named configuration,
      builds the object and trains it.

    ** Files (in dependency order)

    - [Prelude] (this file): the state-and-error monad [M] in which the
      orchestrator is written, its weakest-precondition calculus [wp]
      (total correctness: [wp m Q w] says [m] returns without error from
      [w] and [Q] holds), the Python primitives the code relies on ([%]
      raising [ZeroDivisionError], [np.mean] of an empty list being NaN,
      the strict float comparison), the frame judgement [preserves f m]
      (every successful run of [m] keeps [f]), the simulation [sim] of two
      programs run in lockstep, the hint databases and the tactics.
    - [Interfaces]: the external collaborators as type classes
      ([Environment], [Agent], [RewardModel], [ReplayMemory] with its laws
      [ReplayMemoryOk]) and the library constructors [__init__] calls
      ([Builders]), the configuration records ([config], and
      [init_config] for the fields only [__init__] reads), the backend
      names of [__init__] ([parse_env_type]) and the events of the call
      trace, construction calls included.
    - [ReplayMemory]: a list-backed replay memory discharging
      [ReplayMemoryOk] (modelled from the spec: [replay_memory.py] is not
      in [src/]).
    - [World]: the [OPRRL] object ([self]) as the record [World] threaded
      through [M], [init_world] for the counters [__init__] zeroes, and one
      monadic primitive per call the code makes on a collaborator, each
      appending its event to the trace; the frame relation [ext].
    - [Toy]: small concrete collaborators and configurations on which the
      witnesses evaluate the model.
    - [Init]: the constructor (lines 24-103) in the monad
      [M (list event)] whose state is the call trace before the object
      exists: [make_env] (lines 40-60), [oprrl_init], and [oprrl_new],
      the expression [OPRRL(config)].
    - [LearnReward]: [learn_loop] and [learn_reward] (lines 133-150), with
      the reference [fit_accs]/[cut_high] and the theorem that the loop
      computes exactly the accuracies up to the first one above 0.97.
    - [Scheduler]: the frequency state machine [freq_update] (258-268), the
      test of line 271 [should_rank], the ranking round [rank_and_refit]
      (272-284), the block [scheduler_block]; the spec's abstract machine
      [phase_step] and the refinement of it by [freq_update].
    - [Episode]: the step loop of lines 161-223 ([choose_action],
      [one_update], [update_loop], [maybe_update], [step_body],
      [step_loop], [run_episode]).
    - [SuccessWindow]: [deque(maxlen=50)].append and the success rate.
    - [Train]: [log_block], [record_episode], [pretrain_exit],
      [evaluate] with [eval_episode]/[eval_loop], [eval_block], one loop
      iteration [train_episode], the loop [train_loop] and [train].
    - [Logging]: the lockstep of a run with logging on and the same run
      with logging off ([no_log]), as a simulation [sim] (from [Prelude])
      over objects equal up to the logger's calls ([log_eq], the setoid
      [erase w1 = erase w2] with its [Proper] field reads and updates).
    - [Main]: [config_name] and [main], the entry point (lines 307-319).

    ** What the theorems show

    - Whole runs ([Train]): under [wf_config] (positive episode length,
      ranking periods and evaluation period) [train] returns for every
      behaviour of the collaborators, after exactly max(1, max_episodes-1)
      episodes; the pretrain exit happens once or never as the
      configuration says; the scheduler invariant holds at the end; once
      [rank_num] exceeds [max_rank_num] no ranking call is made for the
      rest of the run; with one ranking period [p] and a pool under the
      ceiling a run of [N] episodes ranks [N / p] times; no agent update
      reads rewards made stale by a refit (every fit is relabelled before
      the next update); [self.total_numsteps] advances by the sum of the
      recorded episode lengths, each between 1 and [episode_len], and
      [self.updates] by at most [updates_per_step] per step; on RLBench
      the success window holds the successes of the last 50 episodes.
    - Scheduling ([Scheduler]): [freq_update] refines the spec's two-phase
      machine; the reach count is the number of qualifying returns capped
      at nine; the ranking ceiling [max_rank_num] stops all ranking calls;
      when ranking happens its calls are exactly one [rank] and the fits
      [learn_reward] makes.
    - Refit ([LearnReward]): one fit while fewer than five rounds were
      made; otherwise between 1 and [num_learn_reward] fits with the early
      stop exactly at the first accuracy above 0.97; after relabelling
      every stored reward is the new model's.
    - Episodes ([Episode]): termination within [episode_len] steps; the
      terminal masks and [done] flags of every step; the order of calls
      within a step; the update rule during warm-up; the Meta-World
      success detection (first success wins).
    - Construction ([Init]): exactly two exceptions (unknown backend,
      unknown Meta-World task), both before any object exists; otherwise
      a fresh well-formed object whose agent and reward network are sized
      from the environment it holds; every seed passed is the configured
      one and every length [episode_len]; RLBench is neither seeded nor
      given the length.
    - Object invariant ([World.obj_wf], [Train]): [train] keeps the
      object well formed (one list entry per episode, [total_numsteps]
      the sum of the lengths, [updates] and [rank_count] bounded).
    - Scheduler convergence ([Train]): the run's final phase is the
      machine run over the recorded returns, converged exactly when nine
      of them exceeded [change_flag_reward].
    - Equivalence ([LearnReward]): the fit loop with its early [break] is
      equal to the reference that fits [n] times and cuts the list.
    - Whole program ([Main]): on a well-formed configuration the program
      fails only at the constructor's two exceptions; and, as the spec
      requires, logging does not alter control flow: with [wandb_log] on
      and off the runs make the same calls, apart from the logger's, and
      end in the same state or with the same exception.
    - Logged values ([Train.train_logs_episodes], [World.trace_logs],
      [Train.train_logs_success_rates], [World.trace_rates]): the episode
      records a run logs are, one per episode and in order, the return,
      shaped return and length the object appends to its lists, with the
      episode index; on RLBench the success rate logged with the [k]-th
      episode is the mean of the flags of episodes [max(1, k-49)] to [k].
    - Evaluation ([Train.eval_block_frame]): the periodic evaluation
      changes nothing of the object but the environment, the agent and
      the trace.
    - Error paths: each zero divisor raises [ZeroDivisionError] where the
      code divides ([run_episode_zero_len], [scheduler_block_zero_period],
      [eval_block_zero_period]); [learn_reward] with an empty budget
      returns NaN.

    ** Modelling choices, bounds and fuel

    - Python integers used as counters are [nat]; the only integer
      subtraction, [max_episodes - 1] (line 302), is compared with an
      episode index that is at least one, so truncated subtraction gives
      the same verdict as Python's.  Python's unbounded integers do not
      overflow, so no width is modelled.
    - Floats (rewards, accuracies, losses) are rationals [Q]; a float that
      may be NaN ([np.mean] of an empty list) is [option Q], [None] being
      NaN.  Rounding is not modelled.
    - A [while] loop is a [Fixpoint] on fuel whose exhaustion is the error
      [OutOfFuel].  The step loop and an evaluation episode get
      [S episode_len]: the hard truncation ends an episode after at most
      [episode_len] steps, and one more unit is spent on the final test of
      [done].  The episode loop gets [S max_episodes]: it stops after at
      most max(1, max_episodes-1) iterations.  The termination theorems
      show these fuels are never exhausted.
    - The collaborators are arbitrary instances of the classes: every
      theorem holds for every environment, agent and reward model; only
      the replay memory's laws are assumed where relabelling is concerned.

    ** Not modelled

    - The collaborators' internals (simulators, SAC networks, the reward
      network and its loss, replay sampling): their code ([sac],
      [replay_memory], [reward_net], [custom_env], gym and metaworld,
      imported at lines 7-16) is not part of this repository, so nothing
      of it can be translated.  [Interfaces] states, from the spec, only
      the operations [main.py] calls and what it reads back, and every
      theorem holds for every instance of those classes; the components
      stay partly modelled for that reason.
    - Reading the command line and the configuration files (argparse and
      hydra, lines 309-315): [main] receives hydra's composition as a
      function.  The library objects built at construction are values of
      the class [Builders]; the hyper-parameter sections passed to [SAC]
      and [RewardNetwork] ([args]) are not modelled.
    - Printing and rendering: pure output.  Logging to wandb is an
      [EvLog] event in the trace carrying the values of the logged dict
      ([log_tag]); the wandb service that receives them is not modelled.
    - [max_succ_rate] and [extra_update_reward_flag] (lines 157-158), read
      only by commented-out code. *)

From Stdlib Require Import Arith QArith List Lia.
Import ListNotations.

(** ** Errors and results *)

(** The exceptions the orchestrator can raise: Python's
    [ZeroDivisionError] from [%], the configuration error of
    [OPRRL.__init__] (line 63), the [KeyError] of a dictionary lookup
    (line 54), and the exhaustion of a loop's fuel (the model's stand-in
    for a loop that does not stop). *)
Inductive error : Type :=
| ZeroDivisionError
| ConfigError
| KeyError
| OutOfFuel.

Inductive result (A : Type) : Type :=
| Ok (a : A)
| Err (e : error).
Arguments Ok {A} a.
Arguments Err {A} e.

(** ** The state-and-error monad *)

Definition M (W A : Type) : Type := W -> result (A * W).

Definition ret {W A} (a : A) : M W A := fun w => Ok (a, w).

Definition bind {W A B} (m : M W A) (k : A -> M W B) : M W B :=
  fun w => match m w with
           | Ok (a, w') => k a w'
           | Err e => Err e
           end.

Definition gets {W A} (f : W -> A) : M W A := fun w => Ok (f w, w).

Definition modify {W} (f : W -> W) : M W unit := fun w => Ok (tt, f w).

Definition throw {W A} (e : error) : M W A := fun _ => Err e.

Definition lift {W A} (r : result A) : M W A :=
  fun w => match r with Ok a => Ok (a, w) | Err e => Err e end.

Declare Scope oprrl_scope.
Delimit Scope oprrl_scope with oprrl.
Notation "x <- m ;; k" := (bind m (fun x => k))
  (at level 61, m at next level, right associativity) : oprrl_scope.
Notation "m ;;; k" := (bind m (fun _ => k))
  (at level 61, right associativity) : oprrl_scope.
Open Scope oprrl_scope.

(** [for _ in range(n): body]. *)
Fixpoint repeat_m {W} (n : nat) (body : M W unit) : M W unit :=
  match n with
  | O => ret tt
  | S n' => body ;;; repeat_m n' body
  end.

(** ** Python primitives *)

(** [a % b] on non-negative ints: [ZeroDivisionError] when [b = 0]. *)
Definition py_mod (a b : nat) : result nat :=
  if Nat.eqb b 0 then Err ZeroDivisionError else Ok (Nat.modulo a b).

(** The strict float comparison [x > y]. *)
Definition Qgtb (x y : Q) : bool := negb (Qle_bool x y).

Definition Qsum (l : list Q) : Q := fold_right Qplus 0 l.

(** [np.mean(l)]: NaN (here [None]) on an empty list. *)
Definition np_mean (l : list Q) : option Q :=
  match l with
  | [] => None
  | _ => Some (Qsum l / inject_Z (Z.of_nat (length l)))
  end.

(** ** Weakest preconditions *)

(** [wp m Q w]: run from [w], [m] raises nothing and its value and final
    state satisfy [Q].  This is total correctness: running out of fuel
    is an error, so [wp] of a loop also proves that it stops. *)
Definition wp {W A} (m : M W A) (Q : A -> W -> Prop) (w : W) : Prop :=
  match m w with
  | Ok (a, w') => Q a w'
  | Err _ => False
  end.

Section Wp.
Context {W : Type}.

Lemma wp_ret {A} (a : A) (Q : A -> W -> Prop) w : Q a w -> wp (ret a) Q w.
Proof. exact (fun H => H). Qed.

Lemma wp_bind {A B} (m : M W A) (k : A -> M W B) Q w :
  wp m (fun a w' => wp (k a) Q w') w -> wp (bind m k) Q w.
Proof. unfold wp, bind. destruct (m w) as [[a w']|e]; tauto. Qed.

Lemma wp_bind_inv {A B} (m : M W A) (k : A -> M W B) Q w :
  wp (bind m k) Q w -> wp m (fun a w' => wp (k a) Q w') w.
Proof. unfold wp, bind. destruct (m w) as [[a w']|e]; tauto. Qed.

Lemma wp_mono {A} (m : M W A) (Q Q' : A -> W -> Prop) w :
  wp m Q w -> (forall a w', Q a w' -> Q' a w') -> wp m Q' w.
Proof. unfold wp. destruct (m w) as [[a w']|e]; auto. Qed.

Lemma wp_and {A} (m : M W A) (Q1 Q2 : A -> W -> Prop) w :
  wp m Q1 w -> wp m Q2 w -> wp m (fun a w' => Q1 a w' /\ Q2 a w') w.
Proof. unfold wp. destruct (m w) as [[a w']|e]; auto. Qed.

Lemma wp_gets {A} (f : W -> A) Q w : Q (f w) w -> wp (gets f) Q w.
Proof. exact (fun H => H). Qed.

Lemma wp_modify f (Q : unit -> W -> Prop) w : Q tt (f w) -> wp (modify f) Q w.
Proof. exact (fun H => H). Qed.

Lemma wp_lift {A} (a : A) (Q : A -> W -> Prop) w : Q a w -> wp (lift (Ok a)) Q w.
Proof. exact (fun H => H). Qed.

(** A loop body that keeps an invariant keeps it for any count. *)
Lemma wp_repeat (I : W -> Prop) (body : M W unit) n w :
  (forall w0, I w0 -> wp body (fun _ w1 => I w1) w0) ->
  I w -> wp (repeat_m n body) (fun _ w' => I w') w.
Proof.
  intros Hb Hw; revert w Hw; induction n as [|n IH]; intros w Hw; simpl.
  - exact Hw.
  - apply wp_bind. eapply wp_mono; [apply Hb, Hw|]. intros u w1 H1. now apply IH.
Qed.

(** A program fails with [e] when its first part runs and the rest fails
    with [e]. *)
Lemma bind_err {A B} (m : M W A) (k : A -> M W B) e w :
  wp m (fun a w' => k a w' = Err e) w -> bind m k w = Err e.
Proof. unfold wp, bind. destruct (m w) as [[a w']|e']; tauto. Qed.

Lemma bind_err_l {A B} (m : M W A) (k : A -> M W B) e w :
  m w = Err e -> bind m k w = Err e.
Proof. unfold bind. now intros ->. Qed.

(** The value a successful run returns and its final state, as a run
    equation: [wp] with an equality postcondition pins the run. *)
Lemma wp_eq_run {A} (m : M W A) w a w' :
  m w = Ok (a, w') -> forall Q, Q a w' -> wp m Q w.
Proof. unfold wp. intros ->. auto. Qed.
(** [wp] as a run: the program returns, and its value and final state
    satisfy [Q]. *)
Lemma wp_ok {A} (m : M W A) Q w : wp m Q w <-> exists a w', m w = Ok (a, w') /\ Q a w'.
Proof.
  unfold wp. destruct (m w) as [[a w']|e].
  - split; [eauto|intros (a1 & w1 & [= -> ->] & HQ); exact HQ].
  - split; [tauto|intros (a1 & w1 & Hd & _); discriminate].
Qed.
End Wp.

(** ** Python primitives: their laws *)

Lemma py_mod_zero a : py_mod a 0 = Err ZeroDivisionError.
Proof. reflexivity. Qed.

Lemma py_mod_pos (a b : nat) : b <> 0%nat -> py_mod a b = Ok (Nat.modulo a b).
Proof. intros Hb. unfold py_mod. now destruct (Nat.eqb_spec b 0). Qed.

Lemma Qgtb_spec x y : Qgtb x y = true <-> y < x.
Proof.
  unfold Qgtb. rewrite Bool.negb_true_iff. split; intros H.
  - apply Qnot_le_lt. intros Hle. apply Qle_bool_iff in Hle. congruence.
  - destruct (Qle_bool x y) eqn:E; [|reflexivity].
    apply Qle_bool_iff in E. exfalso. apply (Qlt_not_le _ _ H E).
Qed.

Lemma np_mean_some l : l <> [] -> exists q, np_mean l = Some q.
Proof. destruct l; [congruence|]. intros _. eexists. reflexivity. Qed.

(** ** Frames: what a computation leaves unchanged *)

Section Frame.
Context {W X : Type}.
Variable f : W -> X.

(** Every successful run of [m] leaves [f] of the state unchanged. *)
Definition preserves {A} (m : M W A) : Prop :=
  forall w a w', m w = Ok (a, w') -> f w' = f w.

Lemma preserves_ret {A} (a : A) : preserves (ret a).
Proof. intros w b w' [= _ <-]. reflexivity. Qed.

Lemma preserves_bind {A B} (m : M W A) (k : A -> M W B) :
  preserves m -> (forall a, preserves (k a)) -> preserves (bind m k).
Proof.
  intros Hm Hk w b w'. unfold bind. destruct (m w) as [[a w1]|e] eqn:E; [|discriminate].
  intros H. rewrite (Hk a w1 b w' H). exact (Hm w a w1 E).
Qed.

Lemma preserves_gets {A} (g : W -> A) : preserves (gets g).
Proof. intros w a w' [= _ <-]. reflexivity. Qed.

Lemma preserves_modify (g : W -> W) : (forall w, f (g w) = f w) -> preserves (modify g).
Proof. intros Hg w a w' [= _ <-]. apply Hg. Qed.

Lemma preserves_throw {A} e : preserves (throw (A := A) e).
Proof. intros w a w' H. discriminate. Qed.

Lemma preserves_lift {A} (r : result A) : preserves (lift r).
Proof. intros w a w'. unfold lift. destruct r; [intros [= _ <-]; reflexivity|discriminate]. Qed.

Lemma preserves_repeat (body : M W unit) n : preserves body -> preserves (repeat_m n body).
Proof.
  intros Hb. induction n as [|n IH]; simpl; [apply preserves_ret|].
  apply preserves_bind; [exact Hb|intros _; exact IH].
Qed.

(** A frame joins any postcondition. *)
Lemma wp_preserves {A} (m : M W A) (Q : A -> W -> Prop) w :
  preserves m -> wp m Q w -> wp m (fun a w' => Q a w' /\ f w' = f w) w.
Proof.
  intros Hm. unfold wp. destruct (m w) as [[a w']|e] eqn:E; [|tauto].
  intros HQ. split; [exact HQ|exact (Hm w a w' E)].
Qed.
End Frame.

(** ** Simulation: two programs run in lockstep *)

Section Sim.
Context {W : Type}.
(** The relation between the states of the two runs. *)
Variable R : W -> W -> Prop.

(** [sim RA m1 m2]: from related states, [m1] and [m2] both return, with
    results related by [RA] and related states, or both raise the same
    exception. *)
Definition sim {A B} (RA : A -> B -> Prop) (m1 : M W A) (m2 : M W B) : Prop :=
  forall w1 w2, R w1 w2 ->
  match m1 w1, m2 w2 with
  | Ok (a1, w1'), Ok (a2, w2') => RA a1 a2 /\ R w1' w2'
  | Err e1, Err e2 => e1 = e2
  | _, _ => False
  end.

Lemma sim_ret {A B} (RA : A -> B -> Prop) a b : RA a b -> sim RA (ret a) (ret b).
Proof. intros Hab w1 w2 Hw. split; assumption. Qed.

Lemma sim_bind {A B C D} (RA : A -> B -> Prop) (RC : C -> D -> Prop) m1 m2 k1 k2 :
  sim RA m1 m2 -> (forall a b, RA a b -> sim RC (k1 a) (k2 b)) -> sim RC (bind m1 k1) (bind m2 k2).
Proof.
  intros Hm Hk w1 w2 Hw. unfold bind. specialize (Hm w1 w2 Hw).
  destruct (m1 w1) as [[a w1']|e1], (m2 w2) as [[b w2']|e2]; try contradiction.
  - destruct Hm as [Hab Hw']. exact (Hk a b Hab w1' w2' Hw').
  - exact Hm.
Qed.

(** The common case: the first parts return equal values. *)
Lemma sim_bind_eq {A C D} (RC : C -> D -> Prop) (m1 m2 : M W A) k1 k2 :
  sim eq m1 m2 -> (forall a, sim RC (k1 a) (k2 a)) -> sim RC (bind m1 k1) (bind m2 k2).
Proof. intros Hm Hk. apply (sim_bind eq); [exact Hm|intros a b <-; apply Hk]. Qed.

Lemma sim_mono {A B} (RA RA' : A -> B -> Prop) m1 m2 :
  sim RA m1 m2 -> (forall a b, RA a b -> RA' a b) -> sim RA' m1 m2.
Proof.
  intros Hm HR w1 w2 Hw. specialize (Hm w1 w2 Hw).
  destruct (m1 w1) as [[a w1']|e1], (m2 w2) as [[b w2']|e2]; try contradiction; [|exact Hm].
  destruct Hm; split; auto.
Qed.

Lemma sim_throw {A B} (RA : A -> B -> Prop) e : sim RA (throw e) (throw e).
Proof. intros w1 w2 _. reflexivity. Qed.

Lemma sim_lift {A} (r : result A) : sim eq (lift r) (lift r).
Proof. intros w1 w2 Hw. unfold lift. destruct r; [split; [reflexivity|exact Hw]|reflexivity]. Qed.

Lemma sim_gets {A} (f g : W -> A) : (forall w1 w2, R w1 w2 -> f w1 = g w2) -> sim eq (gets f) (gets g).
Proof. intros Hf w1 w2 Hw. split; [apply Hf, Hw|exact Hw]. Qed.

Lemma sim_modify (f g : W -> W) : (forall w1 w2, R w1 w2 -> R (f w1) (g w2)) -> sim eq (modify f) (modify g).
Proof. intros Hf w1 w2 Hw. split; [reflexivity|apply Hf, Hw]. Qed.

Lemma sim_repeat n (b1 b2 : M W unit) : sim eq b1 b2 -> sim eq (repeat_m n b1) (repeat_m n b2).
Proof.
  intros Hb. induction n as [|n IH]; cbn [repeat_m]; [apply sim_ret; reflexivity|].
  apply sim_bind_eq; [exact Hb|intros _; exact IH].
Qed.
End Sim.

(** ** Generic list lemmas *)

Lemma app_cons_assoc {A} (l1 l2 : list A) x : l1 ++ x :: l2 = (l1 ++ [x]) ++ l2.
Proof. now rewrite <- app_assoc. Qed.

Create HintDb oprrl discriminated.
Create HintDb frame discriminated.
#[export] Hint Resolve preserves_ret preserves_gets preserves_throw preserves_lift : frame.
Create Rewrite HintDb oprrl_rw.
#[export] Hint Resolve wp_ret wp_gets wp_modify wp_lift : oprrl.
#[export] Hint Resolve py_mod_pos : oprrl.

(** [wp_run] walks through a monadic program: it splits binds, reduces
    primitives that compute, and leaves the goals a spec lemma must close. *)
Ltac wp_run :=
  repeat match goal with
         | |- wp (bind _ _) _ _ => apply wp_bind
         | |- wp (ret _) _ _ => apply wp_ret
         | |- wp (gets _) _ _ => apply wp_gets
         | |- wp (modify _) _ _ => apply wp_modify
         | |- wp (lift (Ok _)) _ _ => apply wp_lift
         end.

(** [preserves_auto] proves a frame of a monadic program from the frames
    of its primitives (hint database [frame]), splitting binds and the
    branches of [if], [match] and [let]. *)
Ltac preserves_step :=
  match goal with
  | |- preserves _ (bind _ _) => apply preserves_bind; [|intros ?]
  | |- preserves _ (modify _) => apply preserves_modify; intros ?; reflexivity
  | |- preserves _ (repeat_m _ _) => apply preserves_repeat
  | |- preserves _ (if ?b then _ else _) => destruct b
  | |- preserves _ (match ?x with _ => _ end) => destruct x
  end.
Ltac preserves_auto := repeat (first [solve [eauto with frame] | preserves_step]).
