(* ===== verification/Interfaces.v ===== *)
(** * Interfaces of the collaborators of [OPRRL]

    [src/main.py] imports its environment ([gym], [CustomEnv],
    [metaworld]), its agent ([sac.SAC]), its reward model
    ([reward_net.RewardNetwork]) and its replay memory
    ([replay_memory.ReplayMemory]); none of their code is in [src/].  This
    file states, as type classes, exactly the operations [main.py] calls
    on each, with the signatures the spec gives them (section 6), and the
    laws of the replay memory the orchestrator's theorems rely on.  It
    also holds the configuration record read by [OPRRL.__init__], the
    backend names it accepts, and the events of the call trace. *)

From Stdlib Require Import Arith QArith List String Lia.
From S2P Require Import Prelude.
Import ListNotations.
Local Open Scope nat_scope.

(** ** Data exchanged with the collaborators *)

(** The tuple [env.step] returns: [(next_state, reward, done, info)];
    of [info] the code reads only [info['success']] (line 204). *)
Record step_out (S : Type) : Type := mkStepOut {
  so_next_state : S;
  so_reward : Q;
  so_done : bool;
  so_success : bool
}.
Arguments mkStepOut {S}.
Arguments so_next_state {S}.
Arguments so_reward {S}.
Arguments so_done {S}.
Arguments so_success {S}.

(** The five values [update_parameters] returns (line 191). *)
Record losses : Type := mkLosses {
  critic_1_loss : Q;
  critic_2_loss : Q;
  policy_loss : Q;
  ent_loss : Q;
  alpha : Q
}.

(** A replay-memory entry: [push(state, action, reward, next_state, mask)]. *)
Record transition (S A : Type) : Type := mkTransition {
  tr_state : S;
  tr_action : A;
  tr_reward : Q;
  tr_next_state : S;
  tr_mask : nat
}.
Arguments mkTransition {S A}.
Arguments tr_state {S A}.
Arguments tr_action {S A}.
Arguments tr_reward {S A}.
Arguments tr_next_state {S A}.
Arguments tr_mask {S A}.

(** Recomputing the reward field of one entry from a reward function,
    the other four fields kept (spec 4.3). *)
Definition relabel_transition {S A} (f : S -> A -> Q) (t : transition S A)
  : transition S A :=
  mkTransition (tr_state t) (tr_action t) (f (tr_state t) (tr_action t))
               (tr_next_state t) (tr_mask t).

(** ** The collaborators *)

(** The environment adapter: [reset], [step], and the two random-action
    sources the code uses ([env.randn_action()] for RLBench,
    [env.action_space.sample()] for MuJoCo and Meta-World). *)
Class Environment (E S A : Type) : Type := {
  env_reset_op : E -> E * S;
  env_step_op : E -> A -> E * step_out S;
  env_randn_action_op : E -> E * A;
  env_action_space_sample_op : E -> E * A
}.

(** The SAC agent.  [select_action] may draw from the agent's random
    generator, so it returns the agent's new state with the action. *)
Class Agent (G S A Mem : Type) : Type := {
  select_action_op : G -> S -> bool -> G * A;
  update_parameters_op : G -> Mem -> nat -> nat -> G * losses;
  update_parameters_pretrain_op : G -> Mem -> nat -> nat -> G * losses;
  reset_critic_op : G -> G;
  reset_actor_op : G -> G
}.

(** The reward network: scoring, trajectory log, ranking, one fit step,
    and the size of its ranked pool ([len(ranked_trajs)]). *)
Class RewardModel (RN S A : Type) : Type := {
  get_reward_op : RN -> S -> A -> Q;
  push_data_op : RN -> S -> A -> Q -> bool -> RN;
  rank_op : RN -> nat -> RN * Q;
  learn_reward_soft_op : RN -> RN * Q;
  ranked_trajs_len : RN -> nat
}.

(** The replay memory: [push], [relabel_memory(reward_model)], [len],
    and the stored entries (for stating what [relabel_memory] does). *)
Class ReplayMemory (Mem S A : Type) : Type := {
  mem_push_op : Mem -> transition S A -> Mem;
  relabel_memory_op : (S -> A -> Q) -> Mem -> Mem;
  mem_len : Mem -> nat;
  mem_contents : Mem -> list (transition S A)
}.

(** What the orchestrator relies on from a replay memory: its length is
    the number of entries, a pushed entry is stored and nothing else is
    added (older entries may be evicted), and relabelling recomputes every
    reward field and nothing else. *)
Class ReplayMemoryOk (Mem S A : Type) `{ReplayMemory Mem S A} : Prop := {
  mem_len_contents : forall m, mem_len m = List.length (mem_contents m);
  mem_push_in : forall m t, In t (mem_contents (mem_push_op m t));
  mem_push_incl : forall m t u,
    In u (mem_contents (mem_push_op m t)) -> u = t \/ In u (mem_contents m);
  mem_relabel_contents : forall f m,
    mem_contents (relabel_memory_op f m) = map (relabel_transition f) (mem_contents m)
}.

(** ** Configuration *)

(** The simulation backends [OPRRL.__init__] accepts. *)
Inductive env_kind : Type := Rlbench | Mujoco | Metaworld.

(** [OPRRL.__init__], lines 38-63: the backend named by
    [config.experiment.env_type], or the exception of line 63. *)
Definition parse_env_type (s : string) : result env_kind :=
  if String.eqb s "rlbench" then Ok Rlbench
  else if String.eqb s "mujoco" then Ok Mujoco
  else if String.eqb s "metaworld" then Ok Metaworld
  else Err ConfigError.

(** The configuration fields [main.py] reads ([config.experiment],
    [config.sac], [config.reward]). *)
Record config : Type := mkConfig {
  episode_len : nat;
  max_episodes : nat;
  change_flag_reward : Q;
  env_type : env_kind;
  wandb_log : bool;
  start_episodes : nat;
  pretrain_episodes : nat;
  batch_size : nat;
  updates_per_step : nat;
  eval_per_episode : nat;
  eval : bool;
  eval_episodes : nat;
  learn_reward_frequency_1 : nat;
  num_to_rank_1 : nat;
  learn_reward_frequency : nat;
  num_to_rank : nat;
  max_rank_num : nat
}.

(** The fields of the configuration only [OPRRL.__init__] reads:
    [config.experiment.env_type] (line 38, still a string there),
    [config.env.task] and [config.env.terminate_when_unhealthy] (lines
    45-54), [config.experiment.seed] (line 34), [config.sac.replay_size]
    and [config.reward.state_only] (line 74). *)
Record init_config : Type := mkInitConfig {
  ic_env_type : string;
  ic_task : string;
  ic_terminate_when_unhealthy : option bool;
  ic_seed : nat;
  ic_replay_size : nat;
  ic_state_only : bool
}.

(** The library code [OPRRL.__init__] calls to build its collaborators
    (lines 41-77): [CustomEnv(env_config)], [gym.make(task)] with the
    keyword [terminate_when_unhealthy] when it is given ([Some]) and
    without it otherwise, the Meta-World lookup
    [ALL_V2_ENVIRONMENTS[task]()] ([None]: the task is not a key), the
    attribute writes and seeding calls on the environment, the two
    dimensions read from its spaces, and the constructors [SAC],
    [ReplayMemory] and [RewardNetwork] with the arguments the code passes
    (the hyper-parameter sections [args] are not modelled). *)
Class Builders (E G RN Mem : Type) : Type := {
  custom_env_op : init_config -> E;
  gym_make_op : string -> option bool -> E;
  metaworld_env_op : string -> option E;
  set_max_episode_steps_op : E -> nat -> E;
  unfreeze_task_op : E -> E;
  env_seed_op : E -> nat -> E;
  action_space_seed_op : E -> nat -> E;
  set_max_path_length_op : E -> nat -> E;
  observation_dim_op : E -> nat;
  action_dim_op : E -> nat;
  sac_op : nat -> E -> G;
  replay_memory_op : nat -> nat -> bool -> Mem;
  reward_network_op : nat -> nat -> nat -> env_kind -> RN
}.

(** ** The call trace *)

(** Which update rule an agent update used (lines 191 and 193). *)
Inductive update_rule : Type := MainRule | PretrainRule.

(** What a wandb [logger.log] call logged: the three losses of an agent
    update (line 196); an episode's record (lines 230 and 240:
    [e_reward], [e_reward_prime], [episode_steps], [success_rate], which
    only RLBench and Meta-World log ([None]: no such key), [i_episode]);
    a ranking round's record (line 284: [acc], [k_tau], [rank_count],
    [rank_num]). *)
Inductive log_tag : Type :=
| LogLosses (critic_1_loss critic_2_loss policy_loss : Q)
| LogEpisode (e_reward e_reward_prime : Q) (episode_steps : nat) (success_rate : option (option Q))
             (i_episode : nat)
| LogRank (acc : option Q) (k_tau : Q) (rank_count rank_num : nat).

(** One call of the orchestrator on a collaborator, with the arguments
    the theorems speak about; [env.step] also records the
    [info['success']] it returned. *)
Inductive event : Type :=
| EvReset
| EvRandomAction
| EvSelectAction (evaluate : bool)
| EvUpdate (rule : update_rule) (index : nat)
| EvEnvStep (success : bool)
| EvGetReward
| EvMemPush (mask : nat)
| EvPushData (done : bool)
| EvRank (k : nat)
| EvLearnSoft
| EvRelabel
| EvResetCritic
| EvResetActor
| EvLog (tag : log_tag)
(* The calls of [OPRRL.__init__] that build and set up the collaborators. *)
| EvCustomEnv
| EvGymMake (terminate_when_unhealthy : option bool)
| EvMetaworldEnv
| EvSetMaxEpisodeSteps (n : nat)
| EvUnfreezeTask
| EvEnvSeed (seed : nat)
| EvActionSpaceSeed (seed : nat)
| EvSetMaxPathLength (n : nat)
| EvSetSeeds (seed : nat)
| EvBuildAgent (state_dim : nat)
| EvBuildMemory (replay_size seed : nat) (state_only : bool)
| EvBuildRewardNet (state_dim action_dim episode_len : nat) (k : env_kind)
| EvWandbInit.

Definition event_eq_dec (x y : event) : {x = y} + {x <> y}.
Proof. repeat decide equality. Defined.

Definition is_rank (e : event) : bool :=
  match e with EvRank _ => true | _ => false end.

Definition is_learn (e : event) : bool :=
  match e with EvLearnSoft => true | _ => false end.

Definition is_reset_critic (e : event) : bool :=
  match e with EvResetCritic => true | _ => false end.

(** The push of the last step of an episode to the reward model. *)
Definition is_done_push (e : event) : bool :=
  match e with EvPushData true => true | _ => false end.

(** The number of calls of a kind in a trace. *)
Definition count_ev (P : event -> bool) (l : list event) : nat := List.length (filter P l).

(** ** Laws *)

Lemma parse_env_type_ok s k :
  parse_env_type s = Ok k <->
  (s = "rlbench"%string /\ k = Rlbench) \/ (s = "mujoco"%string /\ k = Mujoco) \/
  (s = "metaworld"%string /\ k = Metaworld).
Proof.
  unfold parse_env_type.
  destruct (String.eqb_spec s "rlbench"); [subst; split; [intros [= <-]; auto|]|].
  { intros [[_ ->]|[[H _]|[H _]]]; [reflexivity|discriminate|discriminate]. }
  destruct (String.eqb_spec s "mujoco"); [subst; split; [intros [= <-]; auto|]|].
  { intros [[H _]|[[_ ->]|[H _]]]; [discriminate|reflexivity|discriminate]. }
  destruct (String.eqb_spec s "metaworld"); [subst; split; [intros [= <-]; auto|]|].
  { intros [[H _]|[[H _]|[_ ->]]]; [discriminate|discriminate|reflexivity]. }
  split; [discriminate|]. intros [[H _]|[[H _]|[H _]]]; contradiction.
Qed.

Lemma count_ev_app P l1 l2 : count_ev P (l1 ++ l2) = count_ev P l1 + count_ev P l2.
Proof. unfold count_ev. now rewrite filter_app, length_app. Qed.

Lemma count_ev_nil P : count_ev P [] = 0.
Proof. reflexivity. Qed.

Lemma count_ev_cons P e l : count_ev P (e :: l) = (if P e then 1 else 0) + count_ev P l.
Proof. unfold count_ev. simpl. now destruct (P e). Qed.

(** No call of a kind [P] rules out among calls that all satisfy [Q]. *)
Lemma count_ev_none P Q l :
  (forall e, Q e = true -> P e = false) -> forallb Q l = true -> count_ev P l = 0.
Proof.
  intros HPQ; induction l as [|e l IH]; [reflexivity|]. cbn [forallb].
  rewrite Bool.andb_true_iff. intros [He Hl]. rewrite count_ev_cons, HPQ, IH; auto.
Qed.

Lemma count_ev_repeat P e n : count_ev P (repeat e n) = if P e then n else 0.
Proof.
  induction n as [|n IH]; simpl; [now destruct (P e)|].
  rewrite count_ev_cons, IH. now destruct (P e).
Qed.

#[export] Hint Rewrite count_ev_app count_ev_nil count_ev_cons : oprrl_rw.
