(* ===== verification/ReplayMemory.v ===== *)
(** * A replay memory satisfying [ReplayMemoryOk]

    [replay_memory.ReplayMemory] is not in [src/]; the spec (sections 2,
    3 and 6) says it stores (state, action, learned reward, next state,
    mask) tuples, answers [len], and relabels every stored reward from the
    current reward model.  [ListMemory] is that store as a list in push
    order.  Its instance of [ReplayMemoryOk] shows the laws the
    orchestrator relies on are satisfiable, and it is the memory the
    concrete runs of the other files use. *)

From Stdlib Require Import List Lia QArith.
From S2P Require Import Prelude Interfaces.
Import ListNotations.

Section ListMemory.
Context {St Act : Type}.

Definition ListMemory : Type := list (transition St Act).

(** [push]: append; [relabel_memory]: recompute every reward;
    [len]: the number of entries. *)
#[export] Instance ListReplayMemory : ReplayMemory ListMemory St Act := {
  mem_push_op m t := m ++ [t];
  relabel_memory_op f m := map (relabel_transition f) m;
  mem_len m := List.length m;
  mem_contents m := m
}.

#[export] Instance ListReplayMemoryOk : ReplayMemoryOk ListMemory St Act.
Proof.
  split; simpl.
  - reflexivity.
  - intros m t. apply in_or_app. right. now left.
  - intros m t u Hu. apply in_app_or in Hu as [Hu|[Hu|[]]]; auto.
  - reflexivity.
Qed.
End ListMemory.

Arguments ListMemory : clear implicits.
