(* ===== verification/World.v ===== *)
(** * The [OPRRL] object and the calls it makes on its collaborators

    [World] is the state of an [OPRRL] instance ([src/main.py], lines
    23-103): the four collaborators it owns, the counters of
    [OPRRL.__init__] (lines 89-92), the three per-episode lists (lines
    99-101), the episode index [self.i_episode] (the target of the loop of
    line 161), and the trace of the calls made so far.  Each Python call
    on a collaborator is one primitive of the monad [M World]: it runs the
    collaborator's operation on its state, stores the new state, and
    appends the call's event to the trace. *)

From Stdlib Require Import Arith QArith List Lia.
From S2P Require Import Prelude Interfaces.
Import ListNotations.
Local Open Scope nat_scope.

Section World.
Context {St Act E G RN Mem : Type}.
Context `{Environment E St Act} `{Agent G St Act Mem} `{RewardModel RN St Act}
        `{ReplayMemory Mem St Act}.

Record World : Type := mkWorld {
  w_env : E;
  w_agent : G;
  w_rnet : RN;
  w_mem : Mem;
  w_i_episode : nat;
  w_total_numsteps : nat;
  w_updates : nat;
  w_rank_count : nat;
  w_rank_num : nat;
  w_e_reward_list : list Q;
  w_e_reward_prime_list : list Q;
  w_episode_len_list : list nat;
  w_trace : list event
}.

(** Field updates, [self.x = v]. *)
Definition with_env (e : E) (w : World) : World :=
  mkWorld e (w_agent w) (w_rnet w) (w_mem w) (w_i_episode w) (w_total_numsteps w)
    (w_updates w) (w_rank_count w) (w_rank_num w) (w_e_reward_list w)
    (w_e_reward_prime_list w) (w_episode_len_list w) (w_trace w).
Definition with_agent (g : G) (w : World) : World :=
  mkWorld (w_env w) g (w_rnet w) (w_mem w) (w_i_episode w) (w_total_numsteps w)
    (w_updates w) (w_rank_count w) (w_rank_num w) (w_e_reward_list w)
    (w_e_reward_prime_list w) (w_episode_len_list w) (w_trace w).
Definition with_rnet (r : RN) (w : World) : World :=
  mkWorld (w_env w) (w_agent w) r (w_mem w) (w_i_episode w) (w_total_numsteps w)
    (w_updates w) (w_rank_count w) (w_rank_num w) (w_e_reward_list w)
    (w_e_reward_prime_list w) (w_episode_len_list w) (w_trace w).
Definition with_mem (m : Mem) (w : World) : World :=
  mkWorld (w_env w) (w_agent w) (w_rnet w) m (w_i_episode w) (w_total_numsteps w)
    (w_updates w) (w_rank_count w) (w_rank_num w) (w_e_reward_list w)
    (w_e_reward_prime_list w) (w_episode_len_list w) (w_trace w).
Definition with_i_episode (i : nat) (w : World) : World :=
  mkWorld (w_env w) (w_agent w) (w_rnet w) (w_mem w) i (w_total_numsteps w)
    (w_updates w) (w_rank_count w) (w_rank_num w) (w_e_reward_list w)
    (w_e_reward_prime_list w) (w_episode_len_list w) (w_trace w).
Definition with_total_numsteps (n : nat) (w : World) : World :=
  mkWorld (w_env w) (w_agent w) (w_rnet w) (w_mem w) (w_i_episode w) n
    (w_updates w) (w_rank_count w) (w_rank_num w) (w_e_reward_list w)
    (w_e_reward_prime_list w) (w_episode_len_list w) (w_trace w).
Definition with_updates (n : nat) (w : World) : World :=
  mkWorld (w_env w) (w_agent w) (w_rnet w) (w_mem w) (w_i_episode w) (w_total_numsteps w)
    n (w_rank_count w) (w_rank_num w) (w_e_reward_list w)
    (w_e_reward_prime_list w) (w_episode_len_list w) (w_trace w).
Definition with_rank_count (n : nat) (w : World) : World :=
  mkWorld (w_env w) (w_agent w) (w_rnet w) (w_mem w) (w_i_episode w) (w_total_numsteps w)
    (w_updates w) n (w_rank_num w) (w_e_reward_list w)
    (w_e_reward_prime_list w) (w_episode_len_list w) (w_trace w).
Definition with_rank_num (n : nat) (w : World) : World :=
  mkWorld (w_env w) (w_agent w) (w_rnet w) (w_mem w) (w_i_episode w) (w_total_numsteps w)
    (w_updates w) (w_rank_count w) n (w_e_reward_list w)
    (w_e_reward_prime_list w) (w_episode_len_list w) (w_trace w).
Definition with_episode_lists (r r' : list Q) (l : list nat) (w : World) : World :=
  mkWorld (w_env w) (w_agent w) (w_rnet w) (w_mem w) (w_i_episode w) (w_total_numsteps w)
    (w_updates w) (w_rank_count w) (w_rank_num w) r r' l (w_trace w).
Definition with_trace (t : list event) (w : World) : World :=
  mkWorld (w_env w) (w_agent w) (w_rnet w) (w_mem w) (w_i_episode w) (w_total_numsteps w)
    (w_updates w) (w_rank_count w) (w_rank_num w) (w_e_reward_list w)
    (w_e_reward_prime_list w) (w_episode_len_list w) t.

(** Appending one call to the trace. *)
Definition record (e : event) (w : World) : World := with_trace (w_trace w ++ [e]) w.

(** [OPRRL.__init__], lines 89-101: the collaborators just built and
    every counter and list empty. *)
Definition init_world (e : E) (g : G) (r : RN) (m : Mem) : World :=
  mkWorld e g r m 0 0 0 0 0 [] [] [] [].

(** ** One primitive per call *)

(** [self.env.reset()]. *)
Definition env_reset : M World St :=
  fun w => let (e', s) := env_reset_op (w_env w) in Ok (s, record EvReset (with_env e' w)).

(** Lines 176-179: [self.env.randn_action()] on RLBench,
    [self.env.action_space.sample()] on MuJoCo and Meta-World. *)
Definition random_action (k : env_kind) : M World Act :=
  fun w =>
    let (e', a) := match k with
                   | Rlbench => env_randn_action_op (w_env w)
                   | Mujoco | Metaworld => env_action_space_sample_op (w_env w)
                   end in
    Ok (a, record EvRandomAction (with_env e' w)).

(** [self.agent.select_action(state, evaluate=ev)]. *)
Definition select_action (s : St) (ev : bool) : M World Act :=
  fun w => let (g', a) := select_action_op (w_agent w) s ev in
           Ok (a, record (EvSelectAction ev) (with_agent g' w)).

(** [self.agent.update_parameters(self.agent_memory, batch, index)], or
    [update_parameters_pretrain] for [PretrainRule]. *)
Definition agent_update (rule : update_rule) (batch index : nat) : M World losses :=
  fun w =>
    let (g', l) := match rule with
                   | MainRule => update_parameters_op (w_agent w) (w_mem w) batch index
                   | PretrainRule => update_parameters_pretrain_op (w_agent w) (w_mem w) batch index
                   end in
    Ok (l, record (EvUpdate rule index) (with_agent g' w)).

(** [self.env.step(action)]. *)
Definition env_step (a : Act) : M World (step_out St) :=
  fun w => let (e', o) := env_step_op (w_env w) a in
            Ok (o, record (EvEnvStep (so_success o)) (with_env e' w)).

(** [self.reward_network.get_reward(state, action)...[0]]. *)
Definition get_reward (s : St) (a : Act) : M World Q :=
  fun w => Ok (get_reward_op (w_rnet w) s a, record EvGetReward w).

(** [self.agent_memory.push(state, action, reward, next_state, mask)]. *)
Definition memory_push (t : transition St Act) : M World unit :=
  fun w => Ok (tt, record (EvMemPush (tr_mask t)) (with_mem (mem_push_op (w_mem w) t) w)).

(** [self.reward_network.push_data(state, action, reward, done)]. *)
Definition push_data (s : St) (a : Act) (r : Q) (d : bool) : M World unit :=
  fun w => Ok (tt, record (EvPushData d) (with_rnet (push_data_op (w_rnet w) s a r d) w)).

(** [self.reward_network.rank(k)]. *)
Definition rank (k : nat) : M World Q :=
  fun w => let (r', tau) := rank_op (w_rnet w) k in Ok (tau, record (EvRank k) (with_rnet r' w)).

(** [self.reward_network.learn_reward_soft()]. *)
Definition learn_reward_soft : M World Q :=
  fun w => let (r', acc) := learn_reward_soft_op (w_rnet w) in
           Ok (acc, record EvLearnSoft (with_rnet r' w)).

(** [self.agent_memory.relabel_memory(self.reward_network)]. *)
Definition relabel_memory : M World unit :=
  fun w => Ok (tt, record EvRelabel
                        (with_mem (relabel_memory_op (get_reward_op (w_rnet w)) (w_mem w)) w)).

(** [self.agent.reset_critic()], [self.agent.reset_actor()]. *)
Definition reset_critic : M World unit :=
  fun w => Ok (tt, record EvResetCritic (with_agent (reset_critic_op (w_agent w)) w)).
Definition reset_actor : M World unit :=
  fun w => Ok (tt, record EvResetActor (with_agent (reset_actor_op (w_agent w)) w)).

(** [self.logger.log({...})]. *)
Definition log (t : log_tag) : M World unit := fun w => Ok (tt, record (EvLog t) w).

(** [len(self.agent_memory)] and [len(self.reward_network.ranked_trajs)]. *)
Definition memory_len : M World nat := gets (fun w => mem_len (w_mem w)).
Definition ranked_len : M World nat := gets (fun w => ranked_trajs_len (w_rnet w)).

(** ** Frame lemmas: what a call leaves unchanged *)

(** The three per-episode lists of lines 250-252, which only [train]
    itself appends to. *)
Definition episode_lists (w : World) : list Q * list Q * list nat :=
  (w_e_reward_list w, w_e_reward_prime_list w, w_episode_len_list w).

(** The episode records the logger received (lines 230 and 240), in
    order: return, shaped return, length, success rate ([None] on MuJoCo,
    whose record has no such key) and index. *)
Fixpoint episode_logs (l : list event) : list (Q * Q * nat * option (option Q) * nat) :=
  match l with
  | [] => []
  | EvLog (LogEpisode r r' n sr i) :: l' => (r, r', n, sr, i) :: episode_logs l'
  | _ :: l' => episode_logs l'
  end.

Lemma episode_logs_app l1 l2 : episode_logs (l1 ++ l2) = episode_logs l1 ++ episode_logs l2.
Proof. induction l1 as [|[] l1 IH]; cbn; rewrite ?IH; try reflexivity. destruct tag; reflexivity. Qed.

Definition trace_episodes (w : World) := episode_logs (w_trace w).
Lemma trace_episodes_with_episode_lists a b c w :
  trace_episodes (with_episode_lists a b c w) = trace_episodes w.
Proof. reflexivity. Qed.

(** The records without their success rate, and the success rates alone. *)
Definition trace_logs (w : World) : list (Q * Q * nat * nat) :=
  map (fun '(r, r', n, _, i) => (r, r', n, i)) (trace_episodes w).
Definition trace_rates (w : World) : list (option (option Q)) :=
  map (fun '(_, _, _, sr, _) => sr) (trace_episodes w).

(** The orchestrator's counters, which no collaborator call touches. *)
Definition counters (w : World) : nat * nat * nat * nat * nat :=
  (w_i_episode w, w_total_numsteps w, w_updates w, w_rank_count w, w_rank_num w).

Lemma record_counters e w : counters (record e w) = counters w.
Proof. reflexivity. Qed.

Lemma record_trace e w : w_trace (record e w) = w_trace w ++ [e].
Proof. reflexivity. Qed.

(** ** Weakest preconditions of the primitives *)

Lemma wp_env_reset_l (Q : St -> World -> Prop) w :
  Q (snd (env_reset_op (w_env w))) (record EvReset (with_env (fst (env_reset_op (w_env w))) w)) ->
  wp env_reset Q w.
Proof. unfold wp, env_reset. now destruct (env_reset_op (w_env w)). Qed.

Lemma wp_random_action_l k (Q : Act -> World -> Prop) w :
  (let p := match k with
            | Rlbench => env_randn_action_op (w_env w)
            | Mujoco | Metaworld => env_action_space_sample_op (w_env w)
            end in Q (snd p) (record EvRandomAction (with_env (fst p) w))) ->
  wp (random_action k) Q w.
Proof.
  unfold wp, random_action. destruct k;
    [destruct (env_randn_action_op (w_env w))|destruct (env_action_space_sample_op (w_env w))..];
    auto.
Qed.

Lemma wp_select_action_l s ev (Q : Act -> World -> Prop) w :
  Q (snd (select_action_op (w_agent w) s ev))
    (record (EvSelectAction ev) (with_agent (fst (select_action_op (w_agent w) s ev)) w)) ->
  wp (select_action s ev) Q w.
Proof. unfold wp, select_action. now destruct (select_action_op (w_agent w) s ev). Qed.

Lemma wp_agent_update_l rule b i (Q : losses -> World -> Prop) w :
  (let p := match rule with
            | MainRule => update_parameters_op (w_agent w) (w_mem w) b i
            | PretrainRule => update_parameters_pretrain_op (w_agent w) (w_mem w) b i
            end in Q (snd p) (record (EvUpdate rule i) (with_agent (fst p) w))) ->
  wp (agent_update rule b i) Q w.
Proof.
  unfold wp, agent_update. destruct rule;
    [destruct (update_parameters_op (w_agent w) (w_mem w) b i)
    |destruct (update_parameters_pretrain_op (w_agent w) (w_mem w) b i)]; auto.
Qed.

Lemma wp_env_step_l a (Q : step_out St -> World -> Prop) w :
  Q (snd (env_step_op (w_env w) a))
    (record (EvEnvStep (so_success (snd (env_step_op (w_env w) a))))
            (with_env (fst (env_step_op (w_env w) a)) w)) ->
  wp (env_step a) Q w.
Proof. unfold wp, env_step. now destruct (env_step_op (w_env w) a). Qed.

Lemma wp_rank_l k (Q : Q -> World -> Prop) w :
  Q (snd (rank_op (w_rnet w) k)) (record (EvRank k) (with_rnet (fst (rank_op (w_rnet w) k)) w)) ->
  wp (rank k) Q w.
Proof. unfold wp, rank. now destruct (rank_op (w_rnet w) k). Qed.

Lemma wp_learn_reward_soft_l (Q : Q -> World -> Prop) w :
  Q (snd (learn_reward_soft_op (w_rnet w)))
    (record EvLearnSoft (with_rnet (fst (learn_reward_soft_op (w_rnet w))) w)) ->
  wp learn_reward_soft Q w.
Proof. unfold wp, learn_reward_soft. now destruct (learn_reward_soft_op (w_rnet w)). Qed.

(** A loop whose body makes one call [e] and leaves the counters alone
    makes [n] such calls. *)
Lemma wp_repeat_calls n (body : M World unit) e (w : World) :
  (forall w0, counters w0 = counters w ->
     wp body (fun _ w1 => w_trace w1 = w_trace w0 ++ [e] /\ counters w1 = counters w0) w0) ->
  wp (repeat_m n body) (fun _ w' => w_trace w' = w_trace w ++ repeat e n /\ counters w' = counters w) w.
Proof.
  intros Hb. assert (Hgen : forall k w0, counters w0 = counters w ->
    wp (repeat_m k body) (fun _ w' => w_trace w' = w_trace w0 ++ repeat e k /\ counters w' = counters w0) w0).
  { induction k as [|k IH]; intros w0 Hw0; cbn [repeat_m].
    - apply wp_ret. now rewrite app_nil_r.
    - apply wp_bind. eapply wp_mono; [apply Hb, Hw0|]. intros u w1 [Ht1 Hc1].
      eapply wp_mono; [apply IH; congruence|]. intros u' w2 [Ht2 Hc2]. split; [|congruence].
      rewrite Ht2, Ht1, <- app_assoc. reflexivity. }
  apply Hgen. reflexivity.
Qed.
(** No collaborator call touches the per-episode lists. *)
Local Ltac lists_prim :=
  let H := fresh in
  intros ? ? ? H;
  cbv beta delta [env_reset random_action select_action agent_update env_step get_reward
                  memory_push push_data rank learn_reward_soft relabel_memory reset_critic
                  reset_actor log] in H;
  repeat match type of H with context [let (_, _) := ?p in _] => destruct p end;
  injection H as _ <-; reflexivity.

Lemma env_reset_lists : preserves episode_lists env_reset.
Proof. lists_prim. Qed.
Lemma random_action_lists k : preserves episode_lists (random_action k).
Proof. lists_prim. Qed.
Lemma select_action_lists s ev : preserves episode_lists (select_action s ev).
Proof. lists_prim. Qed.
Lemma agent_update_lists rule b i : preserves episode_lists (agent_update rule b i).
Proof. lists_prim. Qed.
Lemma env_step_lists a : preserves episode_lists (env_step a).
Proof. lists_prim. Qed.
Lemma get_reward_lists s a : preserves episode_lists (get_reward s a).
Proof. lists_prim. Qed.
Lemma memory_push_lists t : preserves episode_lists (memory_push t).
Proof. lists_prim. Qed.
Lemma push_data_lists s a r d : preserves episode_lists (push_data s a r d).
Proof. lists_prim. Qed.
Lemma rank_lists k : preserves episode_lists (rank k).
Proof. lists_prim. Qed.
Lemma learn_reward_soft_lists : preserves episode_lists learn_reward_soft.
Proof. lists_prim. Qed.
Lemma relabel_memory_lists : preserves episode_lists relabel_memory.
Proof. lists_prim. Qed.
Lemma reset_critic_lists : preserves episode_lists reset_critic.
Proof. lists_prim. Qed.
Lemma reset_actor_lists : preserves episode_lists reset_actor.
Proof. lists_prim. Qed.
Lemma log_lists t : preserves episode_lists (log t).
Proof. lists_prim. Qed.
(** Only a logged episode record adds to [trace_episodes]. *)
Local Ltac logs_prim :=
  let H := fresh in
  intros ? ? ? H;
  cbv beta delta [env_reset random_action select_action agent_update env_step get_reward
                  memory_push push_data rank learn_reward_soft relabel_memory reset_critic
                  reset_actor log] in H;
  repeat match type of H with context [let (_, _) := ?p in _] => destruct p end;
  injection H as _ <-; unfold trace_episodes; cbn; rewrite episode_logs_app; cbn; apply app_nil_r.

Lemma env_reset_logs : preserves trace_episodes env_reset.
Proof. logs_prim. Qed.
Lemma random_action_logs k : preserves trace_episodes (random_action k).
Proof. destruct k; logs_prim. Qed.
Lemma select_action_logs s ev : preserves trace_episodes (select_action s ev).
Proof. logs_prim. Qed.
Lemma agent_update_logs rule b i : preserves trace_episodes (agent_update rule b i).
Proof. destruct rule; logs_prim. Qed.
Lemma env_step_logs a : preserves trace_episodes (env_step a).
Proof. logs_prim. Qed.
Lemma get_reward_logs s a : preserves trace_episodes (get_reward s a).
Proof. logs_prim. Qed.
Lemma memory_push_logs t : preserves trace_episodes (memory_push t).
Proof. logs_prim. Qed.
Lemma push_data_logs s a r d : preserves trace_episodes (push_data s a r d).
Proof. logs_prim. Qed.
Lemma rank_logs k : preserves trace_episodes (rank k).
Proof. logs_prim. Qed.
Lemma learn_reward_soft_logs : preserves trace_episodes learn_reward_soft.
Proof. logs_prim. Qed.
Lemma relabel_memory_logs : preserves trace_episodes relabel_memory.
Proof. logs_prim. Qed.
Lemma reset_critic_logs : preserves trace_episodes reset_critic.
Proof. logs_prim. Qed.
Lemma reset_actor_logs : preserves trace_episodes reset_actor.
Proof. logs_prim. Qed.
Lemma log_losses_logs a b c : preserves trace_episodes (log (LogLosses a b c)).
Proof. logs_prim. Qed.
Lemma log_rank_logs a b c d : preserves trace_episodes (log (LogRank a b c d)).
Proof. logs_prim. Qed.
End World.

#[export] Hint Resolve env_reset_lists random_action_lists select_action_lists agent_update_lists
  env_step_lists get_reward_lists memory_push_lists push_data_lists rank_lists
  learn_reward_soft_lists relabel_memory_lists reset_critic_lists reset_actor_lists log_lists : frame.
#[export] Hint Resolve env_reset_logs random_action_logs select_action_logs agent_update_logs
  env_step_logs get_reward_logs memory_push_logs push_data_logs rank_logs learn_reward_soft_logs
  relabel_memory_logs reset_critic_logs reset_actor_logs log_losses_logs log_rank_logs : frame.

Arguments World : clear implicits.

(** ** Well-formed objects *)

(** An [OPRRL] object between two episodes: the three per-episode lists
    of lines 250-252 have one entry per finished episode, each recorded
    length is between 1 and [episode_len], [self.total_numsteps] is their
    sum, [self.updates] is at most [updates_per_step] per step taken, and
    [self.rank_count] at most one per episode. *)
Definition obj_wf {E G RN Mem} (cfg : config) (w : World E G RN Mem) : Prop :=
  List.length (w_e_reward_list w) = List.length (w_episode_len_list w) /\
  List.length (w_e_reward_prime_list w) = List.length (w_episode_len_list w) /\
  Forall (fun n => 1 <= n <= episode_len cfg) (w_episode_len_list w) /\
  w_total_numsteps w = list_sum (w_episode_len_list w) /\
  w_updates w <= w_total_numsteps w * updates_per_step cfg /\
  w_rank_count w <= List.length (w_episode_len_list w).

(** A fresh object, with zero counters and empty lists, is well formed. *)
Lemma fresh_obj_wf {E G RN Mem} cfg (w : World E G RN Mem) :
  counters w = (0, 0, 0, 0, 0) -> episode_lists w = ([], [], []) -> obj_wf cfg w.
Proof.
  unfold counters, episode_lists, obj_wf. intros Hc Hl.
  injection Hc as _ Hn Hu Hrc _. injection Hl as -> -> ->. rewrite Hn, Hu, Hrc. cbn.
  repeat split; lia || constructor.
Qed.

(** ** Extensions of the world *)

(** [ext P w w']: from [w] to [w'] only calls satisfying [P] were made,
    and the episode index and the two ranking counters are unchanged. *)
Definition ext {E G RN Mem} (P : event -> bool) (w w' : World E G RN Mem) : Prop :=
  (exists evs, w_trace w' = w_trace w ++ evs /\ forallb P evs = true) /\
  w_i_episode w' = w_i_episode w /\ w_rank_count w' = w_rank_count w /\
  w_rank_num w' = w_rank_num w.

Section Ext.
Context {E G RN Mem : Type}.
Implicit Types w : World E G RN Mem.

Lemma ext_refl P w : ext P w w.
Proof. repeat split. exists []. now rewrite app_nil_r. Qed.

Lemma ext_trans P w1 w2 w3 : ext P w1 w2 -> ext P w2 w3 -> ext P w1 w3.
Proof.
  intros ([l1 [H1 F1]] & I1 & C1 & N1) ([l2 [H2 F2]] & I2 & C2 & N2).
  repeat split; try congruence. exists (l1 ++ l2). split.
  - now rewrite H2, H1, app_assoc.
  - now rewrite forallb_app, F1, F2.
Qed.

Lemma ext_mono (P P' : event -> bool) w w' :
  (forall e, P e = true -> P' e = true) -> ext P w w' -> ext P' w w'.
Proof.
  intros HP ([l [Ht F]] & I & C & N). repeat split; auto. exists l. split; [exact Ht|].
  apply forallb_forall. intros x Hx. apply HP. eapply forallb_forall in F; eauto.
Qed.

(** One recorded call satisfying [P], on a world whose counters are
    untouched. *)
Lemma ext_record P e w w0 :
  P e = true -> w_trace w0 = w_trace w -> counters w0 = counters w ->
  ext P w (record e w0).
Proof.
  intros He Ht Hc. unfold counters in Hc. injection Hc as Hi Hn Hu Hrc Hrn.
  repeat split; auto. exists [e]. cbn. rewrite Ht, He. split; reflexivity.
Qed.
End Ext.

#[export] Hint Resolve ext_refl : oprrl.

(** [wp_steps] walks through a program of [M World]: binds, pure steps
    and the primitives; it stops at calls of defined procedures, whose
    spec lemmas the proof applies. *)
Ltac wp_call :=
  match goal with
  | |- wp env_reset _ _ => apply wp_env_reset_l
  | |- wp (random_action _) _ _ => apply wp_random_action_l
  | |- wp (select_action _ _) _ _ => apply wp_select_action_l
  | |- wp (agent_update _ _ _) _ _ => apply wp_agent_update_l
  | |- wp (env_step _) _ _ => apply wp_env_step_l
  | |- wp (rank _) _ _ => apply wp_rank_l
  | |- wp learn_reward_soft _ _ => apply wp_learn_reward_soft_l
  | |- wp (get_reward _ _) _ _ => unfold get_reward, wp
  | |- wp (memory_push _) _ _ => unfold memory_push, wp
  | |- wp (push_data _ _ _ _) _ _ => unfold push_data, wp
  | |- wp relabel_memory _ _ => unfold relabel_memory, wp
  | |- wp reset_critic _ _ => unfold reset_critic, wp
  | |- wp reset_actor _ _ => unfold reset_actor, wp
  | |- wp (log _) _ _ => unfold log, wp
  | |- wp memory_len _ _ => apply wp_gets
  | |- wp ranked_len _ _ => apply wp_gets
  end.

Ltac wp_steps :=
  repeat (first [progress wp_run | wp_call | match goal with |- let _ := _ in _ => cbv zeta end]);
  cbv beta.
#[export] Hint Rewrite @record_trace : oprrl_rw.
