(* ===== verification/Toy.v ===== *)
(** * Concrete collaborators for running the model

    Small deterministic instances of the collaborator classes, so that
    every theorem with hypotheses can be applied at a concrete input whose
    hypotheses are decided by computation.  States and actions are
    naturals.  The environment ends an episode on its own after three
    steps and reports success at step two; the agent counts its updates;
    the reward model keeps the size of its ranked pool and the number of
    fit steps, and its accuracy is above 0.97 on every third fit.  None of
    this is a model of [src/main.py]: the theorems hold for every
    collaborator, these only exercise them. *)

From Stdlib Require Import Arith QArith List String Lia.
From S2P Require Import Prelude Interfaces ReplayMemory World.
Import ListNotations.
Local Open Scope nat_scope.

(** The environment's state is the number of steps since [reset]. *)
#[export] Instance toy_env : Environment nat nat nat := {
  env_reset_op e := (0, 0);
  env_step_op e a := (S e, mkStepOut (S e) (inject_Z (Z.of_nat a)) (S e =? 3) (S e =? 2));
  env_randn_action_op e := (e, 1);
  env_action_space_sample_op e := (e, 2)
}.

Definition zero_losses : losses := mkLosses 0 0 0 0 0.

(** The agent's state is its number of updates. *)
#[export] Instance toy_agent : Agent nat nat nat (ListMemory nat nat) := {
  select_action_op g s ev := (g, S s);
  update_parameters_op g m b i := (S g, zero_losses);
  update_parameters_pretrain_op g m b i := (S g, zero_losses);
  reset_critic_op g := 0;
  reset_actor_op g := 0
}.

(** The reward model's state: (ranked pool size, fit steps done). *)
#[export] Instance toy_rnet : RewardModel (nat * nat) nat nat := {
  get_reward_op r s a := inject_Z (Z.of_nat (s + a));
  push_data_op r s a x d := r;
  rank_op r k := ((fst r + k, snd r), 1 # 2);
  learn_reward_soft_op r :=
    ((fst r, S (snd r)), if S (snd r) mod 3 =? 0 then 99 # 100 else 1 # 2);
  ranked_trajs_len r := fst r
}.

(** The library code that builds them: every environment is the toy
    one, Meta-World knows the single task [reach-v2], the observation and
    action spaces have dimensions 39 and 4. *)
#[export] Instance toy_builders : Builders nat nat (nat * nat) (ListMemory nat nat) := {
  custom_env_op ic := 0;
  gym_make_op task twu := 0;
  metaworld_env_op task := if String.eqb task "reach-v2" then Some 0 else None;
  set_max_episode_steps_op e n := e;
  unfreeze_task_op e := e;
  env_seed_op e s := e;
  action_space_seed_op e s := e;
  set_max_path_length_op e n := e;
  observation_dim_op e := 39;
  action_dim_op e := 4;
  sac_op d e := 0;
  replay_memory_op n s b := [];
  reward_network_op d a n k := (0, 0)
}.

(** The fields [__init__] reads, for backend [name] and task [task]. *)
Definition toy_ic (name task : string) : init_config := mkInitConfig name task None 7 1000 false.

Definition ToyWorld : Type := World nat nat (nat * nat) (ListMemory nat nat).

(** A freshly built [OPRRL] with one entry in its memory. *)
Definition toy_world0 : ToyWorld :=
  init_world 0 0 (0, 0) [mkTransition 0 1 0 1 1].

(** A configuration: episodes of at most 5 steps, 6 episodes, return
    threshold 3, MuJoCo, no logging, 2 warm-up episodes, no pretraining,
    batch 0, one update per step, evaluation every 3 episodes (disabled),
    ranking every 2 episodes by 1 while exploring, every 3 by 2 once
    converged, ranked pool capped at 4. *)
Definition toy_cfg : config :=
  mkConfig 5 6 (3 # 1) Mujoco false 2 0 0 1 3 false 1 2 1 3 2 4.

(** The same with a ranking period of zero while exploring. *)
Definition toy_cfg_zero_period : config :=
  mkConfig 5 6 (3 # 1) Mujoco false 2 0 0 1 3 false 1 0 1 3 2 4.

(** The same with [episode_len = 0]. *)
Definition toy_cfg_len0 : config :=
  mkConfig 0 6 (3 # 1) Mujoco false 2 0 0 1 3 false 1 2 1 3 2 4.

(** The same with one pretrain episode after the two warm-up episodes
    (the pretrain exit fires at episode 3) and evaluation on. *)
Definition toy_cfg_pretrain : config :=
  mkConfig 5 6 (3 # 1) Mujoco false 2 1 0 1 3 true 1 2 1 3 2 4.

(** The same with [eval_per_episode = 0] and evaluation off. *)
Definition toy_cfg_eval0 : config :=
  mkConfig 5 6 (3 # 1) Mujoco false 2 0 0 1 0 false 1 2 1 3 2 4.

(** A reward model whose ranked pool never holds more than 1000
    trajectories; its state is the pool size. *)
#[export] Instance toy_rnet_capped : RewardModel nat nat nat := {
  get_reward_op r s a := inject_Z (Z.of_nat (s + a));
  push_data_op r s a x d := r;
  rank_op r k := (Nat.min 1000 (r + k), 1 # 2);
  learn_reward_soft_op r := (r, 1 # 2);
  ranked_trajs_len r := r
}.

Definition ToyWorldCapped : Type := World nat nat nat (ListMemory nat nat).

Definition toy_world_capped0 : ToyWorldCapped :=
  init_world 0 0 0 [mkTransition 0 1 0 1 1].

(** The scenario of the spec (section 8): 5 warm-up episodes, no
    pretraining, [episode_len = 10], ranking every 3 episodes,
    [change_flag_reward = 100], [max_rank_num = 1000]; both phases rank
    every 3 episodes here, and 10 episodes are run. *)
Definition toy_cfg_scenario : config :=
  mkConfig 10 11 (100 # 1) Mujoco false 5 0 0 1 3 false 1 3 1 3 2 1000.
