(* ===== verification/Init.v ===== *)
(** * [OPRRL.__init__] (lines 24-103)

    The constructor reads the configuration, builds the environment of
    the backend named by [config.experiment.env_type] (raising at line 63
    for any other name), seeds the random generators, builds the agent,
    the replay memory and the reward network sized from the environment's
    spaces, opens the wandb run when logging is on, and zeroes the
    counters and the per-episode lists (lines 89-101).

    Construction runs in the monad [M (list event)]: before the object
    exists its only state is the trace of the library calls made so far.
    Each call is [call ev v]: the library function's result [v] (from the
    class [Builders]) with its event [ev] appended.  [oprrl_new] is the
    expression [OPRRL(config)]: the object, whose trace starts with the
    construction's calls, or the exception. *)

From Stdlib Require Import Arith QArith List String Lia.
From S2P Require Import Prelude Interfaces ReplayMemory World Toy.
Import ListNotations.
Local Open Scope nat_scope.

(** One library call during construction. *)
Definition call {A} (ev : event) (v : A) : M (list event) A := fun t => Ok (v, t ++ [ev]).

Section Init.
Context {St Act E G RN Mem : Type}.
Context `{Environment E St Act} `{Agent G St Act Mem} `{RewardModel RN St Act}
        `{ReplayMemory Mem St Act} `{Builders E G RN Mem}.
Local Abbreviation World := (World E G RN Mem).

(** Lines 40-60, the branch of backend [k]: RLBench builds [CustomEnv]
    and resets it once (lines 41-42); MuJoCo calls [gym.make], with the
    keyword [terminate_when_unhealthy] only when it is set (45-48), sets
    the time limit to [episode_len] and seeds the environment and its
    action space (49-51); Meta-World looks the task up in
    [ALL_V2_ENVIRONMENTS], raising [KeyError] for an unknown task (54),
    builds it, unfreezes its task sampling (55-57), seeds it and its
    action space and sets its path length to [episode_len] (58-60). *)
Definition make_env (ic : init_config) (k : env_kind) (episode_len : nat) : M (list event) E :=
  let seed := ic_seed ic in
  match k with
  | Rlbench =>
      e <- call EvCustomEnv (custom_env_op ic) ;;
      call EvReset (fst (env_reset_op e))
  | Mujoco =>
      e <- call (EvGymMake (ic_terminate_when_unhealthy ic))
                (gym_make_op (ic_task ic) (ic_terminate_when_unhealthy ic)) ;;
      e <- call (EvSetMaxEpisodeSteps episode_len) (set_max_episode_steps_op e episode_len) ;;
      e <- call (EvEnvSeed seed) (env_seed_op e seed) ;;
      call (EvActionSpaceSeed seed) (action_space_seed_op e seed)
  | Metaworld =>
      match metaworld_env_op (ic_task ic) with
      | None => throw KeyError
      | Some e0 =>
          e <- call EvMetaworldEnv e0 ;;
          e <- call EvUnfreezeTask (unfreeze_task_op e) ;;
          e <- call (EvEnvSeed seed) (env_seed_op e seed) ;;
          e <- call (EvActionSpaceSeed seed) (action_space_seed_op e seed) ;;
          call (EvSetMaxPathLength episode_len) (set_max_path_length_op e episode_len)
      end
  end.

(** Lines 38-101: the backend by name or the exception of line 63, the
    environment, [set_seeds] (65), the two dimensions read from the
    built environment (66-67), [SAC] (71), [ReplayMemory] (74),
    [RewardNetwork] (77), [wandb.init] when logging (80-84), and the
    zeroed counters and empty lists (89-101). *)
Definition oprrl_init (ic : init_config) (cfg : config) : M (list event) World :=
  k <- lift (parse_env_type (ic_env_type ic)) ;;
  e <- make_env ic k (episode_len cfg) ;;
  call (EvSetSeeds (ic_seed ic)) tt ;;;
  let state_dim := observation_dim_op e in
  let action_dim := action_dim_op e in
  g <- call (EvBuildAgent state_dim) (sac_op state_dim e) ;;
  m <- call (EvBuildMemory (ic_replay_size ic) (ic_seed ic) (ic_state_only ic))
            (replay_memory_op (ic_replay_size ic) (ic_seed ic) (ic_state_only ic)) ;;
  r <- call (EvBuildRewardNet state_dim action_dim (episode_len cfg) k)
            (reward_network_op state_dim action_dim (episode_len cfg) k) ;;
  (if wandb_log cfg then call EvWandbInit tt else ret tt) ;;;
  t <- gets (fun t => t) ;;
  ret (with_trace t (init_world e g r m)).

(** [OPRRL(config)]: the object, or the exception its constructor raises. *)
Definition oprrl_new (ic : init_config) (cfg : config) : result World :=
  match oprrl_init ic cfg [] with
  | Ok (w, _) => Ok w
  | Err e => Err e
  end.
End Init.

(** The seed a construction call passes, if any. *)
Definition seed_of (e : event) : option nat :=
  match e with
  | EvEnvSeed s | EvActionSpaceSeed s | EvSetSeeds s | EvBuildMemory _ s _ => Some s
  | _ => None
  end.

(** The episode length a construction call passes, if any. *)
Definition horizon_of (e : event) : option nat :=
  match e with
  | EvSetMaxEpisodeSteps n | EvSetMaxPathLength n | EvBuildRewardNet _ _ n _ => Some n
  | _ => None
  end.

Definition has_seed (e : event) : bool := match seed_of e with Some _ => true | None => false end.
Definition has_horizon (e : event) : bool := match horizon_of e with Some _ => true | None => false end.

Section InitRuns.
Context {St Act E G RN Mem : Type}.
Context `{Environment E St Act} `{Agent G St Act Mem} `{RewardModel RN St Act}
        `{ReplayMemory Mem St Act} `{Builders E G RN Mem}.
Local Abbreviation World := (World E G RN Mem).

(** The calls after the environment is built (lines 65-84). *)
Definition build_calls (ic : init_config) (cfg : config) (k : env_kind) (e : E) : list event :=
  [EvSetSeeds (ic_seed ic); EvBuildAgent (observation_dim_op e);
   EvBuildMemory (ic_replay_size ic) (ic_seed ic) (ic_state_only ic);
   EvBuildRewardNet (observation_dim_op e) (action_dim_op e) (episode_len cfg) k] ++
  (if wandb_log cfg then [EvWandbInit] else []).

(** A successful construction: the backend parsed, the environment
    built by its branch, then the remaining calls, the collaborators
    built from the environment, and every counter and list empty. *)
Lemma oprrl_new_ok ic cfg (w : World) :
  oprrl_new ic cfg = Ok w ->
  exists k evs, parse_env_type (ic_env_type ic) = Ok k /\
    make_env ic k (episode_len cfg) [] = Ok (w_env w, evs) /\
    w_trace w = evs ++ build_calls ic cfg k (w_env w) /\
    w_agent w = sac_op (observation_dim_op (w_env w)) (w_env w) /\
    w_mem w = replay_memory_op (ic_replay_size ic) (ic_seed ic) (ic_state_only ic) /\
    w_rnet w = reward_network_op (observation_dim_op (w_env w)) (action_dim_op (w_env w))
                                 (episode_len cfg) k /\
    counters w = (0, 0, 0, 0, 0) /\ episode_lists w = ([], [], []).
Proof.
  unfold oprrl_new, oprrl_init, bind, lift.
  destruct (parse_env_type (ic_env_type ic)) as [k|er]; [|discriminate].
  destruct (make_env ic k (episode_len cfg) []) as [[e evs]|er] eqn:Em; [|discriminate].
  unfold call, gets, ret. intros Hw.
  assert (Hw' : w = with_trace (evs ++ build_calls ic cfg k e)
                  (init_world e (sac_op (observation_dim_op e) e)
                     (reward_network_op (observation_dim_op e) (action_dim_op e) (episode_len cfg) k)
                     (replay_memory_op (ic_replay_size ic) (ic_seed ic) (ic_state_only ic)))).
  { unfold build_calls. destruct (wandb_log cfg); injection Hw as <-; now rewrite <- !app_assoc. }
  subst w. exists k, evs. repeat split; assumption.
Qed.

(** Building the environment fails only at the Meta-World lookup. *)
Lemma make_env_err ic k len t er :
  (make_env ic k len t : result (E * list event)) = Err er <->
  k = Metaworld /\ metaworld_env_op (E := E) (ic_task ic) = None /\ er = KeyError.
Proof.
  unfold make_env. destruct k; cbn; [split; [discriminate|intros (? & _); discriminate]..|].
  destruct (metaworld_env_op (ic_task ic)); cbn.
  - split; [discriminate|intros (_ & ? & _); discriminate].
  - split; [intros [= <-]; auto|intros (_ & _ & ->); reflexivity].
Qed.

(** The construction fails exactly at the two exceptions of lines 54 and 63. *)
Lemma oprrl_new_err ic cfg er :
  (oprrl_new ic cfg : result World) = Err er <->
  parse_env_type (ic_env_type ic) = Err er \/
  (parse_env_type (ic_env_type ic) = Ok Metaworld /\ metaworld_env_op (E := E) (ic_task ic) = None /\
   er = KeyError).
Proof.
  unfold oprrl_new, oprrl_init, bind, lift.
  destruct (parse_env_type (ic_env_type ic)) as [k|er']; [|split; [intros [= ->]; auto|]].
  - destruct (make_env ic k (episode_len cfg) []) as [[e evs]|er'] eqn:Em.
    + unfold call, gets, ret. split; [destruct (wandb_log cfg); discriminate|].
      intros [?|(Hk & Hm & ->)]; [discriminate|]. injection Hk as ->.
      assert (Hx : (make_env ic Metaworld (episode_len cfg) [] : result (E * list event)) = Err KeyError)
        by (apply make_env_err; auto).
      congruence.
    + apply make_env_err in Em as (-> & Hm & ->). split; [intros [= <-]; auto|].
      intros [?|(_ & _ & ->)]; [discriminate|reflexivity].
  - intros [Hp|(? & ? & ?)]; [congruence|discriminate].
Qed.
(** The calls of each backend's branch: which seeds and lengths they pass. *)
Lemma make_env_calls ic k len (e : E) evs :
  make_env ic k len [] = Ok (e, evs) ->
  Forall (fun ev => seed_of ev = None \/ seed_of ev = Some (ic_seed ic)) evs /\
  Forall (fun ev => horizon_of ev = None \/ horizon_of ev = Some len) evs /\
  count_ev has_seed evs = (if k is Rlbench then 0 else 2) /\
  count_ev has_horizon evs = (if k is Rlbench then 0 else 1).
Proof.
  unfold make_env. destruct k; cbn;
    [| |destruct (metaworld_env_op (ic_task ic)); cbn; [|discriminate]];
    intros [= _ <-]; repeat split; repeat apply Forall_cons; try apply Forall_nil; cbn; auto.
Qed.

End InitRuns.

(** The exception of line 63: a name that is none of the three. *)
Lemma parse_env_type_err s er :
  parse_env_type s = Err er <->
  er = ConfigError /\ ~ In s ["rlbench"; "mujoco"; "metaworld"]%string.
Proof.
  unfold parse_env_type.
  destruct (String.eqb_spec s "rlbench") as [->|H1];
    [split; [discriminate|intros (_ & Hn); exfalso; apply Hn; cbn; auto]|].
  destruct (String.eqb_spec s "mujoco") as [->|H2];
    [split; [discriminate|intros (_ & Hn); exfalso; apply Hn; cbn; auto]|].
  destruct (String.eqb_spec s "metaworld") as [->|H3];
    [split; [discriminate|intros (_ & Hn); exfalso; apply Hn; cbn; auto]|].
  split; [intros [= <-]|intros (-> & _); reflexivity].
  split; [reflexivity|]. cbn. intuition congruence.
Qed.

Section InitClaims.
Context {St Act E G RN Mem : Type}.
Context `{Environment E St Act} `{Agent G St Act Mem} `{RewardModel RN St Act}
        `{ReplayMemory Mem St Act} `{Builders E G RN Mem}.
Local Abbreviation World := (World E G RN Mem).

(** C30: [OPRRL(config)] raises in exactly two cases, both before any
    object exists: the configuration error of line 63 when the backend
    name is none of [rlbench], [mujoco], [metaworld], and the [KeyError]
    of line 54 when a Meta-World task is not in the environment table. *)
Theorem oprrl_new_error ic cfg er :
  (oprrl_new ic cfg : result World) = Err er <->
  (er = ConfigError /\ ~ In (ic_env_type ic) ["rlbench"; "mujoco"; "metaworld"]%string) \/
  (ic_env_type ic = "metaworld"%string /\ metaworld_env_op (E := E) (ic_task ic) = None /\
   er = KeyError).
Proof.
  rewrite oprrl_new_err, parse_env_type_err, parse_env_type_ok.
  split; intros [Hc|(Hk & Hm & He)]; auto; right; (split; [|auto]).
  - destruct Hk as [(_ & ?)|[(_ & ?)|(? & _)]]; [discriminate..|assumption].
  - auto.
Qed.

(** C31: a successfully built object is well formed and fresh: every
    counter zero and every per-episode list empty; its agent is
    [SAC(state_dim, action_space)] and its reward network
    [RewardNetwork(state_dim, action_dim, episode_len, env_type)] with the
    dimensions read from the environment it holds, and its replay memory
    is built with the configured size and seed. *)
Theorem oprrl_new_builds ic cfg (w : World) :
  oprrl_new ic cfg = Ok w ->
  obj_wf cfg w /\ counters w = (0, 0, 0, 0, 0) /\ episode_lists w = ([], [], []) /\
  exists k, parse_env_type (ic_env_type ic) = Ok k /\
    w_agent w = sac_op (observation_dim_op (w_env w)) (w_env w) /\
    w_mem w = replay_memory_op (ic_replay_size ic) (ic_seed ic) (ic_state_only ic) /\
    w_rnet w = reward_network_op (observation_dim_op (w_env w)) (action_dim_op (w_env w))
                                 (episode_len cfg) k.
Proof.
  intros Hw. destruct (oprrl_new_ok ic cfg w Hw) as (k & evs & Hk & _ & _ & Ha & Hm & Hr & Hc & Hl).
  split; [apply fresh_obj_wf; assumption|]. split; [exact Hc|]. split; [exact Hl|]. exists k. auto.
Qed.

(** C32: construction seeds every random generator it seeds with
    [config.experiment.seed] and passes [episode_len] wherever it passes a
    length; MuJoCo and Meta-World seed their environment and its action
    space and get the time limit, RLBench gets neither (four seeded calls
    and two lengths against two and one); [set_seeds] runs before the
    agent is built. *)
Theorem oprrl_new_seeded ic cfg (w : World) :
  oprrl_new ic cfg = Ok w ->
  (forall ev, In ev (w_trace w) -> seed_of ev = None \/ seed_of ev = Some (ic_seed ic)) /\
  (forall ev, In ev (w_trace w) -> horizon_of ev = None \/ horizon_of ev = Some (episode_len cfg)) /\
  (count_ev has_seed (w_trace w) = if String.eqb (ic_env_type ic) "rlbench" then 2 else 4) /\
  (count_ev has_horizon (w_trace w) = if String.eqb (ic_env_type ic) "rlbench" then 1 else 2) /\
  exists pre post, w_trace w = pre ++ EvSetSeeds (ic_seed ic) ::
                               EvBuildAgent (observation_dim_op (w_env w)) :: post.
Proof.
  intros Hw. destruct (oprrl_new_ok ic cfg w Hw) as (k & evs & Hk & Hm & Ht & _).
  destruct (make_env_calls ic k (episode_len cfg) (w_env w) evs Hm) as (Fs & Fh & Cs & Ch).
  rewrite Forall_forall in Fs, Fh. rewrite Ht. unfold build_calls.
  split; [intros ev Hin; apply in_app_or in Hin as [Hin|Hin]; [auto|]|].
  { cbn in Hin. destruct (wandb_log cfg); cbn in Hin; intuition (subst; cbn; auto). }
  split; [intros ev Hin; apply in_app_or in Hin as [Hin|Hin]; [auto|]|].
  { cbn in Hin. destruct (wandb_log cfg); cbn in Hin; intuition (subst; cbn; auto). }
  assert (Hr : String.eqb (ic_env_type ic) "rlbench" = (if k is Rlbench then true else false)).
  { apply parse_env_type_ok in Hk as [(-> & ->)|[(-> & ->)|(-> & ->)]]; reflexivity. }
  rewrite Hr, !count_ev_app, Cs, Ch.
  split; [destruct k, (wandb_log cfg); reflexivity|].
  split; [destruct k, (wandb_log cfg); reflexivity|].
  eexists evs, _. reflexivity.
Qed.
End InitClaims.

(** ** Witnesses *)

(** A MuJoCo object built with logging off, and a Meta-World one with logging on. *)
Definition toy_new (name : string) (cfg : config) : ToyWorld :=
  match oprrl_new (toy_ic name "reach-v2") cfg with Ok w => w | Err _ => toy_world0 end.

Definition toy_cfg_wandb : config :=
  mkConfig 5 6 (3 # 1) Metaworld true 2 0 0 1 3 false 1 2 1 3 2 4.

Lemma oprrl_new_builds_witness :
  oprrl_new (toy_ic "mujoco" "reach-v2") toy_cfg = Ok (toy_new "mujoco" toy_cfg) /\
  obj_wf toy_cfg (toy_new "mujoco" toy_cfg) /\ counters (toy_new "mujoco" toy_cfg) = (0, 0, 0, 0, 0) /\
  episode_lists (toy_new "mujoco" toy_cfg) = ([], [], []) /\
  exists k, parse_env_type (ic_env_type (toy_ic "mujoco" "reach-v2")) = Ok k /\
    w_agent (toy_new "mujoco" toy_cfg) =
      sac_op (observation_dim_op (w_env (toy_new "mujoco" toy_cfg))) (w_env (toy_new "mujoco" toy_cfg)) /\
    w_mem (toy_new "mujoco" toy_cfg) = replay_memory_op 1000 7 false /\
    w_rnet (toy_new "mujoco" toy_cfg) =
      reward_network_op (observation_dim_op (w_env (toy_new "mujoco" toy_cfg)))
                        (action_dim_op (w_env (toy_new "mujoco" toy_cfg))) (episode_len toy_cfg) k.
Proof. split; [reflexivity|]. apply oprrl_new_builds. reflexivity. Defined.

Lemma oprrl_new_seeded_witness :
  oprrl_new (toy_ic "metaworld" "reach-v2") toy_cfg_wandb = Ok (toy_new "metaworld" toy_cfg_wandb) /\
  (forall ev, In ev (w_trace (toy_new "metaworld" toy_cfg_wandb)) -> seed_of ev = None \/ seed_of ev = Some 7) /\
  (forall ev, In ev (w_trace (toy_new "metaworld" toy_cfg_wandb)) -> horizon_of ev = None \/ horizon_of ev = Some 5) /\
  count_ev has_seed (w_trace (toy_new "metaworld" toy_cfg_wandb)) = 4 /\
  count_ev has_horizon (w_trace (toy_new "metaworld" toy_cfg_wandb)) = 2 /\
  exists pre post, w_trace (toy_new "metaworld" toy_cfg_wandb) = pre ++ EvSetSeeds 7 ::
                     EvBuildAgent (observation_dim_op (w_env (toy_new "metaworld" toy_cfg_wandb))) :: post.
Proof.
  split; [reflexivity|].
  exact (oprrl_new_seeded (toy_ic "metaworld" "reach-v2") toy_cfg_wandb _ eq_refl).
Defined.
