(* ===== verification/LearnReward.v ===== *)
(** * [OPRRL.learn_reward]: refitting the reward model (lines 133-150)

    [learn_loop] is the [for] loop of lines 137-141 with its [break];
    [learn_reward] is the whole method.  The reference [fit_accs] runs the
    reward model's fit step [n] times and lists the accuracies; [cut_high]
    cuts a list after its first accuracy above 0.97.  The main theorem
    ([learn_loop_run]) says that the loop with early stopping computes
    exactly [cut_high] of the [n] accuracies, and leaves the reward model
    as after that many fit steps; the spec's "refit minimum" and
    "relabel consistency" properties follow from it. *)

From Stdlib Require Import Arith QArith List Lia.
From S2P Require Import Prelude Interfaces ReplayMemory World Toy.
Import ListNotations.
Local Open Scope nat_scope.

(** The accuracy above which [learn_reward] stops early (line 140). *)
Definition early_break_threshold : Q := 97 # 100.

(** The accuracies up to and including the first one above the threshold. *)
Fixpoint cut_high (l : list Q) : list Q :=
  match l with
  | [] => []
  | a :: l' => if Qgtb a early_break_threshold then [a] else a :: cut_high l'
  end.

(** ** What [cut_high] keeps *)

Lemma cut_high_length l : List.length (cut_high l) <= List.length l.
Proof. induction l as [|a l IH]; simpl; [lia|]. destruct (Qgtb a _); simpl; lia. Qed.

Lemma cut_high_nonempty l : l <> [] -> 0 < List.length (cut_high l).
Proof. destruct l as [|a l]; [congruence|]. simpl. destruct (Qgtb a _); simpl; lia. Qed.

Lemma cut_high_prefix l : cut_high l = firstn (List.length (cut_high l)) l.
Proof.
  induction l as [|a l IH]; simpl; [reflexivity|].
  destruct (Qgtb a _); simpl; [reflexivity|]. now rewrite <- IH.
Qed.

(** A cut list that is shorter ends on an accuracy above the threshold. *)
Lemma cut_high_short l :
  List.length (cut_high l) < List.length l ->
  exists a, nth_error l (pred (List.length (cut_high l))) = Some a /\
            Qgtb a early_break_threshold = true.
Proof.
  induction l as [|a l IH]; simpl; [lia|].
  destruct (Qgtb a _) eqn:Ea; simpl; [eauto|].
  intros Hlt. destruct IH as [b [Hb Hgt]]; [lia|].
  exists b. split; [|exact Hgt].
  destruct l as [|c l']; [simpl in Hlt; lia|].
  pose proof (cut_high_nonempty (c :: l') ltac:(discriminate)) as Hne.
  destruct (List.length (cut_high (c :: l'))) as [|k]; [lia|]. exact Hb.
Qed.

(** Every accuracy kept before the last one is at most the threshold. *)
Lemma cut_high_before l i a :
  S i < List.length (cut_high l) -> nth_error l i = Some a ->
  Qgtb a early_break_threshold = false.
Proof.
  revert i; induction l as [|b l IH]; intros i; simpl; [lia|].
  destruct (Qgtb b _) eqn:Eb; simpl; [lia|].
  destruct i as [|i]; simpl; [congruence|]. intros Hlt. apply IH. lia.
Qed.

#[export] Hint Resolve cut_high_length cut_high_nonempty : oprrl.

Section LearnReward.
Context {St Act E G RN Mem : Type}.
Context `{Environment E St Act} `{Agent G St Act Mem} `{RewardModel RN St Act}
        `{ReplayMemory Mem St Act}.

Local Abbreviation World := (World E G RN Mem).

(** Lines 137-141: [for i in range(num_learn_reward)] with the early
    [break]; the list returned is [acc_ls]. *)
Fixpoint learn_loop (n : nat) (early_break : bool) : M World (list Q) :=
  match n with
  | O => ret []
  | S n' =>
      acc <- learn_reward_soft ;;
      if early_break && Qgtb acc early_break_threshold then ret [acc]
      else (rest <- learn_loop n' early_break ;; ret (acc :: rest))
  end.

(** Lines 133-150. *)
Definition learn_reward (num_learn_reward : nat) (early_break relabel : bool)
  : M World (option Q) :=
  rc <- gets w_rank_count ;;
  acc_ls <- (if 5 <=? rc then learn_loop num_learn_reward early_break
             else (acc <- learn_reward_soft ;; ret [acc])) ;;
  let acc := np_mean acc_ls in
  (if relabel then relabel_memory else ret tt) ;;;
  ret acc.

(** ** The reference: [n] fit steps in a row *)

Fixpoint fit_accs (r : RN) (n : nat) : list Q :=
  match n with
  | O => []
  | S n' => let (r', a) := learn_reward_soft_op r in a :: fit_accs r' n'
  end.

Lemma fit_accs_length r n : List.length (fit_accs r n) = n.
Proof.
  revert r; induction n as [|n IH]; intros r; simpl; [reflexivity|].
  destruct (learn_reward_soft_op r). simpl. now rewrite IH.
Qed.

Fixpoint fit_state (r : RN) (n : nat) : RN :=
  match n with
  | O => r
  | S n' => fit_state (fst (learn_reward_soft_op r)) n'
  end.

(** The accuracies [learn_loop n eb] keeps. *)
Definition kept_accs (eb : bool) (l : list Q) : list Q := if eb then cut_high l else l.

(** What a run of [k] fit steps does to the world: the reward model
    advanced [k] fits, [k] events logged, nothing else changed. *)
Definition fitted (k : nat) (w w' : World) : Prop :=
  w_rnet w' = fit_state (w_rnet w) k /\
  w_trace w' = w_trace w ++ repeat EvLearnSoft k /\
  w_mem w' = w_mem w /\ w_agent w' = w_agent w /\ w_env w' = w_env w /\
  counters w' = counters w.

Lemma fitted_step w k w' :
  fitted k (record EvLearnSoft (with_rnet (fst (learn_reward_soft_op (w_rnet w))) w)) w' ->
  fitted (S k) w w'.
Proof.
  intros (Hr & Ht & Hm & Hg & He & Hc). repeat split; auto.
  rewrite Ht. simpl. now rewrite <- app_assoc.
Qed.

Lemma fitted_zero w : fitted 0 w w.
Proof. repeat split. simpl. now rewrite app_nil_r. Qed.

Lemma fitted_one w :
  fitted 1 w (record EvLearnSoft (with_rnet (fst (learn_reward_soft_op (w_rnet w))) w)).
Proof. repeat split. Qed.

(** The loop computes [kept_accs] of the first [n] accuracies, and the
    model is left after exactly as many fits as accuracies kept. *)
Lemma learn_loop_run n eb w :
  wp (learn_loop n eb)
     (fun accs w' => accs = kept_accs eb (fit_accs (w_rnet w) n) /\
                     fitted (List.length accs) w w') w.
Proof.
  revert w; induction n as [|n IH]; intros w.
  - split; [now destruct eb|apply fitted_zero].
  - simpl. apply wp_bind. unfold learn_reward_soft at 1, wp at 1.
    destruct (learn_reward_soft_op (w_rnet w)) as [r' a] eqn:Er.
    unfold kept_accs; destruct eb, (Qgtb a early_break_threshold) eqn:Ea; simpl.
    + split; [now rewrite Ea|].
      pose proof (fitted_one w) as F. now rewrite Er in F.
    + apply wp_bind. eapply wp_mono; [apply IH|]. intros accs w' [-> F].
      split; [now rewrite Ea|]. simpl. apply fitted_step. now rewrite Er.
    + apply wp_bind. eapply wp_mono; [apply IH|]. intros accs w' [-> F].
      split; [reflexivity|]. simpl. apply fitted_step. now rewrite Er.
    + apply wp_bind. eapply wp_mono; [apply IH|]. intros accs w' [-> F].
      split; [reflexivity|]. simpl. apply fitted_step. now rewrite Er.
Qed.

(** The accuracies [learn_reward] collects, as the code chooses them
    from the rank count. *)
Definition refit_accs (rc n : nat) (eb : bool) (r : RN) : list Q :=
  if 5 <=? rc then kept_accs eb (fit_accs r n) else fit_accs r 1.

(** The whole method: the mean of [refit_accs] is returned, the model
    advanced by as many fits, and the memory relabelled with the new
    model when asked. *)
Lemma learn_reward_run n eb rl w :
  wp (learn_reward n eb rl)
     (fun acc w' =>
        let accs := refit_accs (w_rank_count w) n eb (w_rnet w) in
        acc = np_mean accs /\
        w_rnet w' = fit_state (w_rnet w) (List.length accs) /\
        w_trace w' = w_trace w ++ repeat EvLearnSoft (List.length accs)
                               ++ (if rl then [EvRelabel] else []) /\
        w_mem w' = (if rl then relabel_memory_op (get_reward_op (w_rnet w')) (w_mem w)
                    else w_mem w) /\
        w_agent w' = w_agent w /\ counters w' = counters w) w.
Proof.
  unfold learn_reward, refit_accs. wp_run.
  eapply wp_mono with (Q := fun accs w' => accs = refit_accs (w_rank_count w) n eb (w_rnet w) /\
                                            fitted (List.length accs) w w').
  - unfold refit_accs. destruct (5 <=? w_rank_count w); [apply learn_loop_run|].
    unfold learn_reward_soft, bind, wp; simpl.
    destruct (learn_reward_soft_op (w_rnet w)) as [r' a] eqn:Er; simpl.
    split; [reflexivity|]. pose proof (fitted_one w) as F. now rewrite Er in F.
  - intros accs w1 [Hacc (Hr & Ht & Hm & Hg & He & Hc)].
    apply wp_bind. destruct rl; simpl.
    + rewrite Hacc in *. unfold refit_accs in *. repeat split; auto.
      * unfold record, with_trace; simpl. rewrite Ht, <- app_assoc. reflexivity.
      * simpl. now rewrite Hm.
    + rewrite Hacc in *. unfold refit_accs in *. repeat split; auto.
      rewrite Ht, app_nil_r. reflexivity.
Qed.

(** ** Properties of [learn_reward] *)

(** C10: with fewer than five ranking rounds, [learn_reward] calls
    [learn_reward_soft] exactly once whatever budget it is given, then
    relabels the memory if asked. *)
Theorem learn_reward_single_fit n eb rl w :
  w_rank_count w < 5 ->
  wp (learn_reward n eb rl)
     (fun _ w' => w_trace w' = w_trace w ++ EvLearnSoft :: (if rl then [EvRelabel] else []) /\
                  w_rnet w' = fst (learn_reward_soft_op (w_rnet w))) w.
Proof.
  intros Hrc. eapply wp_mono; [apply learn_reward_run|].
  intros acc w' (_ & Hr & Ht & _). unfold refit_accs in *.
  destruct (Nat.leb_spec 5 (w_rank_count w)); [lia|].
  simpl in *. destruct (learn_reward_soft_op (w_rnet w)) as [r a] eqn:Er. simpl in *.
  split; [exact Ht|]. now rewrite Hr, Er.
Qed.

(** C14: from five ranking rounds on, [learn_reward] makes [k] fit calls
    with [k <= n], at least one when [n > 0]; it makes fewer than [n]
    only when early stopping is on and the [k]-th accuracy is above
    0.97, and with early stopping on no accuracy before the [k]-th is
    above 0.97. *)
Theorem learn_reward_budget n eb rl w :
  5 <= w_rank_count w ->
  wp (learn_reward n eb rl)
     (fun _ w' => exists k,
        w_trace w' = w_trace w ++ repeat EvLearnSoft k ++ (if rl then [EvRelabel] else []) /\
        k <= n /\ (0 < n -> 0 < k) /\
        (k < n -> eb = true /\ exists a, nth_error (fit_accs (w_rnet w) n) (pred k) = Some a /\
                                         Qgtb a early_break_threshold = true) /\
        (eb = true -> forall i a, S i < k -> nth_error (fit_accs (w_rnet w) n) i = Some a ->
                                  Qgtb a early_break_threshold = false)) w.
Proof.
  intros Hrc. eapply wp_mono; [apply learn_reward_run|].
  intros acc w' (_ & _ & Ht & _). unfold refit_accs in *.
  destruct (Nat.leb_spec 5 (w_rank_count w)) as [_|]; [|lia].
  eexists. split; [exact Ht|]. unfold kept_accs.
  pose proof (fit_accs_length (w_rnet w) n) as Hn.
  pose proof (cut_high_length (fit_accs (w_rnet w) n)) as Hle.
  destruct eb; simpl; repeat split.
  - lia.
  - intros Hpos. apply cut_high_nonempty. intros Hnil. rewrite Hnil in Hn. simpl in Hn. lia.
  - apply cut_high_short. lia.
  - intros _. apply cut_high_before.
  - lia.
  - lia.
  - lia.
  - lia.
  - discriminate.
Qed.

(** C15: right after [learn_reward] with relabelling, every entry of the
    replay memory carries the reward the refitted model gives its state
    and action, and the entries are the old ones with only that field
    recomputed. *)
Theorem learn_reward_relabel_consistent `{!ReplayMemoryOk Mem St Act} n eb w :
  wp (learn_reward n eb true)
     (fun _ w' =>
        mem_contents (w_mem w') =
          map (relabel_transition (get_reward_op (w_rnet w'))) (mem_contents (w_mem w)) /\
        forall t, In t (mem_contents (w_mem w')) ->
                  tr_reward t = get_reward_op (w_rnet w') (tr_state t) (tr_action t)) w.
Proof.
  eapply wp_mono; [apply learn_reward_run|].
  intros acc w' (_ & _ & _ & Hm & _). rewrite Hm, mem_relabel_contents.
  split; [reflexivity|]. intros t Ht. apply in_map_iff in Ht as [u [<- _]]. reflexivity.
Qed.

(** C36: with five or more ranking rounds and a budget of zero,
    [learn_reward] fits nothing and returns [np.mean([])], which is NaN. *)
Theorem learn_reward_zero_budget_nan eb rl w :
  5 <= w_rank_count w ->
  wp (learn_reward 0 eb rl) (fun acc w' => acc = None /\ w_rnet w' = w_rnet w) w.
Proof.
  intros Hrc. eapply wp_mono; [apply learn_reward_run|].
  intros acc w' (-> & Hr & _). unfold refit_accs, kept_accs in *.
  destruct (Nat.leb_spec 5 (w_rank_count w)); [|lia]. now destruct eb.
Qed.
(** A refit leaves the per-episode lists alone. *)
Lemma learn_loop_lists n eb : preserves episode_lists (learn_loop n eb).
Proof. induction n as [|n IH]; simpl; preserves_auto. Qed.

Lemma learn_reward_lists n eb rl : preserves episode_lists (learn_reward n eb rl).
Proof. unfold learn_reward. preserves_auto; apply learn_loop_lists. Qed.

(** ... and logs no episode record. *)
Lemma learn_loop_logs n eb : preserves trace_episodes (learn_loop n eb).
Proof. induction n as [|n IH]; simpl; preserves_auto. Qed.

Lemma learn_reward_logs n eb rl : preserves trace_episodes (learn_reward n eb rl).
Proof. unfold learn_reward. preserves_auto; apply learn_loop_logs. Qed.

(** ** The loop against its reference *)

(** [k] fit calls in a row on the object. *)
Fixpoint fit_world (k : nat) (w : World) : World :=
  match k with
  | O => w
  | S k' => fit_world k' (record EvLearnSoft (with_rnet (fst (learn_reward_soft_op (w_rnet w))) w))
  end.

(** The reference for lines 137-141 without the [break]: the accuracies
    of [n] fits in a row, cut after the first one above 0.97 when
    stopping early, and as many fit calls on the object as accuracies
    kept. *)
Definition learn_loop_ref (n : nat) (early_break : bool) : M World (list Q) :=
  fun w => let accs := kept_accs early_break (fit_accs (w_rnet w) n) in
           Ok (accs, fit_world (List.length accs) w).

(** C11: the loop with its early [break] is equal, on every object, to
    the reference: the same accuracies and the same final object, trace
    included.  Stopping at the first accuracy above 0.97 is the same as
    fitting [n] times and cutting the list after that accuracy, except
    that the fits after it are never made. *)
Theorem learn_loop_equiv n eb (w : World) : learn_loop n eb w = learn_loop_ref n eb w.
Proof.
  revert w; induction n as [|n IH]; intros w; [now destruct eb|].
  cbn [learn_loop]. unfold bind at 1, learn_reward_soft at 1, learn_loop_ref. cbn [fit_accs].
  destruct (learn_reward_soft_op (w_rnet w)) as [r' a] eqn:Er.
  unfold kept_accs. destruct eb, (Qgtb a early_break_threshold) eqn:Ea; cbn [andb cut_high];
    rewrite ?Ea; unfold ret, bind; rewrite ?IH; unfold learn_loop_ref, kept_accs;
    cbn [List.length fit_world]; rewrite Er; reflexivity.
Qed.

End LearnReward.

(** ** Witnesses on the concrete collaborators of [Toy] *)

Definition toy_world5 : ToyWorld := with_rank_count 5 toy_world0.

Lemma learn_reward_single_fit_witness :
  w_rank_count toy_world0 < 5 /\
  wp (learn_reward 8 false true)
     (fun _ w' => w_trace w' = w_trace toy_world0 ++ EvLearnSoft :: [EvRelabel] /\
                  w_rnet w' = fst (learn_reward_soft_op (w_rnet toy_world0))) toy_world0.
Proof. split; [vm_compute; lia|]. apply (learn_reward_single_fit 8 false true); vm_compute; lia. Defined.

Lemma learn_reward_budget_witness :
  5 <= w_rank_count toy_world5 /\
  wp (learn_reward 8 true true)
     (fun _ w' => exists k,
        w_trace w' = w_trace toy_world5 ++ repeat EvLearnSoft k ++ [EvRelabel] /\
        k <= 8 /\ (0 < 8 -> 0 < k) /\
        (k < 8 -> true = true /\ exists a, nth_error (fit_accs (w_rnet toy_world5) 8) (pred k) = Some a /\
                                           Qgtb a early_break_threshold = true) /\
        (true = true -> forall i a, S i < k -> nth_error (fit_accs (w_rnet toy_world5) 8) i = Some a ->
                                    Qgtb a early_break_threshold = false)) toy_world5.
Proof. split; [vm_compute; lia|]. apply (learn_reward_budget 8 true true); vm_compute; lia. Defined.

Lemma learn_reward_relabel_consistent_witness :
  wp (learn_reward 8 false true)
     (fun _ w' =>
        mem_contents (w_mem w') =
          map (relabel_transition (get_reward_op (w_rnet w'))) (mem_contents (w_mem toy_world0)) /\
        forall t, In t (mem_contents (w_mem w')) ->
                  tr_reward t = get_reward_op (w_rnet w') (tr_state t) (tr_action t)) toy_world0.
Proof. apply (learn_reward_relabel_consistent 8 false toy_world0). Defined.

Lemma learn_reward_zero_budget_nan_witness :
  5 <= w_rank_count toy_world5 /\
  wp (learn_reward 0 true true) (fun acc w' => acc = None /\ w_rnet w' = w_rnet toy_world5) toy_world5.
Proof. split; [vm_compute; lia|]. apply learn_reward_zero_budget_nan; vm_compute; lia. Defined.
