(* ===== verification/Scheduler.v ===== *)
(** * The frequency/phase scheduler of [OPRRL.train] (lines 258-284)

    After each episode, [train] updates the frequency state machine
    ([frequency_flag], [reach_count]; lines 258-268), which picks the
    ranking period and batch, then ranks and refits the reward model when
    the episode index is a multiple of the period and the ranked pool has
    not outgrown [max_rank_num] (lines 271-284).

    - [freq_update] is lines 258-268 as a pure function.
    - [phase_step] is the abstract two-phase machine of the spec (4.2):
      Exploratory counts qualifying episodes and moves to Converged after
      the ninth; Converged never moves.  [freq_update_refines] shows the
      code implements it, and [sched_run_count] gives the state the
      machine reaches after any sequence of returns in closed form.
    - [rank_and_refit] and [scheduler_block] are lines 271-284 in the
      monad, calling [learn_reward] of [LearnReward]. *)

From Stdlib Require Import Arith QArith List Lia.
From S2P Require Import Prelude Interfaces ReplayMemory World Toy LearnReward.
Import ListNotations.
Local Open Scope nat_scope.

(** [frequency_flag]: the code only ever stores 1 (line 154) or 2 (line 264). *)
Inductive freq_flag : Type := Flag1 | Flag2.

(** The two locals of [train] the state machine keeps. *)
Record sched : Type := mkSched {
  frequency_flag : freq_flag;
  reach_count : nat
}.

(** Lines 154-155. *)
Definition sched_init : sched := mkSched Flag1 0.

(** Lines 258-268: the [frequency_flag == 1] block (count the episode if
    its return beats [change_flag_reward]; move to flag 2 once the count
    exceeds 8) and then the [frequency_flag == 2] block.  The second block
    reads the flag the first may just have set, so the ranking period and
    batch returned are those of the flag at the end. *)
Definition freq_update (cfg : config) (s : sched) (episode_reward : Q)
  : sched * (nat * nat) :=
  let s' := match frequency_flag s with
            | Flag1 =>
                let rc := if Qgtb episode_reward (change_flag_reward cfg)
                          then S (reach_count s) else reach_count s in
                mkSched (if 8 <? rc then Flag2 else Flag1) rc
            | Flag2 => s
            end in
  (s', match frequency_flag s' with
       | Flag1 => (learn_reward_frequency_1 cfg, num_to_rank_1 cfg)
       | Flag2 => (learn_reward_frequency cfg, num_to_rank cfg)
       end).

(** Lines 277-281: the refit budget and early stopping of each flag. *)
Definition refit_args (f : freq_flag) (rank_count : nat) : nat * bool :=
  match f with
  | Flag1 => (8, false)
  | Flag2 => (rank_count, true)
  end.

(** Line 271: [i_episode % learn_frequency == 0 and rank_num <= max_rank_num]. *)
Definition should_rank (i learn_frequency rank_num max_rank : nat) : result bool :=
  match py_mod i learn_frequency with
  | Ok m => Ok ((m =? 0) && (rank_num <=? max_rank))
  | Err e => Err e
  end.

(** ** The abstract machine of the spec (section 4.2) *)

(** One completed episode with return [r]. *)
Inductive phase_step (cfg : config) : sched -> Q -> sched -> Prop :=
| explore_low : forall n r,
    Qgtb r (change_flag_reward cfg) = false -> n <= 8 ->
    phase_step cfg (mkSched Flag1 n) r (mkSched Flag1 n)
| explore_count : forall n r,
    Qgtb r (change_flag_reward cfg) = true -> S n <= 8 ->
    phase_step cfg (mkSched Flag1 n) r (mkSched Flag1 (S n))
| explore_flip : forall n r,
    Qgtb r (change_flag_reward cfg) = true -> n = 8 ->
    phase_step cfg (mkSched Flag1 n) r (mkSched Flag2 (S n))
| converged_stay : forall n r,
    phase_step cfg (mkSched Flag2 n) r (mkSched Flag2 n).

(** The configuration the spec assigns to each phase. *)
Definition phase_config (cfg : config) (f : freq_flag) : nat * nat :=
  match f with
  | Flag1 => (learn_reward_frequency_1 cfg, num_to_rank_1 cfg)
  | Flag2 => (learn_reward_frequency cfg, num_to_rank cfg)
  end.

(** The machine run over a sequence of episode returns. *)
Definition sched_run (cfg : config) (rs : list Q) : sched :=
  fold_left (fun s r => fst (freq_update cfg s r)) rs sched_init.

(** The number of returns that beat [change_flag_reward]. *)
Definition count_high (cfg : config) (rs : list Q) : nat :=
  List.length (filter (fun r => Qgtb r (change_flag_reward cfg)) rs).

(** The invariant of the machine: exploring with at most eight
    qualifying episodes, or converged with exactly nine. *)
Definition sched_inv (s : sched) : Prop :=
  (frequency_flag s = Flag1 /\ reach_count s <= 8) \/
  (frequency_flag s = Flag2 /\ reach_count s = 9).

(** ** Lines 271-284 in the monad *)

Section Block.
Context {St Act E G RN Mem : Type}.
Context `{Environment E St Act} `{Agent G St Act Mem} `{RewardModel RN St Act}
        `{ReplayMemory Mem St Act}.
Local Abbreviation World := (World E G RN Mem).
Variable cfg : config.

(** Lines 272-284: rank, count the round, read the pool size, refit
    with the flag's budget, log. *)
Definition rank_and_refit (f : freq_flag) (k : nat) : M World unit :=
  k_tau <- rank k ;;
  modify (fun w => with_rank_count (S (w_rank_count w)) w) ;;;
  n <- ranked_len ;;
  modify (with_rank_num n) ;;;
  rc <- gets w_rank_count ;;
  let (budget, early) := refit_args f rc in
  acc <- learn_reward budget early true ;;
  if wandb_log cfg then
    rc' <- gets w_rank_count ;;
    rn <- gets w_rank_num ;;
    log (LogRank acc k_tau rc' rn)
  else ret tt.

(** Lines 258-284: update the state machine, then rank and refit when
    line 271's test holds. *)
Definition scheduler_block (s : sched) (episode_reward : Q) : M World sched :=
  let (s', lk) := freq_update cfg s episode_reward in
  let (learn_frequency, k) := lk in
  i <- gets w_i_episode ;;
  rn <- gets w_rank_num ;;
  b <- lift (should_rank i learn_frequency rn (max_rank_num cfg)) ;;
  (if b then rank_and_refit (frequency_flag s') k else ret tt) ;;;
  ret s'.
End Block.

(** ** The state machine *)

Ltac solve_sched_inv :=
  unfold sched_inv; simpl;
  first [left; split; [reflexivity|lia] | right; split; [reflexivity|lia]].

Definition high (cfg : config) (r : Q) : nat :=
  if Qgtb r (change_flag_reward cfg) then 1 else 0.

Lemma count_high_cons cfg r rs : count_high cfg (r :: rs) = high cfg r + count_high cfg rs.
Proof. unfold count_high, high. simpl. now destruct (Qgtb r _). Qed.

(** One update from an invariant state: the count grows by the episode's
    [high], saturating at nine, and the invariant holds again. *)
Lemma freq_update_inv cfg s r :
  sched_inv s ->
  sched_inv (fst (freq_update cfg s r)) /\
  reach_count (fst (freq_update cfg s r)) = Nat.min 9 (reach_count s + high cfg r).
Proof.
  unfold high, freq_update.
  destruct s as [[|] n]; intros [[Hf Hn]|[Hf Hn]]; cbn [frequency_flag reach_count fst] in *;
    try discriminate.
  - destruct (Qgtb r _); [destruct (Nat.ltb_spec 8 (S n))|destruct (Nat.ltb_spec 8 n)];
      (split; [solve_sched_inv|lia]).
  - destruct (Qgtb r _); (split; [solve_sched_inv|lia]).
Qed.

(** C5: the code's update implements the spec's two-phase machine, and
    the ranking period and batch it returns are the configuration of the
    phase it ends in. *)
Theorem freq_update_refines cfg s r :
  sched_inv s ->
  phase_step cfg s r (fst (freq_update cfg s r)) /\
  snd (freq_update cfg s r) = phase_config cfg (frequency_flag (fst (freq_update cfg s r))).
Proof.
  unfold freq_update.
  destruct s as [[|] n]; intros [[Hf Hn]|[Hf Hn]]; cbn [frequency_flag reach_count fst snd] in *;
    try discriminate; split.
  - destruct (Qgtb r _) eqn:Eh.
    + destruct (Nat.ltb_spec 8 (S n)); [apply explore_flip|apply explore_count]; auto; lia.
    + destruct (Nat.ltb_spec 8 n); [lia|]. apply explore_low; auto; lia.
  - destruct (Qgtb r _); [destruct (8 <? S n)|destruct (8 <? n)]; reflexivity.
  - apply converged_stay.
  - reflexivity.
Qed.



(** A sequence of updates from an invariant state: the count grows by
    the number of qualifying returns, saturating at nine. *)
Lemma sched_fold_count cfg rs s :
  sched_inv s ->
  sched_inv (fold_left (fun s r => fst (freq_update cfg s r)) rs s) /\
  reach_count (fold_left (fun s r => fst (freq_update cfg s r)) rs s) =
  Nat.min 9 (reach_count s + count_high cfg rs).
Proof.
  revert s; induction rs as [|r rs IH]; intros s Hs; cbn [fold_left].
  - split; [exact Hs|]. unfold count_high; cbn [filter List.length].
    destruct Hs as [[_ ?]|[_ ?]]; lia.
  - destruct (freq_update_inv cfg s r Hs) as [Hi Hr].
    destruct (IH _ Hi) as [Hi' Hr']. split; [exact Hi'|].
    rewrite Hr', Hr, count_high_cons. lia.
Qed.

(** In an invariant state the machine has converged exactly at count nine. *)
Lemma sched_inv_flag s : sched_inv s -> (frequency_flag s = Flag2 <-> reach_count s = 9).
Proof. intros [[-> Hle]|[-> Heq]]; split; intros H; try discriminate; try reflexivity; lia. Qed.

(** The run from the initial state: count and phase from the returns. *)
Lemma sched_run_spec cfg rs :
  reach_count (sched_run cfg rs) = Nat.min 9 (count_high cfg rs) /\
  (frequency_flag (sched_run cfg rs) = Flag2 <-> 9 <= count_high cfg rs).
Proof.
  destruct (sched_fold_count cfg rs sched_init) as [Hi Hr]; [solve_sched_inv|].
  unfold sched_run. cbn [reach_count sched_init] in Hr. rewrite (sched_inv_flag _ Hi), Hr.
  split; [reflexivity|lia].
Qed.

(** C6: after any sequence of episode returns, the count is the number of
    returns above [change_flag_reward] capped at nine, and the machine is
    converged exactly when nine such returns occurred: it flips on the
    ninth. *)
Theorem sched_run_count cfg rs :
  reach_count (sched_run cfg rs) = Nat.min 9 (count_high cfg rs) /\
  (frequency_flag (sched_run cfg rs) = Flag2 <-> 9 <= count_high cfg rs).
Proof. apply sched_run_spec. Qed.

(** ** Witnesses *)

Lemma freq_update_refines_witness :
  sched_inv (mkSched Flag1 8) /\
  phase_step toy_cfg (mkSched Flag1 8) (5 # 1) (fst (freq_update toy_cfg (mkSched Flag1 8) (5 # 1))) /\
  snd (freq_update toy_cfg (mkSched Flag1 8) (5 # 1)) =
    phase_config toy_cfg (frequency_flag (fst (freq_update toy_cfg (mkSched Flag1 8) (5 # 1)))).
Proof.
  assert (H : sched_inv (mkSched Flag1 8)) by solve_sched_inv.
  split; [exact H|]. apply freq_update_refines. exact H.
Defined.



(** ** The block in the monad *)

Section BlockFacts.
Context {St Act E G RN Mem : Type}.
Context `{Environment E St Act} `{Agent G St Act Mem} `{RewardModel RN St Act}
        `{ReplayMemory Mem St Act}.
Local Abbreviation World := (World E G RN Mem).
Variable cfg : config.

(** The calls of lines 272-284, in order: one ranking with batch [k],
    the round counted, the pool size stored, the fits [learn_reward]
    makes with the flag's budget, the relabel, and the log. *)
Lemma rank_and_refit_run f k (w : World) :
  wp (rank_and_refit cfg f k)
     (fun _ w' =>
        let r1 := fst (rank_op (w_rnet w) k) in
        let rc := S (w_rank_count w) in
        let accs := refit_accs rc (fst (refit_args f rc)) (snd (refit_args f rc)) r1 in
        w_rank_count w' = rc /\ w_rank_num w' = ranked_trajs_len r1 /\
        w_i_episode w' = w_i_episode w /\
        w_trace w' = w_trace w ++ EvRank k :: repeat EvLearnSoft (List.length accs)
                       ++ EvRelabel
                       :: (if wandb_log cfg
                           then [EvLog (LogRank (np_mean accs) (snd (rank_op (w_rnet w) k)) rc
                                                (ranked_trajs_len r1))]
                           else []) /\
        w_total_numsteps w' = w_total_numsteps w /\ w_updates w' = w_updates w) w.
Proof.
  unfold rank_and_refit. wp_steps.
  cbn [w_rank_count w_rnet w_trace w_i_episode with_rank_num with_rank_count record with_trace with_rnet].
  destruct (refit_args f (S (w_rank_count w))) as [budget early]; cbn [fst snd].
  apply wp_bind. eapply wp_mono; [apply learn_reward_run|].
  intros acc w1 (Hacc & _ & Ht & _ & _ & Hc). cbn in Ht, Hc. injection Hc as Hi Hn Hu Hrc Hrn.
  destruct (wandb_log cfg); wp_steps; cbn; rewrite ?Hi, ?Hrc, ?Hrn, ?Hn, ?Hu, ?Hacc; repeat split;
    rewrite ?Ht, <- ?app_assoc; reflexivity.
Qed.



(** How the block runs once line 271's test is decided. *)
Lemma scheduler_block_wp s r (Q : sched -> World -> Prop) w :
  let '(s', (lf, k)) := freq_update cfg s r in
  lf <> 0 ->
  (if (w_i_episode w mod lf =? 0) && (w_rank_num w <=? max_rank_num cfg)
   then wp (rank_and_refit cfg (frequency_flag s') k) (fun _ w' => Q s' w') w
   else Q s' w) ->
  wp (scheduler_block cfg s r) Q w.
Proof.
  unfold scheduler_block. destruct (freq_update cfg s r) as [s' [lf k]].
  intros Hlf Hb. wp_steps. unfold should_rank. rewrite py_mod_pos by exact Hlf.
  apply wp_lift. apply wp_bind. destruct (_ && _); [|exact Hb].
  eapply wp_mono; [exact Hb|]. intros. now apply wp_ret.
Qed.

(** C7: once the ranked pool has outgrown [max_rank_num], the block
    calls no collaborator at all: the world is unchanged, in particular
    no [rank] call is made; only the state machine moves. *)
Theorem scheduler_block_ceiling s r (w : World) :
  max_rank_num cfg < w_rank_num w ->
  fst (snd (freq_update cfg s r)) <> 0 ->
  wp (scheduler_block cfg s r) (fun s' w' => s' = fst (freq_update cfg s r) /\ w' = w) w.
Proof.
  intros Hmax. pose proof (scheduler_block_wp s r (fun s' w' => s' = fst (freq_update cfg s r) /\ w' = w) w) as Hb.
  destruct (freq_update cfg s r) as [s' [lf k]]. cbn. intros Hlf. apply Hb; [exact Hlf|].
  destruct (Nat.leb_spec (w_rank_num w) (max_rank_num cfg)); [lia|].
  rewrite Bool.andb_false_r. now split.
Qed.

(** C8: when the episode index is a multiple of the phase's period and
    the pool is within [max_rank_num], the block makes exactly one
    [rank] call with the phase's batch, counts it, stores the new pool
    size, then makes the fit calls [learn_reward] makes with the phase's
    budget ([refit_args]), relabels the memory, and logs. *)
Theorem scheduler_block_rank s r (w : World) s' lf k :
  freq_update cfg s r = (s', (lf, k)) ->
  lf <> 0 -> w_i_episode w mod lf = 0 -> w_rank_num w <= max_rank_num cfg ->
  wp (scheduler_block cfg s r)
     (fun s'' w' =>
        let r1 := fst (rank_op (w_rnet w) k) in
        let rc := S (w_rank_count w) in
        let fl := frequency_flag s' in
        s'' = s' /\ w_rank_count w' = rc /\ w_rank_num w' = ranked_trajs_len r1 /\
        w_trace w' = w_trace w ++ EvRank k
           :: repeat EvLearnSoft (List.length (refit_accs rc (fst (refit_args fl rc))
                                                          (snd (refit_args fl rc)) r1))
           ++ EvRelabel
           :: (if wandb_log cfg
               then [EvLog (LogRank (np_mean (refit_accs rc (fst (refit_args fl rc))
                                                        (snd (refit_args fl rc)) r1))
                                    (snd (rank_op (w_rnet w) k)) rc (ranked_trajs_len r1))]
               else [])) w.
Proof.
  intros Hf Hlf Hmod Hle. pose proof (fun Q => scheduler_block_wp s r Q w) as Hb.
  rewrite Hf in Hb. apply Hb; [exact Hlf|]. rewrite Hmod, (proj2 (Nat.leb_le _ _) Hle). cbn.
  eapply wp_mono; [apply rank_and_refit_run|]. intros _ w' (Hc & Hn & _ & Ht & _). auto.
Qed.

(** C34: a ranking period of zero for the current phase makes line 271
    raise [ZeroDivisionError], whatever the rest of the state. *)
Theorem scheduler_block_zero_period s r (w : World) :
  fst (snd (freq_update cfg s r)) = 0 ->
  scheduler_block cfg s r w = Err ZeroDivisionError.
Proof.
  unfold scheduler_block. destruct (freq_update cfg s r) as [s' [lf k]]. cbn.
  intros ->. reflexivity.
Qed.
(** The block leaves the per-episode lists alone. *)
Lemma scheduler_block_lists s r : preserves (W := World) episode_lists (scheduler_block cfg s r).
Proof.
  unfold scheduler_block, rank_and_refit. destruct (freq_update cfg s r) as [s' [lf k]].
  preserves_auto; try apply learn_reward_lists; unfold ranked_len; preserves_auto.
Qed.

Lemma scheduler_block_logs s r : preserves (W := World) trace_episodes (scheduler_block cfg s r).
Proof.
  unfold scheduler_block, rank_and_refit. destruct (freq_update cfg s r) as [s' [lf k]].
  preserves_auto; try apply learn_reward_logs; unfold ranked_len; preserves_auto.
Qed.
End BlockFacts.

(** ** Witnesses of the block *)

Definition toy_world_rn5 : ToyWorld := with_rank_num 5 toy_world0.
Definition toy_world_i2 : ToyWorld := with_i_episode 2 toy_world0.

Lemma scheduler_block_ceiling_witness :
  max_rank_num toy_cfg < w_rank_num toy_world_rn5 /\
  fst (snd (freq_update toy_cfg sched_init 0)) <> 0 /\
  wp (scheduler_block toy_cfg sched_init 0)
     (fun s' w' => s' = fst (freq_update toy_cfg sched_init 0) /\ w' = toy_world_rn5) toy_world_rn5.
Proof.
  split; [vm_compute; lia|]. split; [vm_compute; discriminate|].
  apply scheduler_block_ceiling; vm_compute; [lia|discriminate].
Defined.

Lemma scheduler_block_rank_witness :
  freq_update toy_cfg sched_init 0 = (sched_init, (2, 1)) /\
  2 <> 0 /\ w_i_episode toy_world_i2 mod 2 = 0 /\ w_rank_num toy_world_i2 <= max_rank_num toy_cfg /\
  wp (scheduler_block toy_cfg sched_init 0)
     (fun s'' w' =>
        let r1 := fst (rank_op (w_rnet toy_world_i2) 1) in
        let rc := S (w_rank_count toy_world_i2) in
        let fl := frequency_flag sched_init in
        s'' = sched_init /\ w_rank_count w' = rc /\ w_rank_num w' = ranked_trajs_len r1 /\
        w_trace w' = w_trace toy_world_i2 ++ EvRank 1
           :: repeat EvLearnSoft (List.length (refit_accs rc (fst (refit_args fl rc))
                                                          (snd (refit_args fl rc)) r1))
           ++ EvRelabel
           :: (if wandb_log toy_cfg
               then [EvLog (LogRank (np_mean (refit_accs rc (fst (refit_args fl rc))
                                                        (snd (refit_args fl rc)) r1))
                                    (snd (rank_op (w_rnet toy_world_i2) 1)) rc (ranked_trajs_len r1))]
               else [])) toy_world_i2.
Proof.
  assert (Hf : freq_update toy_cfg sched_init 0 = (sched_init, (2, 1))) by reflexivity.
  split; [exact Hf|]. split; [discriminate|]. split; [reflexivity|]. split; [vm_compute; lia|].
  apply (scheduler_block_rank toy_cfg sched_init 0 toy_world_i2 sched_init 2 1 Hf);
    [discriminate|reflexivity|vm_compute; lia].
Defined.

Lemma scheduler_block_zero_period_witness :
  fst (snd (freq_update toy_cfg_zero_period sched_init 0)) = 0 /\
  scheduler_block toy_cfg_zero_period sched_init 0 toy_world0 = Err ZeroDivisionError.
Proof. split; [reflexivity|]. apply scheduler_block_zero_period. reflexivity. Defined.
