(* ===== verification/Episode.v ===== *)
(** * One training episode of [OPRRL.train] (lines 162-223)

    [episode_start] is lines 162-169 (the episode-local variables and
    [env.reset()]); [step_body] is one iteration of the [while not done]
    loop (lines 175-223) and [step_loop] the loop itself, on fuel;
    [run_episode] composes them with the fuel [S episode_len], which the
    termination theorem shows is enough.  Inside a step, [choose_action]
    is lines 175-181, [maybe_update] with [update_loop] and [one_update]
    is lines 183-196, [compute_mask] is line 215. *)

From Stdlib Require Import Arith QArith List Lia.
From S2P Require Import Prelude Interfaces ReplayMemory World Toy.
Import ListNotations.
Local Open Scope nat_scope.

(** The locals of one episode, plus [print_flag] (a local of [train]
    that the update burst sets, line 188-190). *)
Record ep_locals (St : Type) : Type := mkEp {
  ep_reward : Q;
  ep_reward_prime : Q;
  ep_steps : nat;
  ep_done : bool;
  ep_state : St;
  ep_flag : nat;
  ep_succ : bool;
  ep_print_flag : nat
}.
Arguments mkEp {St}.
Arguments ep_reward {St}.
Arguments ep_reward_prime {St}.
Arguments ep_steps {St}.
Arguments ep_done {St}.
Arguments ep_state {St}.
Arguments ep_flag {St}.
Arguments ep_succ {St}.
Arguments ep_print_flag {St}.

(** Line 187: the main rule after the pretrain phase, or always when
    there is no pretrain phase; the pretrain rule otherwise, including
    during the warm-up episodes. *)
Definition update_rule_for (cfg : config) (i : nat) : update_rule :=
  if (start_episodes cfg + pretrain_episodes cfg <? i) || (pretrain_episodes cfg =? 0)
  then MainRule else PretrainRule.

(** Line 215: [mask = 1 if episode_steps == self.episode_len else float(not done)]. *)
Definition compute_mask (episode_steps episode_len : nat) (done : bool) : nat :=
  if episode_steps =? episode_len then 1 else if done then 0 else 1.

(** Lines 203-206: on Meta-World the first [info['success']] of the
    episode sets [episode_succ] and [episode_flag]. *)
Definition success_update (k : env_kind) (flag : nat) (succ info_success : bool) : nat * bool :=
  match k with
  | Metaworld => if (flag =? 0) && info_success then (1, true) else (flag, succ)
  | _ => (flag, succ)
  end.

Section Episode.
Context {St Act E G RN Mem : Type}.
Context `{Environment E St Act} `{Agent G St Act Mem} `{RewardModel RN St Act}
        `{ReplayMemory Mem St Act}.
Local Abbreviation World := (World E G RN Mem).
Variable cfg : config.

(** Lines 175-181: a random action during the warm-up episodes, the
    agent's action afterwards ([evaluate] defaults to [False]). *)
Definition choose_action (i : nat) (s : St) : M World Act :=
  if i <=? start_episodes cfg then random_action (env_type cfg) else select_action s false.

(** Lines 187-196, one iteration of the [for] loop: pick the rule,
    [print_flag] on the first main update, call the agent with the
    current [self.updates], count it, log the losses. *)
Definition one_update (i : nat) (print_flag : nat) : M World nat :=
  let rule := update_rule_for cfg i in
  let print_flag' := match rule with
                     | MainRule => if print_flag =? 0 then S print_flag else print_flag
                     | PretrainRule => print_flag
                     end in
  idx <- gets w_updates ;;
  l <- agent_update rule (batch_size cfg) idx ;;
  modify (fun w => with_updates (S (w_updates w)) w) ;;;
  (if wandb_log cfg then log (LogLosses (critic_1_loss l) (critic_2_loss l) (policy_loss l))
   else ret tt) ;;;
  ret print_flag'.

(** Line 185: [for i in range(updates_per_step)]. *)
Fixpoint update_loop (i n print_flag : nat) : M World nat :=
  match n with
  | O => ret print_flag
  | S n' => pf <- one_update i print_flag ;; update_loop i n' pf
  end.

(** Line 183: updates only once the memory holds more than a batch. *)
Definition maybe_update (i print_flag : nat) : M World nat :=
  len <- memory_len ;;
  if batch_size cfg <? len then update_loop i (updates_per_step cfg) print_flag
  else ret print_flag.

(** Lines 175-223: one iteration of [while not done]. *)
Definition step_body (e : ep_locals St) : M World (ep_locals St) :=
  i <- gets w_i_episode ;;
  a <- choose_action i (ep_state e) ;;
  pf <- maybe_update i (ep_print_flag e) ;;
  o <- env_step a ;;
  rp <- get_reward (ep_state e) a ;;
  let (flag, succ) := success_update (env_type cfg) (ep_flag e) (ep_succ e) (so_success o) in
  let steps := S (ep_steps e) in
  modify (fun w => with_total_numsteps (S (w_total_numsteps w)) w) ;;;
  let mask := compute_mask steps (episode_len cfg) (so_done o) in
  m <- lift (py_mod steps (episode_len cfg)) ;;
  let done := if m =? 0 then true else so_done o in
  memory_push (mkTransition (ep_state e) a rp (so_next_state o) mask) ;;;
  push_data (ep_state e) a (so_reward o) done ;;;
  ret (mkEp (ep_reward e + so_reward o)%Q (ep_reward_prime e + rp)%Q steps done
            (so_next_state o) flag succ pf).

(** Line 174: [while not done], with fuel. *)
Fixpoint step_loop (fuel : nat) (e : ep_locals St) : M World (ep_locals St) :=
  match fuel with
  | O => throw OutOfFuel
  | S f => if ep_done e then ret e else (e' <- step_body e ;; step_loop f e')
  end.

(** Lines 162-169. *)
Definition episode_start (print_flag : nat) : M World (ep_locals St) :=
  s <- env_reset ;;
  ret (mkEp 0%Q 0%Q 0 false s 0 false print_flag).

(** Lines 162-223: an episode, with the fuel [S episode_len]. *)
Definition run_episode (print_flag : nat) : M World (ep_locals St) :=
  e0 <- episode_start print_flag ;;
  step_loop (S (episode_len cfg)) e0.
End Episode.

(** ** The events of an episode *)

(** The calls an episode may make. *)
Definition step_event (e : event) : bool :=
  match e with
  | EvReset | EvRandomAction | EvSelectAction _ | EvUpdate _ _ | EvEnvStep _ | EvGetReward
  | EvMemPush _ | EvPushData _ | EvLog (LogLosses _ _ _) => true
  | _ => false
  end.

(** The masks pushed to the replay memory, and the [done] flags pushed to
    the reward model, in order. *)
Fixpoint mask_events (l : list event) : list nat :=
  match l with
  | [] => []
  | EvMemPush m :: l' => m :: mask_events l'
  | _ :: l' => mask_events l'
  end.

Fixpoint done_events (l : list event) : list bool :=
  match l with
  | [] => []
  | EvPushData d :: l' => d :: done_events l'
  | _ :: l' => done_events l'
  end.

(** The [info['success']] flags [env.step] returned, in order. *)
Fixpoint success_events (l : list event) : list bool :=
  match l with
  | [] => []
  | EvEnvStep b :: l' => b :: success_events l'
  | _ :: l' => success_events l'
  end.

Definition is_metaworld (k : env_kind) : bool :=
  match k with Metaworld => true | _ => false end.

(** The calls of the iterations of the update loop from index [u] whose
    agent calls returned the losses [ls]. *)
Fixpoint burst_events (rule : update_rule) (wandb : bool) (u : nat) (ls : list losses) : list event :=
  match ls with
  | [] => []
  | l :: ls' =>
      EvUpdate rule u
        :: (if wandb then [EvLog (LogLosses (critic_1_loss l) (critic_2_loss l) (policy_loss l))]
            else [])
        ++ burst_events rule wandb (S u) ls'
  end.

Lemma mask_events_app l1 l2 : mask_events (l1 ++ l2) = mask_events l1 ++ mask_events l2.
Proof. induction l1 as [|[] l1 IH]; simpl; rewrite ?IH; reflexivity. Qed.

Lemma done_events_app l1 l2 : done_events (l1 ++ l2) = done_events l1 ++ done_events l2.
Proof. induction l1 as [|[] l1 IH]; simpl; rewrite ?IH; reflexivity. Qed.

Lemma success_events_app l1 l2 : success_events (l1 ++ l2) = success_events l1 ++ success_events l2.
Proof. induction l1 as [|[] l1 IH]; simpl; rewrite ?IH; reflexivity. Qed.

Lemma burst_events_quiet rule wb u ls :
  mask_events (burst_events rule wb u ls) = [] /\ done_events (burst_events rule wb u ls) = [] /\
  forallb step_event (burst_events rule wb u ls) = true /\
  success_events (burst_events rule wb u ls) = [].
Proof.
  revert u; induction ls as [|l ls IH]; intros u; [repeat split|].
  destruct (IH (S u)) as (H1 & H2 & H3 & H4). simpl.
  destruct wb; simpl; rewrite ?H1, ?H2, ?H3, ?H4; repeat split.
Qed.

(** Lines 203-206 keep [episode_flag] equal to [1] exactly when
    [episode_succ] holds, and on Meta-World [episode_succ] becomes true
    at the first step reporting success. *)
Lemma success_update_spec k (flag : nat) (succ info : bool) :
  flag = (if succ then 1 else 0) ->
  fst (success_update k flag succ info) = (if snd (success_update k flag succ info) then 1 else 0) /\
  snd (success_update k flag succ info) = succ || (is_metaworld k && info).
Proof. intros ->. destruct k, succ, info; simpl; auto. Qed.



(** [S s mod len = 0] and [S s = len] agree inside the loop (line 217
    tests the first, line 215 the second). *)
Lemma trunc_mod_eq len s : 0 < len -> s < len -> (S s mod len =? 0) = (S s =? len).
Proof.
  intros Hlen Hs. destruct (Nat.eqb_spec (S s) len) as [->|Hne].
  - now rewrite Nat.Div0.mod_same.
  - rewrite Nat.mod_small by lia. reflexivity.
Qed.

(** Line 215 inside the loop: the mask is 1 unless the step ends the
    episode before the length budget. *)
Lemma compute_mask_spec s len d :
  0 < len -> s < len ->
  compute_mask (S s) len d =
  if (S s mod len =? 0) || d then (if S s =? len then 1 else 0) else 1.
Proof.
  intros Hlen Hs. unfold compute_mask. rewrite trunc_mod_eq by lia.
  destruct (S s =? len); simpl; [reflexivity|]. now destruct d.
Qed.

Lemma body_events_quiet a rule wb u ls sc m d :
  a = EvRandomAction \/ a = EvSelectAction false ->
  let evs := a :: burst_events rule wb u ls ++ [EvEnvStep sc; EvGetReward; EvMemPush m; EvPushData d] in
  mask_events evs = [m] /\ done_events evs = [d] /\ forallb step_event evs = true /\
  success_events evs = [sc].
Proof.
  intros Ha evs. destruct (burst_events_quiet rule wb u ls) as (H1 & H2 & H3 & H4).
  unfold evs. cbn [forallb]. rewrite forallb_app, H3.
  destruct Ha as [-> | ->]; simpl;
    rewrite ?mask_events_app, ?done_events_app, ?success_events_app, ?H1, ?H2, ?H4;
    repeat split.
Qed.

Section EpisodeRuns.
Context {St Act E G RN Mem : Type}.
Context `{Environment E St Act} `{Agent G St Act Mem} `{RewardModel RN St Act}
        `{ReplayMemory Mem St Act}.
Local Abbreviation World := (World E G RN Mem).
Variable cfg : config.

(** What the update burst does: [n] agent calls with the indices
    [self.updates], [self.updates + 1], ..., the counter advanced by
    [n], and the memory, the reward model and the environment untouched. *)
Definition burst_post (rule : update_rule) (n : nat) (w w' : World) : Prop :=
  (exists ls, List.length ls = n /\
     w_trace w' = w_trace w ++ burst_events rule (wandb_log cfg) (w_updates w) ls) /\
  w_updates w' = w_updates w + n /\ w_mem w' = w_mem w /\ w_rnet w' = w_rnet w /\
  w_env w' = w_env w /\ w_i_episode w' = w_i_episode w /\
  w_total_numsteps w' = w_total_numsteps w /\
  w_rank_count w' = w_rank_count w /\ w_rank_num w' = w_rank_num w.

Lemma update_loop_run i n pf (w : World) :
  wp (update_loop cfg i n pf) (fun _ w' => burst_post (update_rule_for cfg i) n w w') w.
Proof.
  revert pf w; induction n as [|n IH]; intros pf w; simpl.
  - unfold burst_post. rewrite Nat.add_0_r.
    split; [exists []; split; [reflexivity|now rewrite app_nil_r]|]. now repeat split.
  - unfold one_update. wp_steps.
    destruct (wandb_log cfg) eqn:Ew; wp_steps; eapply wp_mono; try apply IH;
      intros pf' w' ((ls & Hl & Ht) & Hu & Hm & Hr & He & Hi & Hn & Hc & Hrn); unfold burst_post;
      cbn [burst_events] in *; try rewrite Ew in *; cbn in *;
      (split; [eexists (_ :: ls); split; [cbn; rewrite Hl; reflexivity|]
                                  ; rewrite Ht, <- !app_assoc; cbn; rewrite ?Ew; reflexivity|]);
      (repeat split; [lia|..]); congruence.
  (* Without logging the losses of the update are not recorded. *)
  Unshelve. all: exact (mkLosses 0 0 0 0 0).
Qed.

Lemma maybe_update_run i pf (w : World) :
  wp (maybe_update cfg i pf)
     (fun _ w' => burst_post (update_rule_for cfg i)
                    (if batch_size cfg <? mem_len (w_mem w) then updates_per_step cfg else 0) w w') w.
Proof.
  unfold maybe_update. wp_steps. destruct (batch_size cfg <? mem_len (w_mem w)).
  - apply update_loop_run.
  - apply wp_ret. unfold burst_post. rewrite Nat.add_0_r.
    split; [exists []; split; [reflexivity|now rewrite app_nil_r]|]. now repeat split.
Qed.

(** The event of the action choice of lines 175-181. *)
Definition action_event (i : nat) : event :=
  if i <=? start_episodes cfg then EvRandomAction else EvSelectAction false.

(** The number of agent updates of a step: [updates_per_step] once the
    memory holds more than a batch, none before. *)
Definition burst_size (w : World) : nat :=
  if batch_size cfg <? mem_len (w_mem w) then updates_per_step cfg else 0.

(** The clocks of [n] steps: [self.total_numsteps] advanced by [n],
    [self.updates] by at most [updates_per_step] per step. *)
Definition clock (n : nat) (w w' : World) : Prop :=
  w_total_numsteps w' = w_total_numsteps w + n /\
  w_updates w <= w_updates w' <= w_updates w + n * updates_per_step cfg.

Lemma burst_size_le (w : World) : burst_size w <= updates_per_step cfg.
Proof. unfold burst_size. destruct (_ <? _); lia. Qed.

Lemma clock_trans a b (w1 w2 w3 : World) : clock a w1 w2 -> clock b w2 w3 -> clock (a + b) w1 w3.
Proof. unfold clock. intros [N1 U1] [N2 U2]. split; [lia|]. nia. Qed.

(** One iteration of the step loop, in order: the action choice, the
    update burst, the environment step, the scoring of the transition,
    the push to the replay memory with the mask of line 215, the push to
    the reward model with the [done] of lines 215-218. *)
Lemma step_body_run (e : ep_locals St) (w : World) :
  0 < episode_len cfg ->
  wp (step_body cfg e)
     (fun e' w' => exists (o : step_out St) ls, List.length ls = burst_size w /\
        w_trace w' = w_trace w ++ action_event (w_i_episode w)
          :: burst_events (update_rule_for cfg (w_i_episode w)) (wandb_log cfg) (w_updates w) ls
          ++ [EvEnvStep (so_success o); EvGetReward;
              EvMemPush (compute_mask (S (ep_steps e)) (episode_len cfg) (so_done o));
              EvPushData (ep_done e')] /\
        ep_steps e' = S (ep_steps e) /\
        ep_done e' = (S (ep_steps e) mod episode_len cfg =? 0) || so_done o /\
        ep_state e' = so_next_state o /\
        ep_reward e' = (ep_reward e + so_reward o)%Q /\
        w_updates w' = w_updates w + burst_size w /\
        w_total_numsteps w' = S (w_total_numsteps w) /\
        w_i_episode w' = w_i_episode w /\ w_rank_count w' = w_rank_count w /\
        w_rank_num w' = w_rank_num w /\
        (ep_flag e', ep_succ e') = success_update (env_type cfg) (ep_flag e) (ep_succ e) (so_success o)) w.
Proof.
  intros Hlen. unfold step_body, choose_action, action_event, burst_size. wp_steps.
  destruct (w_i_episode w <=? start_episodes cfg); wp_steps;
    (eapply wp_mono; [apply maybe_update_run|]);
    intros pf w1 ((ls & Hl & Ht) & Hu & Hm & Hr & He & Hi & Hn & Hc & Hrn);
    cbn in Ht, Hu, Hm, Hr, He, Hi, Hn, Hc, Hrn;
    wp_steps;
    (destruct (success_update _ _ _ _) as [fl sc] eqn:Esu);
    wp_steps; rewrite py_mod_pos by lia; wp_steps;
    (eexists; exists ls; split; [exact Hl|]; split; [cbn; rewrite Ht; rewrite <- !app_assoc; reflexivity|]);
    cbn; repeat split; try congruence; try lia.
Qed.

Lemma action_event_cases i :
  action_event i = EvRandomAction \/ action_event i = EvSelectAction false.
Proof. unfold action_event. destruct (i <=? start_episodes cfg); auto. Qed.

(** One step of the episode, in the terms of the step loop: the step
    counter advances, the step's events are quiet, push one mask and one
    [done] flag, and the success flag follows [info['success']]. *)
Lemma step_body_step (e : ep_locals St) (w : World) :
  0 < episode_len cfg -> ep_steps e < episode_len cfg ->
  wp (step_body cfg e)
     (fun e1 w1 =>
        ep_steps e1 = S (ep_steps e) /\ ext step_event w w1 /\ clock 1 w w1 /\
        (ep_done e1 = false -> S (ep_steps e) < episode_len cfg) /\
        exists evs, w_trace w1 = w_trace w ++ evs /\
          mask_events evs = [if ep_done e1 then (if S (ep_steps e) =? episode_len cfg then 1 else 0)
                             else 1] /\
          done_events evs = [ep_done e1] /\
          (ep_flag e = (if ep_succ e then 1 else 0) ->
           ep_flag e1 = (if ep_succ e1 then 1 else 0) /\
           ep_succ e1 = ep_succ e || (is_metaworld (env_type cfg) &&
                                      existsb (fun b => b) (success_events evs)))) w.
Proof.
  intros Hlen Hs. eapply wp_mono; [apply step_body_run; exact Hlen|].
  intros e1 w1 (o & ls & _ & Ht & Hs1 & Hd1 & _ & _ & Hu1 & Hn1 & Hi & Hc & Hrn & Hsu).
  destruct (body_events_quiet (action_event (w_i_episode w)) (update_rule_for cfg (w_i_episode w))
              (wandb_log cfg) (w_updates w) ls
              (so_success o) (compute_mask (S (ep_steps e)) (episode_len cfg) (so_done o)) (ep_done e1)
              (action_event_cases _)) as (Hm & Hdn & Hst & Hse).
  split; [exact Hs1|]. split; [split; [eexists; split; [exact Ht|exact Hst]|auto]|].
  split; [pose proof (burst_size_le w); unfold clock; lia|].
  split.
  { intros E1. rewrite E1 in Hd1. destruct (Nat.eqb_spec (S (ep_steps e)) (episode_len cfg)) as [Heq|];
      [|lia]. rewrite Heq, Nat.Div0.mod_same in Hd1. discriminate. }
  eexists; split; [exact Ht|]. rewrite Hm, Hdn, Hse, compute_mask_spec, <- Hd1 by lia.
  split; [reflexivity|]. split; [reflexivity|].
  intros Hf0. pose proof (success_update_spec (env_type cfg) _ _ (so_success o) Hf0) as Hsp.
  rewrite <- Hsu in Hsp. cbn [fst snd] in Hsp. destruct Hsp as [Hf1 Hs1']. split; [exact Hf1|].
  rewrite Hs1'. cbn [existsb]. now rewrite Bool.orb_false_r.
Qed.

(** The step loop, entered on an unfinished episode with fuel above the
    steps left, finishes the episode within the length budget; the
    masks it pushes are all 1 but the last, which is 0 exactly when the
    episode ended before the budget, and the [done] flags it pushes to
    the reward model are all false but the last. *)
Lemma step_loop_run fuel (e : ep_locals St) (w : World) :
  0 < episode_len cfg -> ep_steps e < episode_len cfg -> ep_done e = false ->
  episode_len cfg - ep_steps e < fuel ->
  wp (step_loop cfg fuel e)
     (fun e' w' =>
        ep_done e' = true /\ ep_steps e < ep_steps e' <= episode_len cfg /\ ext step_event w w' /\
        clock (ep_steps e' - ep_steps e) w w' /\
        exists evs, w_trace w' = w_trace w ++ evs /\
          mask_events evs = repeat 1 (ep_steps e' - ep_steps e - 1)
                            ++ [if ep_steps e' =? episode_len cfg then 1 else 0] /\
          done_events evs = repeat false (ep_steps e' - ep_steps e - 1) ++ [true] /\
          (ep_flag e = (if ep_succ e then 1 else 0) ->
           ep_flag e' = (if ep_succ e' then 1 else 0) /\
           ep_succ e' = ep_succ e || (is_metaworld (env_type cfg) &&
                                      existsb (fun b => b) (success_events evs)))) w.
Proof.
  revert e w; induction fuel as [|f IH]; intros e w Hlen Hs Hd Hf; [lia|].
  cbn [step_loop]. rewrite Hd. apply wp_bind.
  eapply wp_mono; [apply step_body_step; assumption|].
  intros e1 w1 (Hs1 & Hext & Hk & Hlt & evs1 & Ht & Hm & Hdn & Hsc).
  destruct (ep_done e1) eqn:E1.
  - destruct f as [|f]; [lia|]. cbn [step_loop]. rewrite E1. apply wp_ret.
    rewrite Hs1. split; [exact E1|]. split; [lia|]. split; [exact Hext|].
    split; [now replace (S (ep_steps e) - ep_steps e) with 1 by lia|].
    exists evs1; split; [exact Ht|]. rewrite Hm, Hdn.
    replace (S (ep_steps e) - ep_steps e - 1) with 0 by lia. split; [reflexivity|].
    split; [reflexivity|exact Hsc].
  - eapply wp_mono; [apply IH; [exact Hlen|rewrite Hs1; apply Hlt; reflexivity|exact E1|lia]|].
    intros e2 w2 (Hd2 & Hs2 & Hext2 & Hk2 & evs & Ht2 & Hm2 & Hdn2 & Hsc2).
    split; [exact Hd2|]. split; [lia|]. split; [eapply ext_trans; eauto|].
    split; [replace (ep_steps e2 - ep_steps e) with (1 + (ep_steps e2 - ep_steps e1)) by lia;
            exact (clock_trans _ _ _ _ _ Hk Hk2)|].
    exists (evs1 ++ evs). split; [rewrite Ht2, Ht, <- app_assoc; reflexivity|].
    rewrite mask_events_app, done_events_app, Hm, Hdn, Hm2, Hdn2, Hs1.
    replace (ep_steps e2 - ep_steps e - 1) with (S (ep_steps e2 - S (ep_steps e) - 1)) by lia.
    split; [reflexivity|]. split; [reflexivity|].
    intros Hf0. destruct (Hsc Hf0) as [Hf1 Hs1']. destruct (Hsc2 Hf1) as [Hf2 Hs2'].
    split; [exact Hf2|]. rewrite Hs2', Hs1', success_events_app, existsb_app.
    now destruct (ep_succ e), (is_metaworld _), (existsb _ (success_events evs1)).
Qed.

(** A whole episode: [env.reset()], then the loop with fuel
    [S episode_len]. *)
Lemma run_episode_run pf (w : World) :
  0 < episode_len cfg ->
  wp (run_episode cfg pf)
     (fun e w' =>
        ep_done e = true /\ 1 <= ep_steps e <= episode_len cfg /\ ext step_event w w' /\
        clock (ep_steps e) w w' /\
        exists evs, w_trace w' = w_trace w ++ EvReset :: evs /\
          mask_events evs = repeat 1 (ep_steps e - 1)
                            ++ [if ep_steps e =? episode_len cfg then 1 else 0] /\
          done_events evs = repeat false (ep_steps e - 1) ++ [true] /\
          ep_flag e = (if ep_succ e then 1 else 0) /\
          ep_succ e = is_metaworld (env_type cfg) && existsb (fun b => b) (success_events evs)) w.
Proof.
  intros Hlen. unfold run_episode, episode_start. wp_steps.
  eapply wp_mono; [apply step_loop_run; cbn; lia|].
  intros e w' (Hd & Hs & Hext & Hk & evs & Ht & Hm & Hdn & Hsc). cbn in Hs, Ht, Hm, Hdn, Hsc.
  destruct (Hsc eq_refl) as [Hfl Hsu].
  rewrite Nat.sub_0_r in Hm, Hdn, Hk.
  split; [exact Hd|]. split; [lia|]. split; [|split; [exact Hk|]].
  - eapply ext_trans; [|exact Hext]. split; [|auto].
    exists [EvReset]. split; reflexivity.
  - exists evs. rewrite Ht. cbn. rewrite <- app_assoc. auto 6.
Qed.

(** C18: with a positive [episode_len], an episode always ends, after at
    least one and at most [episode_len] steps, for every behaviour of the
    environment, the agent and the reward model. *)
Theorem run_episode_terminates pf (w : World) :
  0 < episode_len cfg ->
  wp (run_episode cfg pf)
     (fun e _ => ep_done e = true /\ 1 <= ep_steps e <= episode_len cfg) w.
Proof.
  intros Hlen. eapply wp_mono; [apply run_episode_run; exact Hlen|].
  intros e w' (Hd & Hs & _). now split.
Qed.

(** C17: in every episode the masks pushed to the replay memory are 1 at
    every step but the last, and the last is 0 exactly when the episode
    ended before [episode_len] steps, that is when the environment
    reported termination; an episode cut at [episode_len] steps pushes
    mask 1.  The reward model receives [done = False] at every step but
    the last and [True] at the last, truncation included. *)
Theorem run_episode_masks pf (w : World) :
  0 < episode_len cfg ->
  wp (run_episode cfg pf)
     (fun e w' => exists evs, w_trace w' = w_trace w ++ EvReset :: evs /\
        mask_events evs = repeat 1 (ep_steps e - 1)
                          ++ [if ep_steps e <? episode_len cfg then 0 else 1] /\
        done_events evs = repeat false (ep_steps e - 1) ++ [true]) w.
Proof.
  intros Hlen. eapply wp_mono; [apply run_episode_run; exact Hlen|].
  intros e w' (_ & Hs & _ & _ & evs & Ht & Hm & Hdn & _). exists evs. split; [exact Ht|].
  split; [|exact Hdn]. rewrite Hm. f_equal. f_equal.
  destruct (Nat.eqb_spec (ep_steps e) (episode_len cfg)), (Nat.ltb_spec (ep_steps e) (episode_len cfg));
    reflexivity || lia.
Qed.

(** C19: on Meta-World the episode's [episode_succ] is true exactly when
    some [env.step] of the episode returned [info['success']]: lines
    203-206 look at it until the first success, which also sets
    [episode_flag] to 1; on RLBench and MuJoCo it stays False, and
    [episode_flag] is 1 exactly when [episode_succ] holds. *)
Theorem run_episode_success pf (w : World) :
  0 < episode_len cfg ->
  wp (run_episode cfg pf)
     (fun e w' => exists evs, w_trace w' = w_trace w ++ EvReset :: evs /\
        ep_flag e = (if ep_succ e then 1 else 0) /\
        ep_succ e = is_metaworld (env_type cfg) && existsb (fun b => b) (success_events evs)) w.
Proof.
  intros Hlen. eapply wp_mono; [apply run_episode_run; exact Hlen|].
  intros e w' (_ & _ & _ & _ & evs & Ht & _ & _ & Hfl & Hsu). exists evs. auto.
Qed.

(** C33: with [episode_len = 0] the first step of every episode raises
    [ZeroDivisionError] at line 217, whatever the collaborators do. *)
Theorem run_episode_zero_len pf (w : World) :
  episode_len cfg = 0 -> run_episode cfg pf w = Err ZeroDivisionError.
Proof.
  intros Hz. unfold run_episode, episode_start. apply bind_err. wp_steps.
  rewrite Hz. cbn [step_loop ep_done]. apply bind_err_l.
  unfold step_body, choose_action. apply bind_err. wp_steps. apply bind_err.
  destruct (w_i_episode _ <=? start_episodes cfg); wp_steps; apply bind_err;
    (eapply wp_mono; [apply maybe_update_run|]); intros pf' w1 _;
    apply bind_err; wp_steps; apply bind_err; wp_steps;
    destruct (success_update _ _ _ _); apply bind_err; wp_steps;
    apply bind_err_l; unfold lift, py_mod; rewrite Hz; reflexivity.
Qed.

(** C21: within every step the calls come in the order of lines 175-221:
    the action is chosen first, then all agent updates of the step are
    made, each passed the next value of [self.updates], and only then is
    the environment stepped, the transition scored and the two pushes made;
    so the updates of a step never train on the transition it produces. *)
Theorem step_updates_before_env_step (e : ep_locals St) (w : World) :
  0 < episode_len cfg ->
  wp (step_body cfg e)
     (fun _ w' => exists ls sc m d, List.length ls = burst_size w /\
        w_trace w' = w_trace w ++ action_event (w_i_episode w)
          :: burst_events (update_rule_for cfg (w_i_episode w)) (wandb_log cfg) (w_updates w) ls
          ++ [EvEnvStep sc; EvGetReward; EvMemPush m; EvPushData d] /\
        w_updates w' = w_updates w + burst_size w) w.
Proof.
  intros Hlen. eapply wp_mono; [apply step_body_run, Hlen|].
  intros e' w' (o & ls & Hl & Ht & _ & _ & _ & _ & Hu & _). eauto 8.
Qed.

(** C26: when there is a pretrain phase, every step of a warm-up episode
    ([i_episode <= start_episodes]) takes a random action and then updates
    the agent with the pretrain rule, not the main rule: the test of line
    187 puts the warm-up episodes on the pretrain side. *)
Theorem warmup_updates_pretrain_rule (e : ep_locals St) (w : World) :
  0 < episode_len cfg -> 0 < pretrain_episodes cfg -> w_i_episode w <= start_episodes cfg ->
  wp (step_body cfg e)
     (fun _ w' => exists ls sc evs, List.length ls = burst_size w /\
        w_trace w' = w_trace w ++ EvRandomAction
          :: burst_events PretrainRule (wandb_log cfg) (w_updates w) ls
          ++ EvEnvStep sc :: evs) w.
Proof.
  intros Hlen Hpre Hi. eapply wp_mono; [apply step_body_run, Hlen|].
  intros e' w' (o & ls & Hl & Ht & _). exists ls. do 2 eexists. split; [exact Hl|]. rewrite Ht.
  unfold action_event, update_rule_for.
  rewrite (proj2 (Nat.leb_le _ _) Hi).
  destruct (Nat.ltb_spec (start_episodes cfg + pretrain_episodes cfg) (w_i_episode w)); [lia|].
  destruct (Nat.eqb_spec (pretrain_episodes cfg) 0); [lia|]. reflexivity.
Qed.
End EpisodeRuns.

(** ** An episode leaves the per-episode lists alone *)

Section EpisodeFrame.
Context {St Act E G RN Mem : Type}.
Context `{Environment E St Act} `{Agent G St Act Mem} `{RewardModel RN St Act}
        `{ReplayMemory Mem St Act}.
Variable cfg : config.

Lemma update_loop_lists i n pf : preserves episode_lists (update_loop (E := E) (RN := RN) cfg i n pf).
Proof. revert pf; induction n as [|n IH]; intros pf; simpl; [|unfold one_update]; preserves_auto. Qed.

Lemma step_loop_lists fuel (e : ep_locals St) :
  preserves episode_lists (step_loop (E := E) (G := G) (RN := RN) (Mem := Mem) cfg fuel e).
Proof.
  revert e; induction fuel as [|f IH]; intros e; simpl; [preserves_auto|].
  unfold step_body, choose_action, maybe_update. preserves_auto. apply update_loop_lists.
Qed.

Lemma run_episode_lists pf :
  preserves episode_lists (run_episode (St := St) (E := E) (G := G) (RN := RN) (Mem := Mem) cfg pf).
Proof. unfold run_episode, episode_start. preserves_auto. apply step_loop_lists. Qed.

(** An episode logs no episode record. *)
Lemma update_loop_logs i n pf : preserves trace_episodes (update_loop (E := E) (RN := RN) cfg i n pf).
Proof. revert pf; induction n as [|n IH]; intros pf; simpl; [|unfold one_update]; preserves_auto. Qed.

Lemma step_loop_logs fuel (e : ep_locals St) :
  preserves trace_episodes (step_loop (E := E) (G := G) (RN := RN) (Mem := Mem) cfg fuel e).
Proof.
  revert e; induction fuel as [|f IH]; intros e; simpl; [preserves_auto|].
  unfold step_body, choose_action, maybe_update. preserves_auto. apply update_loop_logs.
Qed.

Lemma run_episode_logs pf :
  preserves trace_episodes (run_episode (St := St) (E := E) (G := G) (RN := RN) (Mem := Mem) cfg pf).
Proof. unfold run_episode, episode_start. preserves_auto. apply step_loop_logs. Qed.
End EpisodeFrame.

(** ** Witnesses *)

Lemma run_episode_terminates_witness :
  0 < episode_len toy_cfg /\
  wp (run_episode toy_cfg 0)
     (fun e _ => ep_done e = true /\ 1 <= ep_steps e <= episode_len toy_cfg) toy_world0.
Proof. split; [vm_compute; lia|]. apply run_episode_terminates. vm_compute; lia. Defined.

Lemma run_episode_masks_witness :
  0 < episode_len toy_cfg /\
  wp (run_episode toy_cfg 0)
     (fun e w' => exists evs, w_trace w' = w_trace toy_world0 ++ EvReset :: evs /\
        mask_events evs = repeat 1 (ep_steps e - 1)
                          ++ [if ep_steps e <? episode_len toy_cfg then 0 else 1] /\
        done_events evs = repeat false (ep_steps e - 1) ++ [true]) toy_world0.
Proof. split; [vm_compute; lia|]. apply run_episode_masks. vm_compute; lia. Defined.

Lemma run_episode_zero_len_witness :
  episode_len toy_cfg_len0 = 0 /\ run_episode toy_cfg_len0 0 toy_world0 = Err ZeroDivisionError.
Proof. split; [reflexivity|]. apply run_episode_zero_len. reflexivity. Defined.

Definition toy_cfg_pre_warm : config :=
  mkConfig 5 6 (3 # 1) Mujoco false 2 1 0 1 3 false 1 2 1 3 2 4.

Lemma step_updates_before_env_step_witness :
  0 < episode_len toy_cfg /\
  wp (step_body toy_cfg (mkEp 0%Q 0%Q 0 false 0 0 false 0))
     (fun _ w' => exists ls sc m d, List.length ls = burst_size toy_cfg toy_world0 /\
        w_trace w' = w_trace toy_world0 ++ action_event toy_cfg (w_i_episode toy_world0)
          :: burst_events (update_rule_for toy_cfg (w_i_episode toy_world0)) (wandb_log toy_cfg)
                          (w_updates toy_world0) ls
          ++ [EvEnvStep sc; EvGetReward; EvMemPush m; EvPushData d] /\
        w_updates w' = w_updates toy_world0 + burst_size toy_cfg toy_world0) toy_world0.
Proof. split; [vm_compute; lia|]. apply step_updates_before_env_step. vm_compute; lia. Defined.

Lemma warmup_updates_pretrain_rule_witness :
  0 < episode_len toy_cfg_pre_warm /\ 0 < pretrain_episodes toy_cfg_pre_warm /\
  w_i_episode toy_world0 <= start_episodes toy_cfg_pre_warm /\
  wp (step_body toy_cfg_pre_warm (mkEp 0%Q 0%Q 0 false 0 0 false 0))
     (fun _ w' => exists ls sc evs, List.length ls = burst_size toy_cfg_pre_warm toy_world0 /\
        w_trace w' = w_trace toy_world0 ++ EvRandomAction
          :: burst_events PretrainRule (wandb_log toy_cfg_pre_warm) (w_updates toy_world0) ls
          ++ EvEnvStep sc :: evs) toy_world0.
Proof.
  split; [vm_compute; lia|]. split; [vm_compute; lia|]. split; [vm_compute; lia|].
  apply warmup_updates_pretrain_rule; vm_compute; lia.
Defined.

Lemma run_episode_success_witness :
  0 < episode_len toy_cfg /\
  wp (run_episode toy_cfg 0)
     (fun e w' => exists evs, w_trace w' = w_trace toy_world0 ++ EvReset :: evs /\
        ep_flag e = (if ep_succ e then 1 else 0) /\
        ep_succ e = is_metaworld (env_type toy_cfg) && existsb (fun b => b) (success_events evs))
     toy_world0.
Proof. split; [vm_compute; lia|]. apply run_episode_success. vm_compute; lia. Defined.
