(* ===== verification/SuccessWindow.v ===== *)
(** * The success window of [OPRRL.train] (lines 156, 233-239)

    [succ_de = deque(maxlen=50)] holds the success flags of the last 50
    logged episodes.  CPython's [deque.append] on a bounded deque appends
    and then drops the leftmost element when the length exceeds [maxlen];
    [deque_append] is that.  [window_of] is the window after a history of
    appends from the empty deque; [lastn] is the reference (the last [n]
    elements of the history), and [success_rate] is [np.mean(succ_de)]
    over booleans read as 0 and 1. *)

From Stdlib Require Import Arith ZArith QArith List Lia Lqa.
From S2P Require Import Prelude.
Import ListNotations.
Local Open Scope nat_scope.

(** Line 156: [deque(maxlen=50)]. *)
Definition succ_maxlen : nat := 50.

(** [d.append(x)] on a deque bounded by [maxlen]. *)
Definition deque_append (maxlen : nat) (d : list bool) (x : bool) : list bool :=
  let d' := d ++ [x] in
  if maxlen <? List.length d' then tl d' else d'.

(** The deque after appending the history [h], oldest first, to [deque()]. *)
Definition window_of (maxlen : nat) (h : list bool) : list bool :=
  fold_left (deque_append maxlen) h [].

(** The last [n] elements of [l]. *)
Definition lastn {A} (n : nat) (l : list A) : list A := skipn (List.length l - n) l.

(** Line 239: [np.mean(succ_de)], booleans counted as 0 and 1. *)
Definition success_rate (d : list bool) : option Q :=
  np_mean (map (fun b : bool => if b then 1%Q else 0%Q) d).

(** The rates logged along a sequence of episode flags [fs] from the
    window [d]: each flag is appended (line 238) before the mean is taken
    (line 239). *)
Fixpoint window_rates (d fs : list bool) : list (option (option Q)) :=
  match fs with
  | [] => []
  | f :: fs' => let d' := deque_append succ_maxlen d f in Some (success_rate d') :: window_rates d' fs'
  end.

Lemma skipn_succ_tl {A} k (l : list A) : skipn (S k) l = tl (skipn k l).
Proof.
  revert l; induction k as [|k IH]; intros l; [now destruct l|].
  destruct l as [|a l]; [reflexivity|]. simpl. rewrite <- IH. reflexivity.
Qed.

Lemma skipn_app_le {A} k (l : list A) x : k <= List.length l -> skipn k (l ++ [x]) = skipn k l ++ [x].
Proof.
  intros Hk. rewrite skipn_app. replace (k - List.length l) with 0 by lia. reflexivity.
Qed.

Lemma tl_app_nonempty {A} (l : list A) x : l <> [] -> tl (l ++ [x]) = tl l ++ [x].
Proof. destruct l; [congruence|reflexivity]. Qed.

(** One append keeps the window equal to the last [maxlen] flags. *)
Lemma lastn_snoc maxlen h x :
  lastn maxlen (h ++ [x]) = deque_append maxlen (lastn maxlen h) x.
Proof.
  unfold deque_append, lastn. cbv zeta. rewrite !length_app, !length_skipn. cbn [List.length].
  destruct (Nat.ltb_spec maxlen (List.length h - (List.length h - maxlen) + 1)) as [Hlt|Hge].
  - replace (List.length h + 1 - maxlen) with (S (List.length h - maxlen)) by lia.
    rewrite skipn_succ_tl, skipn_app_le by lia.
    destruct (Nat.eq_dec (List.length h - maxlen) (List.length h)) as [Heq|Hne].
    + rewrite Heq, skipn_all. reflexivity.
    + rewrite tl_app_nonempty; [reflexivity|].
      intros Hnil. apply (f_equal (@List.length bool)) in Hnil.
      rewrite length_skipn in Hnil. simpl in Hnil. lia.
  - replace (List.length h + 1 - maxlen) with 0 by lia.
    replace (List.length h - maxlen) with 0 by lia. reflexivity.
Qed.

Lemma window_of_eq_lastn maxlen h : window_of maxlen h = lastn maxlen h.
Proof.
  unfold window_of. induction h as [|x h IH] using rev_ind.
  - reflexivity.
  - rewrite fold_left_app, IH. simpl. now rewrite lastn_snoc.
Qed.

(** The rate logged at the [k]-th of the flags [fs] is the mean of the
    last [succ_maxlen] flags of the history up to and including it. *)
Lemma window_rates_spec h fs :
  window_rates (window_of succ_maxlen h) fs =
  map (fun k => Some (success_rate (lastn succ_maxlen (h ++ firstn k fs)))) (seq 1 (List.length fs)).
Proof.
  revert h; induction fs as [|f fs IH]; intros h; [reflexivity|].
  cbn [window_rates List.length seq map firstn]. rewrite <- seq_shift, map_map.
  replace (deque_append succ_maxlen (window_of succ_maxlen h) f) with (window_of succ_maxlen (h ++ [f]))
    by (unfold window_of; now rewrite fold_left_app).
  rewrite IH, window_of_eq_lastn. f_equal.
  apply map_ext. intros k. cbn [firstn]. now rewrite <- app_assoc.
Qed.
