(* ===== verification/Train.v ===== *)
(** * [OPRRL.train] and [OPRRL.evaluate] (lines 106-131, 152-303)

    [train_episode] is one iteration of the [for self.i_episode in
    itertools.count(1)] loop: the episode of [Episode], the logging block
    with the success window (lines 228-248), the three per-episode lists
    (250-252), the scheduler of [Scheduler] (258-284), the one-time
    pretrain exit (288-297), the periodic evaluation (299-300).
    [train_loop] is the loop with its stop test (302-303), on fuel, and
    [train] starts it at episode 1 with the fuel [S max_episodes].
    [evaluate] is lines 106-131: [eval_episode] is one evaluation episode
    with its own [while not done] loop, cut at [episode_len] steps by
    [==] (line 125) rather than by [%].

    The whole-run theorems follow three tallies of the call trace (ranking
    calls, critic resets, ends of episodes) through one iteration
    ([train_episode_tallied]) and the loop ([train_loop_tallied]), under
    [wf_config], the condition that no [%] of the loop divides by zero.
    The loop theorem also follows the logged episode records
    ([World.trace_logs]) against the three per-episode lists, and the
    logged success rates ([World.trace_rates]) against the window. *)

From Stdlib Require Import Arith QArith List Lia.
From S2P Require Import Prelude Interfaces ReplayMemory World Toy LearnReward Scheduler Episode SuccessWindow.
Import ListNotations.
Local Open Scope nat_scope.

(** The locals of [train] that live across episodes (lines 154-159):
    the state machine, the success window, [print_flag].  [max_succ_rate]
    and [extra_update_reward_flag] are only read by commented-out code. *)
Record train_locals : Type := mkTL {
  tl_sched : sched;
  tl_succ_de : list bool;
  tl_print_flag : nat
}.

(** Lines 154-159. *)
Definition train_init : train_locals := mkTL sched_init [] 0.

Section Train.
Context {St Act E G RN Mem : Type}.
Context `{Environment E St Act} `{Agent G St Act Mem} `{RewardModel RN St Act}
        `{ReplayMemory Mem St Act}.
Local Abbreviation World := (World E G RN Mem).
Variable cfg : config.

(** Lines 228-248: with logging on, log the episode's record; on RLBench
    and Meta-World first append the episode's success to the window
    (RLBench: the episode ended before the length budget; Meta-World: the
    flag of lines 203-206) and log the window's mean with the record. *)
Definition log_block (ep : ep_locals St) (succ_de : list bool) : M World (list bool) :=
  if wandb_log cfg then
    i <- gets w_i_episode ;;
    match env_type cfg with
    | Mujoco =>
        log (LogEpisode (ep_reward ep) (ep_reward_prime ep) (ep_steps ep) None i) ;;;
        ret succ_de
    | Rlbench =>
        let succ_de' := deque_append succ_maxlen succ_de (ep_steps ep <? episode_len cfg) in
        log (LogEpisode (ep_reward ep) (ep_reward_prime ep) (ep_steps ep)
                        (Some (success_rate succ_de')) i) ;;;
        ret succ_de'
    | Metaworld =>
        let succ_de' := deque_append succ_maxlen succ_de (ep_succ ep) in
        log (LogEpisode (ep_reward ep) (ep_reward_prime ep) (ep_steps ep)
                        (Some (success_rate succ_de')) i) ;;;
        ret succ_de'
    end
  else ret succ_de.

(** Lines 250-252. *)
Definition record_episode (ep : ep_locals St) : M World unit :=
  modify (fun w => with_episode_lists (w_e_reward_list w ++ [ep_reward ep])
                                      (w_e_reward_prime_list w ++ [ep_reward_prime ep])
                                      (w_episode_len_list w ++ [ep_steps ep]) w).

(** Lines 288-297: at the end of the pretrain phase, ten fit steps, a
    relabel, a reset of critic and actor, and a hundred main-rule agent
    updates, all passed the unchanged [self.updates]. *)
Definition pretrain_exit : M World unit :=
  i <- gets w_i_episode ;;
  if (i =? start_episodes cfg + pretrain_episodes cfg) && (0 <? pretrain_episodes cfg) then
    repeat_m 10 (learn_reward_soft ;;; ret tt) ;;;
    relabel_memory ;;;
    reset_critic ;;;
    reset_actor ;;;
    repeat_m 100 (u <- gets w_updates ;; agent_update MainRule (batch_size cfg) u ;;; ret tt)
  else ret tt.

(** Lines 115-126: the [while not done] loop of one evaluation episode,
    on fuel; returns the episode's true return. *)
Fixpoint eval_loop (fuel episode_len : nat) (evaluate_mode : bool)
    (state : St) (episode_reward : Q) (episode_steps : nat) (done : bool) : M World Q :=
  match fuel with
  | O => throw OutOfFuel
  | S f =>
      if done then ret episode_reward
      else
        action <- select_action state evaluate_mode ;;
        o <- env_step action ;;
        let steps := S episode_steps in
        let done' := if steps =? episode_len then true else so_done o in
        eval_loop f episode_len evaluate_mode (so_next_state o)
                  (episode_reward + so_reward o)%Q steps done'
  end.

(** Lines 110-128: one evaluation episode, with the fuel [S episode_len]. *)
Definition eval_episode (episode_len : nat) (evaluate_mode : bool) : M World Q :=
  state <- env_reset ;;
  eval_loop (S episode_len) episode_len evaluate_mode state 0%Q 0 false.

(** Lines 106-131: [evaluate(i_episode, episode_len, evaluate_mode)]. *)
Fixpoint evaluate (n episode_len : nat) (evaluate_mode : bool) : M World (list Q) :=
  match n with
  | O => ret []
  | S n' =>
      r <- eval_episode episode_len evaluate_mode ;;
      rs <- evaluate n' episode_len evaluate_mode ;;
      ret (r :: rs)
  end.

(** Lines 299-300: [%] first, then [eval is True]. *)
Definition eval_block : M World unit :=
  i <- gets w_i_episode ;;
  m <- lift (py_mod i (eval_per_episode cfg)) ;;
  if (m =? 0) && eval cfg then
    (rs <- evaluate (eval_episodes cfg) (episode_len cfg) true ;; ret tt)
  else ret tt.

(** Lines 162-300: one iteration of the episode loop. *)
Definition train_episode (tl : train_locals) : M World train_locals :=
  ep <- run_episode cfg (tl_print_flag tl) ;;
  succ_de <- log_block ep (tl_succ_de tl) ;;
  record_episode ep ;;;
  s <- scheduler_block cfg (tl_sched tl) (ep_reward ep) ;;
  pretrain_exit ;;;
  eval_block ;;;
  ret (mkTL s succ_de (ep_print_flag ep)).

(** Line 161 and lines 302-303: the loop over [self.i_episode] from [i],
    stopping after the episode whose index reaches [max_episodes - 1]. *)
Fixpoint train_loop (fuel i : nat) (tl : train_locals) : M World train_locals :=
  match fuel with
  | O => throw OutOfFuel
  | S f =>
      modify (with_i_episode i) ;;;
      tl' <- train_episode tl ;;
      if max_episodes cfg - 1 <=? i then ret tl' else train_loop f (S i) tl'
  end.

(** Lines 152-303. *)
Definition train : M World train_locals := train_loop (S (max_episodes cfg)) 1 train_init.
End Train.

(** ** The pretrain exit *)

(** Line 288: the test of the pretrain exit at episode [i]. *)
Definition exit_fires (cfg : config) (i : nat) : bool :=
  (i =? start_episodes cfg + pretrain_episodes cfg) && (0 <? pretrain_episodes cfg).

(** The calls of lines 289-296, with [self.updates = u]. *)
Definition exit_events (u : nat) : list event :=
  repeat EvLearnSoft 10 ++ [EvRelabel; EvResetCritic; EvResetActor]
  ++ repeat (EvUpdate MainRule u) 100.

(** The calls [evaluate] makes. *)
Definition eval_event (e : event) : bool :=
  match e with
  | EvReset | EvEnvStep _ | EvSelectAction true => true
  | _ => false
  end.

(** [w'] differs from [w] only by calls of [eval_event], the environment
    and the agent: replay memory, reward model, counters and per-episode
    lists are untouched. *)
Definition eval_frame {E G RN Mem} (w w' : World E G RN Mem) : Prop :=
  ext eval_event w w' /\ w_mem w' = w_mem w /\ w_rnet w' = w_rnet w /\
  w_updates w' = w_updates w /\ w_total_numsteps w' = w_total_numsteps w /\
  w_e_reward_list w' = w_e_reward_list w /\ w_e_reward_prime_list w' = w_e_reward_prime_list w /\
  w_episode_len_list w' = w_episode_len_list w.

Lemma eval_frame_refl {E G RN Mem} (w : World E G RN Mem) : eval_frame w w.
Proof. split; [apply ext_refl|]. repeat split. Qed.

Lemma eval_frame_trans {E G RN Mem} (w1 w2 w3 : World E G RN Mem) :
  eval_frame w1 w2 -> eval_frame w2 w3 -> eval_frame w1 w3.
Proof.
  intros (X1 & A1 & B1 & C1 & D1 & F1 & G1 & H1) (X2 & A2 & B2 & C2 & D2 & F2 & G2 & H2).
  split; [eapply ext_trans; eauto|]. repeat split; congruence.
Qed.

(** One recorded [eval_event] call on the environment or the agent. *)
Lemma eval_frame_record {E G RN Mem} e (w w0 : World E G RN Mem) :
  eval_event e = true -> w_trace w0 = w_trace w -> counters w0 = counters w ->
  w_mem w0 = w_mem w -> w_rnet w0 = w_rnet w ->
  w_e_reward_list w0 = w_e_reward_list w -> w_e_reward_prime_list w0 = w_e_reward_prime_list w ->
  w_episode_len_list w0 = w_episode_len_list w ->
  eval_frame w (record e w0).
Proof.
  intros He Ht Hc Hm Hr H1 H2 H3. split; [apply ext_record; auto|].
  unfold counters in Hc. injection Hc as _ Hn Hu _ _. cbn. repeat split; auto.
Qed.

(** The three tallies the loop theorems follow: ranking calls, critic
    resets, and ends of training episodes. *)
Definition tally (l : list event) : nat * nat * nat :=
  (count_ev is_rank l, count_ev is_reset_critic l, count_ev is_done_push l).

Lemma tally_app l1 l2 :
  tally (l1 ++ l2) =
  let '(a1, b1, c1) := tally l1 in let '(a2, b2, c2) := tally l2 in (a1 + a2, b1 + b2, c1 + c2).
Proof. unfold tally. now rewrite !count_ev_app. Qed.

(** Calls that are none of the three. *)
Definition quiet (e : event) : bool :=
  negb (is_rank e) && negb (is_reset_critic e) && negb (is_done_push e).

Lemma tally_quiet l : forallb quiet l = true -> tally l = (0, 0, 0).
Proof.
  intros Hq. unfold tally.
  rewrite (count_ev_none is_rank quiet), (count_ev_none is_reset_critic quiet),
    (count_ev_none is_done_push quiet); auto;
    intros e; unfold quiet; destruct (is_rank e), (is_reset_critic e), (is_done_push e); simpl; congruence.
Qed.

Lemma done_push_count l :
  count_ev is_done_push l = List.length (filter (fun b : bool => b) (done_events l)).
Proof. induction l as [|[] l IH]; simpl; rewrite ?count_ev_cons, ?IH; try reflexivity; now destruct done. Qed.

(** Calls that are not counted and are no fit of the reward model. *)
Definition calm (e : event) : bool := quiet e && negb (is_learn e).

(** Spec section 5, ordering (2): labels are stale from a fit of the
    reward model ([learn_reward_soft]) until the next [relabel_memory];
    [label_step] follows that state along a trace and fails on an agent
    update made on stale labels. *)
Definition label_step (d : option bool) (e : event) : option bool :=
  match d with
  | None => None
  | Some stale =>
      match e with
      | EvLearnSoft => Some true
      | EvRelabel => Some false
      | EvUpdate _ _ => if stale then None else Some false
      | _ => Some stale
      end
  end.

(** From fresh labels, no update of [l] reads stale labels and the
    labels are fresh again at the end of [l]. *)
Definition labels_fresh (l : list event) : Prop := fold_left label_step l (Some false) = Some false.

(** ** Whole runs *)

(** The configurations under which no [%] of the loop divides by zero: a
    positive episode length (line 217), positive ranking periods for both
    phases (line 271) and a positive evaluation period (line 299).
    [run_episode_zero_len], [scheduler_block_zero_period] and
    [eval_block_zero_period] show that each condition is needed. *)
Definition wf_config (cfg : config) : Prop :=
  0 < episode_len cfg /\ 0 < learn_reward_frequency_1 cfg /\
  0 < learn_reward_frequency cfg /\ 0 < eval_per_episode cfg.

(** [w'] follows [w] by calls whose tally is [t], and the rank count grew
    by the number of ranking calls among them; no agent update among
    them reads stale labels. *)
Definition tallied {E G RN Mem} (w w' : World E G RN Mem) (t : nat * nat * nat) : Prop :=
  exists evs, w_trace w' = w_trace w ++ evs /\ tally evs = t /\
              w_rank_count w' = w_rank_count w + fst (fst t) /\ labels_fresh evs.

(** The episode after which the loop started at episode [i] stops
    (line 302): the first index reaching [max_episodes - 1]. *)
Definition last_episode (cfg : config) (i : nat) : nat := Nat.max i (max_episodes cfg - 1).

(** How many of the episodes [i], ..., [i + n - 1] take the pretrain exit. *)
Definition exit_count (cfg : config) (i n : nat) : nat :=
  List.length (filter (exit_fires cfg) (seq i n)).

(** The per-episode records the loop logs from episode [i] on: the
    return, the shaped return, the length and the episode index, one per
    episode, zipped from the three lists the loop appends to. *)
Fixpoint ep_records (rs rs' : list Q) (ls : list nat) (i : nat) : list (Q * Q * nat * nat) :=
  match rs, rs', ls with
  | r :: rs, r' :: rs', n :: ls => (r, r', n, i) :: ep_records rs rs' ls (S i)
  | _, _, _ => []
  end.

Lemma labels_fresh_app l1 l2 : labels_fresh l1 -> labels_fresh l2 -> labels_fresh (l1 ++ l2).
Proof. unfold labels_fresh. intros H1 H2. now rewrite fold_left_app, H1. Qed.

Lemma labels_fresh_no_learn l : forallb (fun e => negb (is_learn e)) l = true -> labels_fresh l.
Proof.
  unfold labels_fresh. induction l as [|e l IH]; [reflexivity|]. cbn [forallb fold_left].
  intros [He Hl]%andb_true_iff. destruct e; simpl in *; try discriminate; auto.
Qed.

Lemma forallb_impl {A} (P Q : A -> bool) l :
  (forall x, P x = true -> Q x = true) -> forallb P l = true -> forallb Q l = true.
Proof.
  intros HPQ Hl. apply forallb_forall. intros x Hx. apply HPQ. exact (proj1 (forallb_forall P l) Hl x Hx).
Qed.

Lemma tallied_refl {E G RN Mem} (w : World E G RN Mem) : tallied w w (0, 0, 0).
Proof. exists []. rewrite app_nil_r. split; [reflexivity|]. split; [reflexivity|]. split; [simpl; lia|reflexivity]. Qed.

Lemma tallied_trans {E G RN Mem} (w1 w2 w3 : World E G RN Mem) a1 b1 c1 a2 b2 c2 :
  tallied w1 w2 (a1, b1, c1) -> tallied w2 w3 (a2, b2, c2) ->
  tallied w1 w3 (a1 + a2, b1 + b2, c1 + c2).
Proof.
  intros (l1 & H1 & T1 & R1 & F1) (l2 & H2 & T2 & R2 & F2). exists (l1 ++ l2).
  rewrite H2, H1, <- app_assoc, tally_app, T1, T2. cbn [fst] in *.
  split; [reflexivity|]. split; [reflexivity|]. split; [lia|now apply labels_fresh_app].
Qed.

Arguments tallied_trans {E G RN Mem w1 w2 w3 a1 b1 c1 a2 b2 c2}.

(** Only the trace and the rank count of the starting world matter. *)
Lemma tallied_same_l {E G RN Mem} (w0 w w' : World E G RN Mem) t :
  w_trace w0 = w_trace w -> w_rank_count w0 = w_rank_count w -> tallied w0 w' t -> tallied w w' t.
Proof. intros Ht Hc (l & H1 & H2 & H3 & H4). exists l. rewrite <- Ht, <- Hc. auto. Qed.

Lemma tallied_eq {E G RN Mem} (w w' : World E G RN Mem) t t' :
  tallied w w' t -> t = t' -> tallied w w' t'.
Proof. now intros H <-. Qed.

(** A stretch of calls none of which is counted. *)
Lemma tallied_quiet {E G RN Mem} (P : event -> bool) (w w' : World E G RN Mem) :
  (forall e, P e = true -> calm e = true) -> ext P w w' -> tallied w w' (0, 0, 0).
Proof.
  intros HP ([l [Ht Hl]] & _ & Hc & _). exists l. split; [exact Ht|]. split; [|split; [simpl; lia|]].
  - apply tally_quiet. refine (forallb_impl P quiet l _ Hl).
    intros e He. specialize (HP e He). unfold calm in HP. now apply andb_true_iff in HP as [-> _].
  - apply labels_fresh_no_learn. refine (forallb_impl P _ l _ Hl).
    intros e He. specialize (HP e He). unfold calm in HP. now apply andb_true_iff in HP as [_ ->].
Qed.

Lemma eval_event_calm e : eval_event e = true -> calm e = true.
Proof. destruct e; simpl; intros He; try reflexivity; congruence. Qed.

Lemma labels_fresh_exit_events u : labels_fresh (exit_events u).
Proof. reflexivity. Qed.

(** A ranking round fits, then relabels. *)
Lemma labels_fresh_rank_events k n tail :
  forallb (fun e => negb (is_learn e)) tail = true ->
  labels_fresh (EvRank k :: repeat EvLearnSoft n ++ EvRelabel :: tail).
Proof.
  intros Ht. unfold labels_fresh. cbn [fold_left label_step]. rewrite fold_left_app.
  assert (Hr : forall m b, exists b', fold_left label_step (repeat EvLearnSoft m) (Some b) = Some b')
    by (induction m as [|m IH]; intros b; [exists b; reflexivity|simpl; apply IH]).
  destruct (Hr n false) as [b' ->]. exact (labels_fresh_no_learn tail Ht).
Qed.

Lemma tally_exit_events u : tally (exit_events u) = (0, 1, 0).
Proof. unfold tally, exit_events. rewrite !count_ev_app, !count_ev_repeat. reflexivity. Qed.

(** The calls of a ranking round (lines 272-284). *)
Lemma tally_rank_events k n tail :
  forallb quiet tail = true -> tally (EvRank k :: repeat EvLearnSoft n ++ EvRelabel :: tail) = (1, 0, 0).
Proof.
  intros Hq. change (EvRank k :: ?l) with ([EvRank k] ++ l).
  rewrite tally_app, (tally_quiet (repeat _ _ ++ _)); [reflexivity|].
  rewrite forallb_app. apply andb_true_intro. split; [|exact Hq].
  induction n as [|n IH]; [reflexivity|exact IH].
Qed.

(** The calls of one episode: one end of episode pushed, nothing ranked
    and no reset. *)
Lemma tally_step_events l n :
  forallb step_event l = true -> done_events l = repeat false n ++ [true] -> tally l = (0, 0, 1).
Proof.
  intros Hs Hd. unfold tally. rewrite done_push_count, Hd, filter_app.
  assert (Hf : forall k, filter (fun b : bool => b) (repeat false k) = []) by (induction k; simpl; auto).
  rewrite Hf. rewrite (count_ev_none is_rank step_event), (count_ev_none is_reset_critic step_event);
    try exact Hs; try reflexivity; intros []; simpl; congruence.
Qed.

Lemma exit_count_S cfg i n :
  exit_count cfg i (S n) = (if exit_fires cfg i then 1 else 0) + exit_count cfg (S i) n.
Proof. unfold exit_count. simpl. now destruct (exit_fires cfg i). Qed.

(** The exit fires at most once: at episode [start_episodes +
    pretrain_episodes], when there is a pretrain phase. *)
Lemma exit_count_spec cfg i n :
  exit_count cfg i n =
  if (0 <? pretrain_episodes cfg) && (i <=? start_episodes cfg + pretrain_episodes cfg)
     && (start_episodes cfg + pretrain_episodes cfg <? i + n) then 1 else 0.
Proof.
  revert i; induction n as [|n IH]; intros i.
  - unfold exit_count. simpl. destruct (_ && _ && _) eqn:E; [|reflexivity].
    apply andb_true_iff in E as [[_ E1]%andb_true_iff E2].
    apply Nat.leb_le in E1. apply Nat.ltb_lt in E2. lia.
  - rewrite exit_count_S, IH. unfold exit_fires.
    destruct (0 <? pretrain_episodes cfg); [|now rewrite !Bool.andb_false_r]. rewrite !Bool.andb_true_r.
    set (t := start_episodes cfg + pretrain_episodes cfg).
    destruct (Nat.eqb_spec i t), (Nat.leb_spec (S i) t), (Nat.ltb_spec t (S i + n)),
      (Nat.leb_spec i t), (Nat.ltb_spec t (i + S n)); simpl; lia.
Qed.

(** The multiples of [p] among [1 .. n] number [n / p]. *)
Lemma count_multiples p n :
  0 < p -> List.length (filter (fun j => j mod p =? 0) (seq 1 n)) = n / p.
Proof.
  intros Hp. induction n as [|n IH]; [now rewrite Nat.Div0.div_0_l|].
  rewrite seq_S, filter_app, length_app, IH. change (1 + n) with (S n). cbn [filter].
  pose proof (Nat.div_mod n p ltac:(lia)) as Hd. pose proof (Nat.mod_upper_bound n p ltac:(lia)) as Hr.
  destruct (Nat.eq_dec (S (n mod p)) p) as [Heq|Hne].
  - rewrite <- (Nat.mod_unique (S n) p (n / p + 1) 0), <- (Nat.div_unique (S n) p (n / p + 1) 0) by nia.
    simpl. lia.
  - rewrite <- (Nat.mod_unique (S n) p (n / p) (S (n mod p))), <- (Nat.div_unique (S n) p (n / p) (S (n mod p)))
      by lia.
    simpl. lia.
Qed.

Section TrainRuns.
Context {St Act E G RN Mem : Type}.
Context `{Environment E St Act} `{Agent G St Act Mem} `{RewardModel RN St Act}
        `{ReplayMemory Mem St Act}.
Local Abbreviation World := (World E G RN Mem).
Variable cfg : config.

(** The pretrain exit: when it fires, ten fit calls, a relabel, the two
    resets and a hundred main-rule updates; otherwise nothing. *)
Lemma pretrain_exit_run (w : World) :
  wp (pretrain_exit cfg)
     (fun _ w' =>
        w_trace w' = w_trace w ++ (if exit_fires cfg (w_i_episode w)
                                   then exit_events (w_updates w) else []) /\
        counters w' = counters w) w.
Proof.
  unfold pretrain_exit, exit_fires. wp_steps.
  destruct (_ && _); [|apply wp_ret; now rewrite app_nil_r].
  apply wp_bind. eapply wp_mono.
  { apply (wp_repeat_calls 10 _ EvLearnSoft). intros w0 _. wp_steps. split; reflexivity. }
  intros u1 w1 [Ht1 Hc1]. wp_steps.
  eapply wp_mono.
  { apply (wp_repeat_calls 100 _ (EvUpdate MainRule (w_updates w))).
    intros w0 Hc0. unfold counters in Hc0, Hc1. cbn in Hc0.
    injection Hc0 as _ _ Hu0 _ _. injection Hc1 as _ _ Hu1 _ _.
    wp_steps. cbn. rewrite Hu0, Hu1. split; reflexivity. }
  intros u2 w2 [Ht2 Hc2]. split; [|rewrite Hc2; exact Hc1].
  rewrite Ht2. cbn [w_trace record with_trace with_agent with_mem]. rewrite Ht1.
  unfold exit_events. rewrite <- !app_assoc. reflexivity.
Qed.

Lemma eval_loop_run fuel len s r steps done (w : World) :
  0 < len -> steps <= len -> (done = false -> steps < len) -> len - steps < fuel ->
  wp (eval_loop fuel len true s r steps done) (fun _ w' => eval_frame w w') w.
Proof.
  revert s r steps done w; induction fuel as [|f IH]; intros s r steps done w Hlen Hs Hd Hf; [lia|].
  cbn [eval_loop]. destruct done; [apply wp_ret, eval_frame_refl|].
  specialize (Hd eq_refl). wp_steps. eapply wp_mono; [apply IH|].
  - exact Hlen.
  - lia.
  - destruct (Nat.eqb_spec (S steps) len); [discriminate|]. lia.
  - lia.
  - intros u w' Hw'. cbv beta in Hw'. eapply eval_frame_trans; [|exact Hw'].
    eapply eval_frame_trans;
      [apply (eval_frame_record (EvSelectAction true))|apply (eval_frame_record (EvEnvStep _))];
      reflexivity.
Qed.

(** With a positive [episode_len], [evaluate(n, episode_len)] ends,
    returns one return per evaluation episode, and only resets and steps
    the environment and asks the agent for evaluation-mode actions. *)
Lemma evaluate_run n len (w : World) :
  0 < len ->
  wp (evaluate n len true) (fun rs w' => List.length rs = n /\ eval_frame w w') w.
Proof.
  intros Hlen. revert w; induction n as [|n IH]; intros w; cbn [evaluate].
  - apply wp_ret. split; [reflexivity|apply eval_frame_refl].
  - unfold eval_episode. wp_steps. eapply wp_mono; [apply eval_loop_run; lia|].
    intros r w1 Hf1. apply wp_bind. eapply wp_mono; [apply IH|]. intros rs w2 [Hl Hf2].
    apply wp_ret. split; [cbn; now rewrite Hl|].
    eapply eval_frame_trans; [|eapply eval_frame_trans; [exact Hf1|exact Hf2]].
    apply (eval_frame_record EvReset); reflexivity.
Qed.

(** C22: when the pretrain exit fires, the hundred agent updates of line
    296 are all passed the same index, the value [self.updates] had before
    the exit, and [self.updates] is not advanced by them (the update loop
    of line 194 advances it once per update). *)
Theorem pretrain_exit_same_index (w : World) :
  exit_fires cfg (w_i_episode w) = true ->
  wp (pretrain_exit cfg)
     (fun _ w' => w_trace w' = w_trace w ++ exit_events (w_updates w) /\
                  w_updates w' = w_updates w) w.
Proof.
  intros Hf. eapply wp_mono; [apply pretrain_exit_run|]. intros u w' [Ht Hc].
  rewrite Hf in Ht. split; [exact Ht|]. unfold counters in Hc. congruence.
Qed.

Lemma eval_block_run (w : World) :
  0 < episode_len cfg -> 0 < eval_per_episode cfg ->
  wp (eval_block cfg) (fun _ w' => eval_frame w w') w.
Proof.
  intros Hlen Hper. unfold eval_block. wp_steps. rewrite py_mod_pos by lia. wp_steps.
  destruct (_ && _); [|apply wp_ret, eval_frame_refl].
  apply wp_bind. eapply wp_mono; [apply evaluate_run, Hlen|]. intros rs w' [_ Hf].
  now apply wp_ret.
Qed.

(** C27: the periodic evaluation of lines 299-300 ends when [episode_len]
    and [eval_per_episode] are positive, and it changes nothing of the
    object but the environment and the agent: the object after it is the
    one before with only [self.env], [self.agent] and the call trace
    replaced, so the replay memory, the reward model, every counter and
    all three per-episode lists are untouched; the calls it appends only
    reset and step the environment and ask the agent for
    evaluation-mode actions. *)
Theorem eval_block_frame (w : World) :
  0 < episode_len cfg -> 0 < eval_per_episode cfg ->
  wp (eval_block cfg)
     (fun _ w' => (exists evs, w_trace w' = w_trace w ++ evs /\ forallb eval_event evs = true) /\
                  w' = with_trace (w_trace w') (with_agent (w_agent w') (with_env (w_env w') w))) w.
Proof.
  intros Hlen Hper. eapply wp_mono; [apply eval_block_run; assumption|].
  intros u w' ((Hev & Hi & Hc & Hn) & Hm & Hr & Hu & Hs & L1 & L2 & L3).
  split; [exact Hev|]. destruct w'; cbn in *. now rewrite Hi, Hc, Hn, Hm, Hr, Hu, Hs, L1, L2, L3.
Qed.

(** C35: a zero [eval_per_episode] makes line 299 raise
    [ZeroDivisionError] after every episode, even with evaluation
    disabled: the [%] is evaluated before [eval is True]. *)
Theorem eval_block_zero_period (w : World) :
  eval_per_episode cfg = 0 -> eval_block cfg w = Err ZeroDivisionError.
Proof. intros Hz. unfold eval_block, bind, gets, lift, py_mod. now rewrite Hz. Qed.
End TrainRuns.

(** ** One iteration and the whole loop *)

(** The period [freq_update] hands to line 271 is one of the two
    configured ones. *)
Lemma freq_update_period cfg s r :
  fst (snd (freq_update cfg s r)) = learn_reward_frequency_1 cfg \/
  fst (snd (freq_update cfg s r)) = learn_reward_frequency cfg.
Proof.
  unfold freq_update. destruct s as [[|] n]; simpl; [destruct (Qgtb _ _); destruct (8 <? _)|]; simpl; auto.
Qed.

Section TrainLoop.
Context {St Act E G RN Mem : Type}.
Context `{Environment E St Act} `{Agent G St Act Mem} `{RewardModel RN St Act}
        `{ReplayMemory Mem St Act}.
Local Abbreviation World := (World E G RN Mem).
Variable cfg : config.
Hypothesis Hwf : wf_config cfg.

(** Only [train] itself appends to the per-episode lists. *)
Lemma log_block_lists (ep : ep_locals St) d : preserves (W := World) episode_lists (log_block cfg ep d).
Proof. unfold log_block. preserves_auto. Qed.

Lemma pretrain_exit_lists : preserves (W := World) episode_lists (pretrain_exit cfg).
Proof. unfold pretrain_exit. preserves_auto. Qed.

Lemma eval_loop_lists fuel len ev (s : St) r steps d :
  preserves (W := World) episode_lists (eval_loop fuel len ev s r steps d).
Proof. revert s r steps d; induction fuel as [|f IH]; intros s r steps d; simpl; preserves_auto. Qed.

Lemma evaluate_lists n len ev : preserves (W := World) episode_lists (evaluate n len ev).
Proof.
  induction n as [|n IH]; simpl; [preserves_auto|].
  unfold eval_episode. preserves_auto; apply eval_loop_lists.
Qed.

Lemma eval_block_lists : preserves (W := World) episode_lists (eval_block cfg).
Proof. unfold eval_block. preserves_auto; apply evaluate_lists. Qed.

(** Only the logging block logs episode records. *)
Lemma record_episode_logs (ep : ep_locals St) : preserves (W := World) trace_episodes (record_episode ep).
Proof. unfold record_episode. preserves_auto. Qed.

Lemma pretrain_exit_logs : preserves (W := World) trace_episodes (pretrain_exit cfg).
Proof. unfold pretrain_exit. preserves_auto. Qed.

Lemma eval_loop_logs fuel len ev (s : St) r steps d :
  preserves (W := World) trace_episodes (eval_loop fuel len ev s r steps d).
Proof. revert s r steps d; induction fuel as [|f IH]; intros s r steps d; simpl; preserves_auto. Qed.

Lemma evaluate_logs n len ev : preserves (W := World) trace_episodes (evaluate n len ev).
Proof.
  induction n as [|n IH]; simpl; [preserves_auto|].
  unfold eval_episode. preserves_auto; apply eval_loop_logs.
Qed.

Lemma eval_block_logs : preserves (W := World) trace_episodes (eval_block cfg).
Proof. unfold eval_block. preserves_auto; apply evaluate_logs. Qed.

Lemma run_episode_tallied pf (w : World) :
  wp (run_episode cfg pf)
     (fun e w' => tallied w w' (0, 0, 1) /\ w_i_episode w' = w_i_episode w /\
                  w_rank_num w' = w_rank_num w /\ 1 <= ep_steps e <= episode_len cfg /\
                  clock cfg (ep_steps e) w w' /\ episode_lists w' = episode_lists w) w.
Proof.
  destruct Hwf as [Hlen _].
  eapply wp_mono; [apply (wp_preserves episode_lists); [apply run_episode_lists|apply run_episode_run, Hlen]|].
  intros e w' [(_ & Hs & ([l [Ht Hl]] & Hi & Hc & Hn) & Hk & evs & Ht' & _ & Hd & _) HL].
  split; [|split; [assumption|split; [assumption|split; [exact Hs|split; [exact Hk|exact HL]]]]]. exists l. split; [exact Ht|]. split; [|split; [simpl; lia|]].
  - rewrite Ht in Ht'. apply app_inv_head in Ht'. subst l.
    apply (tally_step_events _ (ep_steps e - 1)); [exact Hl|exact Hd].
  - apply labels_fresh_no_learn. refine (forallb_impl step_event _ l _ Hl).
    intros []; simpl; congruence.
Qed.

(** The logging block: only log calls; on RLBench with logging on, the
    window gets the episode's success, [episode_steps < episode_len]. *)
Lemma log_block_ext (ep : ep_locals St) d (w : World) :
  wp (log_block cfg ep d)
     (fun d' w' => ext calm w w' /\ counters w' = counters w /\ episode_lists w' = episode_lists w /\
        (env_type cfg = Rlbench -> wandb_log cfg = true ->
         d' = deque_append succ_maxlen d (ep_steps ep <? episode_len cfg)) /\
        trace_episodes w' = trace_episodes w ++
          (if wandb_log cfg
           then [(ep_reward ep, ep_reward_prime ep, ep_steps ep,
                  match env_type cfg with Mujoco => None | _ => Some (success_rate d') end,
                  w_i_episode w)]
           else [])) w.
Proof.
  unfold log_block.
  destruct (wandb_log cfg); [destruct (env_type cfg)|]; wp_steps;
    repeat split; first [apply ext_record; reflexivity | apply ext_refl | intros; discriminate | reflexivity
                        | unfold trace_episodes; cbn; rewrite ?episode_logs_app, ?app_nil_r; reflexivity].
Qed.

Lemma scheduler_block_tallied s r (w : World) :
  wp (scheduler_block cfg s r)
     (fun s' w' => s' = fst (freq_update cfg s r) /\ w_i_episode w' = w_i_episode w /\
        exists a, a = (if (w_i_episode w mod fst (snd (freq_update cfg s r)) =? 0) &&
                          (w_rank_num w <=? max_rank_num cfg) then 1 else 0) /\
          (a = 0 -> w_rank_num w' = w_rank_num w) /\
          (a = 1 -> exists rn k, w_rank_num w' = ranked_trajs_len (fst (rank_op rn k))) /\
          tallied w w' (a, 0, 0) /\
          w_total_numsteps w' = w_total_numsteps w /\ w_updates w' = w_updates w) w.
Proof.
  destruct Hwf as (_ & Hf1 & Hf2 & _). pose proof (freq_update_period cfg s r) as Hp.
  generalize (scheduler_block_wp cfg s r
    (fun s' w' => s' = fst (freq_update cfg s r) /\ w_i_episode w' = w_i_episode w /\
       exists a, a = (if (w_i_episode w mod fst (snd (freq_update cfg s r)) =? 0) &&
                         (w_rank_num w <=? max_rank_num cfg) then 1 else 0) /\
         (a = 0 -> w_rank_num w' = w_rank_num w) /\
         (a = 1 -> exists rn k, w_rank_num w' = ranked_trajs_len (fst (rank_op rn k))) /\
         tallied w w' (a, 0, 0) /\
         w_total_numsteps w' = w_total_numsteps w /\ w_updates w' = w_updates w) w).
  destruct (freq_update cfg s r) as [s' [lf k]]. cbn in Hp |- *. intros Hb. apply Hb; [lia|].
  destruct ((w_i_episode w mod lf =? 0) && (w_rank_num w <=? max_rank_num cfg)) eqn:Eb.
  - eapply wp_mono; [apply rank_and_refit_run|]. intros u w' Hw. cbv zeta in Hw.
    destruct Hw as (Hrc & Hrn & Hi & Ht & Hn & Hu). split; [reflexivity|]. split; [exact Hi|].
    exists 1. split; [reflexivity|]. split; [discriminate|]. split; [intros _; eauto|].
    split; [|split; [exact Hn|exact Hu]].
    eexists. split; [exact Ht|]. split; [|split; [simpl; lia|]].
    + apply tally_rank_events. now destruct (wandb_log cfg).
    + apply labels_fresh_rank_events. now destruct (wandb_log cfg).
  - split; [reflexivity|]. split; [reflexivity|]. exists 0.
    split; [reflexivity|]. split; [reflexivity|]. split; [discriminate|].
    split; [apply tallied_refl|split; reflexivity].
Qed.

Lemma pretrain_exit_tallied (w : World) :
  wp (pretrain_exit cfg)
     (fun _ w' => w_i_episode w' = w_i_episode w /\ w_rank_num w' = w_rank_num w /\
                  tallied w w' (0, if exit_fires cfg (w_i_episode w) then 1 else 0, 0) /\
                  w_total_numsteps w' = w_total_numsteps w /\ w_updates w' = w_updates w) w.
Proof.
  eapply wp_mono; [apply pretrain_exit_run|]. intros u w' [Ht Hc].
  unfold counters in Hc. injection Hc as Hi Hn Hu Hrc Hrn. split; [exact Hi|]. split; [exact Hrn|].
  split; [|split; [exact Hn|exact Hu]].
  eexists. split; [exact Ht|].
  destruct (exit_fires cfg (w_i_episode w)); (split; [|split; [simpl; lia|]]);
    [apply tally_exit_events|apply labels_fresh_exit_events|reflexivity|reflexivity].
Qed.

Lemma eval_block_tallied (w : World) :
  wp (eval_block cfg)
     (fun _ w' => w_i_episode w' = w_i_episode w /\ w_rank_num w' = w_rank_num w /\
                  tallied w w' (0, 0, 0) /\
                  w_total_numsteps w' = w_total_numsteps w /\ w_updates w' = w_updates w) w.
Proof.
  destruct Hwf as (Hlen & _ & _ & Hper). eapply wp_mono; [apply eval_block_run; assumption|].
  intros u w' [Hx (_ & _ & Hu & Hn & _)]. split; [apply Hx|]. split; [apply Hx|].
  split; [exact (tallied_quiet eval_event w w' eval_event_calm Hx)|split; assumption].
Qed.

(** One iteration of the loop: one episode ends; one ranking round when
    the episode index is a multiple of the phase's period and the pool is
    under the ceiling, none otherwise; the critic reset exactly when the
    exit fires at this index; the scheduler moves by one update. *)
Lemma train_episode_tallied (tl : train_locals) (w : World) :
  wp (train_episode cfg tl)
     (fun tl' w' => w_i_episode w' = w_i_episode w /\
        exists q a, tl_sched tl' = fst (freq_update cfg (tl_sched tl) q) /\
          a = (if (w_i_episode w mod fst (snd (freq_update cfg (tl_sched tl) q)) =? 0) &&
                  (w_rank_num w <=? max_rank_num cfg) then 1 else 0) /\
          (a = 0 -> w_rank_num w' = w_rank_num w) /\
          (a = 1 -> exists rn k, w_rank_num w' = ranked_trajs_len (fst (rank_op rn k))) /\
          tallied w w' (a, if exit_fires cfg (w_i_episode w) then 1 else 0, 1) /\
          exists n, 1 <= n <= episode_len cfg /\ clock cfg n w w' /\
            w_episode_len_list w' = w_episode_len_list w ++ [n] /\
            w_e_reward_list w' = w_e_reward_list w ++ [q] /\
            (exists q', w_e_reward_prime_list w' = w_e_reward_prime_list w ++ [q'] /\
               trace_logs w' = trace_logs w ++ (if wandb_log cfg then [(q, q', n, w_i_episode w)] else []) /\
               trace_rates w' = trace_rates w ++
                 (if wandb_log cfg
                  then [match env_type cfg with Mujoco => None | _ => Some (success_rate (tl_succ_de tl')) end]
                  else [])) /\
            (env_type cfg = Rlbench -> wandb_log cfg = true ->
             tl_succ_de tl' = deque_append succ_maxlen (tl_succ_de tl) (n <? episode_len cfg))) w.
Proof.
  unfold train_episode. apply wp_bind.
  eapply wp_mono; [apply (wp_preserves trace_episodes); [apply run_episode_logs|apply run_episode_tallied]|].
  intros ep w1 [(T1 & I1 & N1 & Hn & K1 & L1) G1]. apply wp_bind. eapply wp_mono; [apply log_block_ext|].
  intros d w2 (X2 & C2 & L2 & D2 & G2). pose proof (tallied_quiet calm w1 w2 (fun e He => He) X2) as T2.
  unfold counters in C2. injection C2 as _ Tn2 Tu2 _ _.
  destruct X2 as (_ & I2 & _ & N2). apply wp_bind. unfold record_episode. wp_steps.
  eapply wp_mono; [apply (wp_preserves trace_episodes); [apply scheduler_block_logs|]|].
  { apply (wp_preserves episode_lists); [apply scheduler_block_lists|apply scheduler_block_tallied]. }
  intros s' w4 [[(-> & I4 & a & Ha & R0 & R1 & T4 & Tn4 & Tu4) L4] G4].
  cbn [w_i_episode w_rank_num w_total_numsteps w_updates with_episode_lists] in I4, Ha, R0, Tn4, Tu4.
  rewrite I2, I1, N2, N1 in Ha. rewrite N2, N1 in R0.
  apply (tallied_same_l _ w2) in T4; [|reflexivity|reflexivity].
  apply wp_bind. eapply wp_mono; [apply (wp_preserves trace_episodes); [apply pretrain_exit_logs|]|].
  { apply (wp_preserves episode_lists); [apply pretrain_exit_lists|apply pretrain_exit_tallied]. }
  intros u w5 [[(I5 & N5 & T5 & Tn5 & Tu5) L5] G5]. rewrite I4, I2, I1 in T5.
  apply wp_bind. eapply wp_mono; [apply (wp_preserves trace_episodes); [apply eval_block_logs|]|].
  { apply (wp_preserves episode_lists); [apply eval_block_lists|apply eval_block_tallied]. }
  intros u' w6 [[(I6 & N6 & T6 & Tn6 & Tu6) L6] G6]. apply wp_ret. cbn [tl_sched tl_succ_de].
  unfold episode_lists in L1, L2, L4, L5, L6. cbn [w_e_reward_list w_e_reward_prime_list w_episode_len_list with_episode_lists] in L4.
  injection L1 as La1 Lb1 Lc1. injection L2 as La2 Lb2 Lc2. injection L4 as La4 Lb4 Lc4.
  injection L5 as La5 Lb5 Lc5. injection L6 as La6 Lb6 Lc6.
  split; [congruence|]. exists (ep_reward ep), a. split; [reflexivity|]. split; [exact Ha|].
  rewrite N6, N5. split; [exact R0|]. split; [exact R1|].
  split.
  - eapply tallied_eq; [exact (tallied_trans (tallied_trans (tallied_trans (tallied_trans T1 T2) T4) T5) T6)|].
    cbn. now rewrite !Nat.add_0_r.
  - exists (ep_steps ep). split; [exact Hn|]. split.
    + unfold clock in *. rewrite Tn6, Tu6, Tn5, Tu5, Tn4, Tu4, Tn2, Tu2. exact K1.
    + rewrite Lc6, Lc5, La6, La5, Lb6, Lb5, Lc4, La4, Lb4, Lc2, La2, Lb2, Lc1, La1, Lb1.
      split; [reflexivity|]. split; [reflexivity|]. split; [|exact D2].
      exists (ep_reward_prime ep). split; [reflexivity|].
      unfold trace_logs, trace_rates. rewrite G6, G5, G4, trace_episodes_with_episode_lists, G2, G1, I1, !map_app.
      split; destruct (wandb_log cfg); reflexivity.
Qed.

(** What the loop records over the episodes [i], [i+1], ... that end
    with lengths [ls]: each length within the budget, appended to
    [self.episode_len_list] and summed into [self.total_numsteps]; one
    return per episode appended to [self.e_reward_list] and run through the
    frequency machine; one shaped return per episode appended to
    [self.e_reward_prime_list]; the logged episode records; on RLBench
    with logging on, the success window and the logged success rates. *)
Definition recorded (i : nat) (tl tl' : train_locals) (w w' : World) (ls : list nat) : Prop :=
  Forall (fun n => 1 <= n <= episode_len cfg) ls /\
  w_episode_len_list w' = w_episode_len_list w ++ ls /\
  w_total_numsteps w' = w_total_numsteps w + list_sum ls /\
  (exists rs, w_e_reward_list w' = w_e_reward_list w ++ rs /\ List.length rs = List.length ls /\
     tl_sched tl' = fold_left (fun s r => fst (freq_update cfg s r)) rs (tl_sched tl) /\
     exists rs', w_e_reward_prime_list w' = w_e_reward_prime_list w ++ rs' /\
       List.length rs' = List.length ls /\
       trace_logs w' = trace_logs w ++ (if wandb_log cfg then ep_records rs rs' ls i else [])) /\
  List.length (w_e_reward_prime_list w') = List.length (w_e_reward_prime_list w) + List.length ls /\
  (env_type cfg = Rlbench -> wandb_log cfg = true ->
   tl_succ_de tl' = fold_left (deque_append succ_maxlen)
                      (map (fun n => n <? episode_len cfg) ls) (tl_succ_de tl) /\
   trace_rates w' = trace_rates w ++ window_rates (tl_succ_de tl) (map (fun n => n <? episode_len cfg) ls)).

Lemma recorded_one i tl tl1 (w w1 : World) n q q' :
  1 <= n <= episode_len cfg ->
  w_episode_len_list w1 = w_episode_len_list w ++ [n] ->
  w_total_numsteps w1 = w_total_numsteps w + n ->
  w_e_reward_list w1 = w_e_reward_list w ++ [q] ->
  tl_sched tl1 = fst (freq_update cfg (tl_sched tl) q) ->
  w_e_reward_prime_list w1 = w_e_reward_prime_list w ++ [q'] ->
  trace_logs w1 = trace_logs w ++ (if wandb_log cfg then [(q, q', n, i)] else []) ->
  trace_rates w1 = trace_rates w ++
    (if wandb_log cfg
     then [match env_type cfg with Mujoco => None | _ => Some (success_rate (tl_succ_de tl1)) end]
     else []) ->
  (env_type cfg = Rlbench -> wandb_log cfg = true ->
   tl_succ_de tl1 = deque_append succ_maxlen (tl_succ_de tl) (n <? episode_len cfg)) ->
  recorded i tl tl1 w w1 [n].
Proof.
  intros Hn He N R Q P Hg V S. split; [constructor; [exact Hn|constructor]|].
  split; [exact He|]. split; [rewrite N; cbn; lia|].
  split; [exists [q]; split; [exact R|]; split; [reflexivity|]; split; [exact Q|]|].
  { exists [q']. split; [exact P|]. split; [reflexivity|]. rewrite Hg. reflexivity. }
  split; [rewrite P, length_app; reflexivity|].
  intros Hr Hw. rewrite V, (S Hr Hw), Hr, Hw. split; reflexivity.
Qed.

Lemma recorded_cons i tl tl1 tl2 (w w1 w2 : World) n ls :
  recorded i tl tl1 w w1 [n] -> recorded (S i) tl1 tl2 w1 w2 ls -> recorded i tl tl2 w w2 (n :: ls).
Proof.
  intros (F1 & E1 & N1 & (rs1 & R1 & Hrs1 & Q1 & rs1' & P1 & Hrs1' & G1) & L1 & S1)
         (F2 & E2 & N2 & (rs2 & R2 & Hrs2 & Q2 & rs2' & P2 & Hrs2' & G2) & L2 & S2).
  destruct rs1 as [|q [|]]; cbn in Hrs1; try lia. destruct rs1' as [|q' [|]]; cbn in Hrs1'; try lia.
  split; [constructor; [inversion F1; assumption|exact F2]|].
  split; [rewrite E2, E1, <- app_assoc; reflexivity|]. split; [rewrite N2, N1; change (list_sum (n :: ls)) with (n + list_sum ls);
          change (list_sum [n]) with (n + 0); lia|].
  split.
  { exists (q :: rs2). rewrite R2, R1, <- app_assoc, Q2, Q1. split; [reflexivity|].
    split; [cbn; lia|]. split; [reflexivity|].
    exists (q' :: rs2'). rewrite P2, P1, <- app_assoc. split; [reflexivity|]. split; [cbn; lia|].
    rewrite G2, G1. cbn [ep_records].
    destruct (wandb_log cfg); [rewrite <- app_assoc; reflexivity|now rewrite !app_nil_r]. }
  split; [rewrite L2, L1; cbn; lia|].
  intros Hr Hw. destruct (S1 Hr Hw) as [S1' V1], (S2 Hr Hw) as [S2' V2].
  split; [rewrite S2', S1'; reflexivity|rewrite V2, V1, <- app_assoc, S1'; reflexivity].
Qed.

(** The loop from episode [i], with fuel above the episodes left: it
    stops at [last_episode], after one finished episode per index, one
    critic reset per firing of the exit, at most one ranking round per
    episode, and every scheduler state it goes through is one update of
    the previous. *)
Lemma train_loop_tallied fuel i (tl : train_locals) (w : World) :
  max_episodes cfg - 1 - i < fuel ->
  wp (train_loop cfg fuel i tl)
     (fun tl' w' => w_i_episode w' = last_episode cfg i /\
        (sched_inv (tl_sched tl) -> sched_inv (tl_sched tl')) /\
        (exists n, last_episode cfg i + 1 - i <= n <= (last_episode cfg i + 1 - i) * episode_len cfg /\
                   clock cfg n w w') /\
        (exists ls, List.length ls = last_episode cfg i + 1 - i /\ recorded i tl tl' w w' ls) /\
        exists a, a <= last_episode cfg i + 1 - i /\
          tallied w w' (a, exit_count cfg i (last_episode cfg i + 1 - i), last_episode cfg i + 1 - i)) w.
Proof.
  revert i tl w; induction fuel as [|f IH]; intros i tl w Hf; [lia|].
  cbn [train_loop]. apply wp_bind, wp_modify. cbv beta. apply wp_bind.
  eapply wp_mono; [apply train_episode_tallied|].
  intros tl1 w1 (I1 & q & a & Q1 & Ha' & _ & _ & T1 & n1 & Hn1 & K1 & E1 & R1 & (q' & P1 & G1 & V1) & S1).
  cbn [w_i_episode w_episode_len_list w_e_reward_list w_e_reward_prime_list with_i_episode]
    in I1, T1, E1, R1, P1, G1, V1.
  change (trace_logs (with_i_episode i w)) with (trace_logs w) in G1.
  change (trace_rates (with_i_episode i w)) with (trace_rates w) in V1.
  change (clock cfg n1 w w1) in K1.
  assert (Hr1 : recorded i tl tl1 w w1 [n1])
    by (apply (recorded_one _ _ _ _ _ _ q q'); try assumption; apply K1).
  assert (Ha : a <= 1) by (rewrite Ha'; destruct (_ && _); lia). clear Ha'.
  apply (tallied_same_l _ w) in T1; [|reflexivity|reflexivity].
  assert (Hinv : sched_inv (tl_sched tl) -> sched_inv (tl_sched tl1))
    by (intros Hs; rewrite Q1; apply freq_update_inv, Hs).
  destruct (Nat.leb_spec (max_episodes cfg - 1) i) as [Hle|Hgt].
  - apply wp_ret. assert (Hl : last_episode cfg i = i) by (unfold last_episode; lia). rewrite Hl.
    replace (i + 1 - i) with 1 by lia. split; [exact I1|]. split; [exact Hinv|].
    split; [exists n1; split; [lia|exact K1]|]. split; [exists [n1]; split; [reflexivity|exact Hr1]|].
    exists a. split; [lia|]. eapply tallied_eq; [exact T1|].
    rewrite exit_count_S. cbn [exit_count seq filter List.length]. now rewrite Nat.add_0_r.
  - eapply wp_mono; [apply IH; lia|].
    intros tl2 w2 (I2 & Hinv2 & (n2 & Hn2 & K2) & (ls & Hls & Hr2) & a2 & Ha2 & T2).
    assert (Hl : last_episode cfg (S i) = last_episode cfg i) by (unfold last_episode; lia).
    rewrite Hl in *. split; [exact I2|]. split; [auto|].
    assert (Hn : last_episode cfg i + 1 - i = S (last_episode cfg i + 1 - S i))
      by (unfold last_episode in *; lia).
    rewrite Hn. split; [exists (n1 + n2); split; [nia|eapply clock_trans; [exact K1|exact K2]]|].
    split; [exists (n1 :: ls); split; [cbn; lia|exact (recorded_cons _ _ _ _ _ _ _ _ _ Hr1 Hr2)]|].
    exists (a + a2). split; [lia|]. eapply tallied_eq; [exact (tallied_trans T1 T2)|].
    now rewrite exit_count_S.
Qed.
End TrainLoop.

(** ** Runs in which the ranked pool stays under the ceiling *)

Section TrainPeriodic.
Context {St Act E G RN Mem : Type}.
Context `{Environment E St Act} `{Agent G St Act Mem} `{RewardModel RN St Act}
        `{ReplayMemory Mem St Act}.
Local Abbreviation World := (World E G RN Mem).
Variable cfg : config.
Hypothesis Hwf : wf_config cfg.
(** Both phases rank with the same period. *)
Hypothesis Hsame : learn_reward_frequency_1 cfg = learn_reward_frequency cfg.
(** The reward model never ranks its pool beyond [max_rank_num]. *)
Hypothesis Hpool : forall rn k, ranked_trajs_len (fst (rank_op rn k)) <= max_rank_num cfg.

Lemma train_loop_periodic fuel i (tl : train_locals) (w : World) :
  w_rank_num w <= max_rank_num cfg -> max_episodes cfg - 1 - i < fuel ->
  wp (train_loop cfg fuel i tl)
     (fun _ w' => w_rank_num w' <= max_rank_num cfg /\
        exists evs, w_trace w' = w_trace w ++ evs /\
          count_ev is_rank evs =
          List.length (filter (fun j => j mod learn_reward_frequency cfg =? 0)
                              (seq i (last_episode cfg i + 1 - i)))) w.
Proof.
  revert i tl w; induction fuel as [|f IH]; intros i tl w Hmax Hf; [lia|].
  cbn [train_loop]. apply wp_bind, wp_modify. cbv beta. apply wp_bind.
  eapply wp_mono; [apply (train_episode_tallied cfg Hwf)|].
  intros tl1 w1 (_ & q & a & _ & Ha & R0 & R1 & (l1 & Ht1 & Hy1 & _) & _).
  cbn [w_rank_num w_i_episode w_trace with_i_episode] in Ha, R0, Ht1.
  assert (Hlf : fst (snd (freq_update cfg (tl_sched tl) q)) = learn_reward_frequency cfg)
    by (destruct (freq_update_period cfg (tl_sched tl) q); congruence).
  rewrite Hlf in Ha. destruct (Nat.leb_spec (w_rank_num w) (max_rank_num cfg)) as [_|]; [|lia].
  rewrite Bool.andb_true_r in Ha.
  assert (Hm1 : w_rank_num w1 <= max_rank_num cfg).
  { destruct (i mod learn_reward_frequency cfg =? 0); subst a;
      [destruct (R1 eq_refl) as (rn & k & ->); apply Hpool|rewrite R0; auto]. }
  assert (C1 : count_ev is_rank l1 = a) by (unfold tally in Hy1; congruence).
  assert (Hs : forall n, seq i (S n) = i :: seq (S i) n) by reflexivity.
  destruct (Nat.leb_spec (max_episodes cfg - 1) i) as [Hle|Hgt].
  - apply wp_ret. split; [exact Hm1|]. exists l1. split; [exact Ht1|].
    replace (last_episode cfg i + 1 - i) with 1 by (unfold last_episode; lia).
    rewrite C1, Ha. cbn. now destruct (i mod learn_reward_frequency cfg =? 0).
  - eapply wp_mono; [apply IH; [exact Hm1|lia]|]. intros tl2 w2 (Hm2 & l2 & Ht2 & C2).
    split; [exact Hm2|]. exists (l1 ++ l2). split; [rewrite Ht2, Ht1, <- app_assoc; reflexivity|].
    replace (last_episode cfg i + 1 - i) with (S (last_episode cfg (S i) + 1 - S i))
      by (unfold last_episode; lia).
    rewrite count_ev_app, C1, C2, Hs, Ha. cbn [filter]. now destruct (i mod learn_reward_frequency cfg =? 0).
Qed.
End TrainPeriodic.

Section TrainWf.
Context {St Act E G RN Mem : Type}.
Context `{Environment E St Act} `{Agent G St Act Mem} `{RewardModel RN St Act}
        `{ReplayMemory Mem St Act}.
Local Abbreviation World := (World E G RN Mem).
Variable cfg : config.

(** A whole run from a well-formed object: it stays well formed, one
    entry per episode is added, the episode index ends at the count, and
    the scheduler keeps its invariant. *)
Lemma train_wf_run (w : World) :
  wf_config cfg -> obj_wf cfg w ->
  wp (train cfg)
     (fun tl w' => obj_wf cfg w' /\
        List.length (w_episode_len_list w') =
        List.length (w_episode_len_list w) + Nat.max 1 (max_episodes cfg - 1) /\
        w_i_episode w' = Nat.max 1 (max_episodes cfg - 1) /\ sched_inv (tl_sched tl)) w.
Proof.
  intros Hwf (La & Lb & F & Hn & Hu & Hr).
  eapply wp_mono; [apply (train_loop_tallied cfg Hwf); lia|].
  intros tl w' (Hi & Hs & (n & _ & Kn & Ku) & (ls & Hl & Fl & El & N & (rs & R & Hrs & _) & P & _) &
                a & Ha & _ & _ & _ & Hrc & _).
  unfold last_episode in *. cbn [fst] in Hrc.
  assert (Hsum : n = list_sum ls) by lia. subst n.
  unfold obj_wf. rewrite El, R, !length_app, P, Hrs, La, Lb, N, Hn, list_sum_app, Hrc.
  rewrite Hn in Hu. split; [repeat split; [apply Forall_app; auto|nia|lia]|].
  split; [lia|]. split; [lia|]. apply Hs. left. split; [reflexivity|cbn; lia].
Qed.
End TrainWf.

Section TrainClaims.
Context {St Act E G RN Mem : Type}.
Context `{Environment E St Act} `{Agent G St Act Mem} `{RewardModel RN St Act}
        `{ReplayMemory Mem St Act}.
Local Abbreviation World := (World E G RN Mem).
Variable cfg : config.

(** C1: with a well-formed configuration, [train] ends for every
    behaviour of the collaborators, after exactly max(1, max_episodes - 1)
    episodes (the loop breaks once [i_episode >= max_episodes - 1], so
    [max_episodes] is not reached); [self.i_episode] ends at that count,
    at most one ranking round is made per episode, and [self.rank_count]
    counts the ranking calls. *)
Theorem train_runs_all_episodes (w : World) :
  wf_config cfg ->
  wp (train cfg)
     (fun _ w' => w_i_episode w' = Nat.max 1 (max_episodes cfg - 1) /\
        exists evs, w_trace w' = w_trace w ++ evs /\
          count_ev is_done_push evs = Nat.max 1 (max_episodes cfg - 1) /\
          count_ev is_rank evs <= Nat.max 1 (max_episodes cfg - 1) /\
          w_rank_count w' = w_rank_count w + count_ev is_rank evs) w.
Proof.
  intros Hwf. eapply wp_mono; [apply (train_loop_tallied cfg Hwf); lia|].
  intros tl w' (Hi & _ & _ & _ & a & Ha & evs & Ht & Hy & Hr). unfold last_episode in *.
  assert (Hrk : count_ev is_rank evs = a) by (unfold tally in Hy; congruence).
  assert (Hdp : count_ev is_done_push evs = Nat.max 1 (max_episodes cfg - 1) + 1 - 1)
    by (unfold tally in Hy; congruence).
  split; [exact Hi|]. exists evs. split; [exact Ht|]. cbn [fst] in Hr. repeat split; lia.
Qed.

(** C20: over a whole run, the pretrain exit (critic and actor reset,
    relabel, burst of updates) happens exactly once when there is a
    pretrain phase that ends within the run, and never otherwise. *)
Theorem train_pretrain_exit_once (w : World) :
  wf_config cfg ->
  wp (train cfg)
     (fun _ w' => exists evs, w_trace w' = w_trace w ++ evs /\
        count_ev is_reset_critic evs =
        if (0 <? pretrain_episodes cfg) &&
           (start_episodes cfg + pretrain_episodes cfg <=? Nat.max 1 (max_episodes cfg - 1))
        then 1 else 0) w.
Proof.
  intros Hwf. eapply wp_mono; [apply (train_loop_tallied cfg Hwf); lia|].
  intros tl w' (_ & _ & _ & _ & a & _ & evs & Ht & Hy & _). unfold last_episode in *.
  assert (Hcr : count_ev is_reset_critic evs = exit_count cfg 1 (Nat.max 1 (max_episodes cfg - 1) + 1 - 1))
    by (unfold tally in Hy; congruence).
  exists evs. split; [exact Ht|]. rewrite Hcr, exit_count_spec.
  set (n := Nat.max 1 (max_episodes cfg - 1)). set (t := start_episodes cfg + pretrain_episodes cfg).
  destruct (Nat.ltb_spec 0 (pretrain_episodes cfg)); [|reflexivity]. cbn [andb].
  destruct (Nat.leb_spec 1 t); [|unfold t in *; lia]. cbn [andb].
  destruct (Nat.ltb_spec t (1 + (n + 1 - 1))), (Nat.leb_spec t n); reflexivity || lia.
Qed.


(** C4: the ranking ceiling holds for the rest of a run: from any episode
    at whose start [rank_num] already exceeds [max_rank_num], the
    remainder of the run makes no [rank] call and [rank_num] keeps its
    value ([rank_num] is only written right after a ranking). *)
Theorem train_loop_rank_ceiling fuel i (tl : train_locals) (w : World) :
  wf_config cfg -> max_rank_num cfg < w_rank_num w -> max_episodes cfg - 1 - i < fuel ->
  wp (train_loop cfg fuel i tl)
     (fun _ w' => w_rank_num w' = w_rank_num w /\
        exists evs, w_trace w' = w_trace w ++ evs /\ count_ev is_rank evs = 0) w.
Proof.
  intros Hwf. revert i tl w; induction fuel as [|f IH]; intros i tl w Hmax Hf; [lia|].
  cbn [train_loop]. apply wp_bind, wp_modify. cbv beta. apply wp_bind.
  eapply wp_mono; [apply (train_episode_tallied cfg Hwf)|].
  intros tl1 w1 (_ & q & a & _ & Ha & R0 & _ & (l1 & Ht1 & Hy1 & _) & _).
  cbn [w_rank_num w_trace with_i_episode] in Ha, R0, Ht1.
  destruct (Nat.leb_spec (w_rank_num w) (max_rank_num cfg)); [lia|].
  rewrite Bool.andb_false_r in Ha. specialize (R0 Ha). subst a.
  assert (C1 : count_ev is_rank l1 = 0) by (unfold tally in Hy1; congruence).
  destruct (Nat.leb_spec (max_episodes cfg - 1) i).
  - apply wp_ret. split; [exact R0|]. exists l1. split; [exact Ht1|exact C1].
  - eapply wp_mono; [apply IH; [rewrite R0; exact Hmax|lia]|]. intros tl2 w2 (R2 & l2 & Ht2 & C2).
    split; [congruence|]. exists (l1 ++ l2). rewrite Ht2, Ht1, <- app_assoc, count_ev_app, C1, C2.
    split; reflexivity.
Qed.

(** C9: when both phases rank with the same period [p] and the reward
    model never ranks its pool beyond [max_rank_num], a run of [N =
    max(1, max_episodes - 1)] episodes ranks exactly [N / p] times: once
    at every episode whose index is a multiple of [p] (the spec's
    scenario: episodes 3, 6, 9, ... for [p = 3]). *)
Theorem train_periodic_ranking (w : World) :
  wf_config cfg -> learn_reward_frequency_1 cfg = learn_reward_frequency cfg ->
  (forall rn k, ranked_trajs_len (fst (rank_op rn k)) <= max_rank_num cfg) ->
  w_rank_num w <= max_rank_num cfg ->
  wp (train cfg)
     (fun _ w' => exists evs, w_trace w' = w_trace w ++ evs /\
        count_ev is_rank evs = Nat.max 1 (max_episodes cfg - 1) / learn_reward_frequency cfg) w.
Proof.
  intros Hwf Hsame Hpool Hmax.
  eapply wp_mono; [apply (train_loop_periodic cfg Hwf Hsame Hpool); [exact Hmax|lia]|].
  intros tl w' (_ & evs & Ht & C). exists evs. split; [exact Ht|].
  rewrite C, <- count_multiples by (destruct Hwf as (_ & _ & Hp & _); exact Hp).
  unfold last_episode. f_equal. f_equal. f_equal. lia.
Qed.

(** C16: over a whole run, no agent update trains on stale rewards: every
    fit of the reward model is followed by a relabel of the replay
    memory before the next agent update (spec section 5, ordering (2)),
    in the ranking rounds and in the pretrain exit alike. *)
Theorem train_labels_fresh (w : World) :
  wf_config cfg ->
  wp (train cfg) (fun _ w' => exists evs, w_trace w' = w_trace w ++ evs /\ labels_fresh evs) w.
Proof.
  intros Hwf. eapply wp_mono; [apply (train_loop_tallied cfg Hwf); lia|].
  intros tl w' (_ & _ & _ & _ & a & _ & evs & Ht & _ & _ & F). exists evs. split; [exact Ht|exact F].
Qed.

(** C23: over a run of [N = max(1, max_episodes - 1)] episodes,
    [self.total_numsteps] grows by some [n] with [N <= n <= N *
    episode_len], and [self.updates] by at most [n * updates_per_step]:
    the hundred updates of the pretrain exit are not counted (line 296). *)
Theorem train_step_bounds (w : World) :
  wf_config cfg ->
  wp (train cfg)
     (fun _ w' => exists n,
        Nat.max 1 (max_episodes cfg - 1) <= n <= Nat.max 1 (max_episodes cfg - 1) * episode_len cfg /\
        w_total_numsteps w' = w_total_numsteps w + n /\
        w_updates w <= w_updates w' <= w_updates w + n * updates_per_step cfg) w.
Proof.
  intros Hwf. eapply wp_mono; [apply (train_loop_tallied cfg Hwf); lia|].
  intros tl w' (_ & _ & (n & Hn & K) & _). unfold last_episode in Hn. exists n.
  replace (Nat.max 1 (max_episodes cfg - 1) + 1 - 1) with (Nat.max 1 (max_episodes cfg - 1)) in Hn by lia.
  split; [exact Hn|exact K].
Qed.

(** C24: over a run, [self.episode_len_list] gets one entry per episode,
    each between 1 and [episode_len], [self.e_reward_list] one entry per
    episode too, and [self.total_numsteps] advances by the sum of the
    recorded lengths: from a fresh object, [total_numsteps] is always
    [sum(episode_len_list)]. *)
Theorem train_records_episodes (w : World) :
  wf_config cfg ->
  wp (train cfg)
     (fun _ w' => exists ls,
        w_episode_len_list w' = w_episode_len_list w ++ ls /\
        List.length ls = Nat.max 1 (max_episodes cfg - 1) /\
        Forall (fun n => 1 <= n <= episode_len cfg) ls /\
        w_total_numsteps w' = w_total_numsteps w + list_sum ls /\
        List.length (w_e_reward_list w') = List.length (w_e_reward_list w) + List.length ls) w.
Proof.
  intros Hwf. eapply wp_mono; [apply (train_loop_tallied cfg Hwf); lia|].
  intros tl w' (_ & _ & _ & (ls & Hl & F & Ee & N & (rs & R & Hrs & _) & _) & _). exists ls.
  unfold last_episode in Hl. split; [exact Ee|]. split; [lia|]. rewrite R, length_app, Hrs. auto.
Qed.

(** C28: on RLBench with logging on, the success window at the end of a
    run holds exactly the successes of the last 50 episodes, an episode
    counting as a success when it ended before [episode_len] steps
    (lines 233-237). *)
Theorem train_success_window (w : World) :
  wf_config cfg -> env_type cfg = Rlbench -> wandb_log cfg = true ->
  wp (train cfg)
     (fun tl w' => exists ls,
        w_episode_len_list w' = w_episode_len_list w ++ ls /\
        tl_succ_de tl = lastn succ_maxlen (map (fun n => n <? episode_len cfg) ls)) w.
Proof.
  intros Hwf Hr Hw. eapply wp_mono; [apply (train_loop_tallied cfg Hwf); lia|].
  intros tl w' (_ & _ & _ & (ls & _ & _ & Ee & _ & _ & _ & Sw) & _). exists ls.
  split; [exact Ee|]. rewrite (proj1 (Sw Hr Hw)). apply window_of_eq_lastn.
Qed.

(** C29: on RLBench with logging on, the success rate logged with the
    [k]-th episode of a run (lines 238-240) is [np.mean] of the success
    flags of the episodes [max(1, k-49)], ..., [k], an episode counting as
    a success when it ended before [episode_len] steps: the episode's own
    flag is appended before the mean is taken, so the window is never
    empty and the logged rate is never NaN. *)
Theorem train_logs_success_rates (w : World) :
  wf_config cfg -> env_type cfg = Rlbench -> wandb_log cfg = true ->
  wp (train cfg)
     (fun _ w' => exists ls,
        w_episode_len_list w' = w_episode_len_list w ++ ls /\
        trace_rates w' = trace_rates w ++
          map (fun k => Some (success_rate
                          (lastn succ_maxlen (firstn k (map (fun n => n <? episode_len cfg) ls)))))
              (seq 1 (List.length ls))) w.
Proof.
  intros Hwf Hr Hw. eapply wp_mono; [apply (train_loop_tallied cfg Hwf); lia|].
  intros tl w' (_ & _ & _ & (ls & _ & _ & Ee & _ & _ & _ & Sw) & _). exists ls.
  split; [exact Ee|]. rewrite (proj2 (Sw Hr Hw)).
  change (tl_succ_de train_init) with (window_of succ_maxlen []).
  rewrite window_rates_spec, length_map. reflexivity.
Qed.

(** C25: what a run sends to the logger is what it records: with
    [wandb_log] on, the per-episode records logged over the run (line 230
    on MuJoCo, line 240 otherwise) are, in order and one per episode, the
    returns appended to [self.e_reward_list], the shaped returns appended
    to [self.e_reward_prime_list] and the lengths appended to
    [self.episode_len_list], each with its episode index 1, 2, ...; with
    [wandb_log] off no episode record is logged. *)
Theorem train_logs_episodes (w : World) :
  wf_config cfg ->
  wp (train cfg)
     (fun _ w' => exists rs rs' ls,
        w_e_reward_list w' = w_e_reward_list w ++ rs /\
        w_e_reward_prime_list w' = w_e_reward_prime_list w ++ rs' /\
        w_episode_len_list w' = w_episode_len_list w ++ ls /\
        List.length ls = Nat.max 1 (max_episodes cfg - 1) /\
        trace_logs w' = trace_logs w ++ (if wandb_log cfg then ep_records rs rs' ls 1 else [])) w.
Proof.
  intros Hwf. eapply wp_mono; [apply (train_loop_tallied cfg Hwf); lia|].
  intros tl w' (_ & _ & _ & (ls & Hl & _ & Ee & _ & (rs & R & _ & _ & rs' & P & _ & Hg) & _) & _).
  exists rs, rs', ls. unfold last_episode in Hl. repeat split; auto. lia.
Qed.
(** C13: the phase of the scheduler at the end of a run follows the
    returns the run records: the machine [train] hands from episode to
    episode ends as [sched_run] of the returns appended to
    [self.e_reward_list], one per episode, and it has converged (ranking
    with the second period and batch) exactly when at least nine of
    those returns exceeded [change_flag_reward]: nine qualifying episodes
    within the run are enough for the switch to happen. *)
Theorem train_sched_converges (w : World) :
  wf_config cfg ->
  wp (train cfg)
     (fun tl w' => exists rs,
        w_e_reward_list w' = w_e_reward_list w ++ rs /\
        List.length rs = Nat.max 1 (max_episodes cfg - 1) /\
        tl_sched tl = sched_run cfg rs /\
        (frequency_flag (tl_sched tl) = Flag2 <-> 9 <= count_high cfg rs)) w.
Proof.
  intros Hwf. eapply wp_mono; [apply (train_loop_tallied cfg Hwf); lia|].
  intros tl w' (_ & _ & _ & (ls & Hl & _ & _ & _ & (rs & R & Hrs & Q & _) & _) & _).
  unfold last_episode in Hl. exists rs. split; [exact R|]. split; [lia|].
  assert (Hs : tl_sched tl = sched_run cfg rs) by exact Q.
  split; [exact Hs|]. rewrite Hs. apply sched_run_spec.
Qed.

(** C12: [train] keeps the object well formed: from a well-formed object
    (a fresh one in particular) the lists again have one entry per
    finished episode, [total_numsteps] is the sum of the recorded lengths,
    [updates] is within [updates_per_step] per step and [rank_count] within
    one per episode, and the run added [max(1, max_episodes - 1)]
    episodes. *)
Theorem train_obj_wf (w : World) :
  wf_config cfg -> obj_wf cfg w ->
  wp (train cfg)
     (fun _ w' => obj_wf cfg w' /\
        List.length (w_episode_len_list w') =
        List.length (w_episode_len_list w) + Nat.max 1 (max_episodes cfg - 1)) w.
Proof.
  intros Hwf Hw. eapply wp_mono; [apply train_wf_run; assumption|]. intros tl w1 (W1 & L1 & _). split; assumption.
Qed.
End TrainClaims.

(** ** Witnesses *)

Definition toy_world_i3 : ToyWorld := with_i_episode 3 toy_world0.

Lemma pretrain_exit_same_index_witness :
  exit_fires toy_cfg_pretrain (w_i_episode toy_world_i3) = true /\
  wp (pretrain_exit toy_cfg_pretrain)
     (fun _ w' => w_trace w' = w_trace toy_world_i3 ++ exit_events (w_updates toy_world_i3) /\
                  w_updates w' = w_updates toy_world_i3) toy_world_i3.
Proof. split; [reflexivity|]. apply pretrain_exit_same_index. reflexivity. Defined.

Lemma eval_block_frame_witness :
  0 < episode_len toy_cfg_pretrain /\ 0 < eval_per_episode toy_cfg_pretrain /\
  wp (eval_block toy_cfg_pretrain)
     (fun _ w' => (exists evs, w_trace w' = w_trace toy_world_i3 ++ evs /\ forallb eval_event evs = true) /\
                  w' = with_trace (w_trace w') (with_agent (w_agent w') (with_env (w_env w') toy_world_i3)))
     toy_world_i3.
Proof.
  split; [vm_compute; lia|]. split; [vm_compute; lia|].
  apply eval_block_frame; vm_compute; lia.
Defined.

Lemma eval_block_zero_period_witness :
  eval_per_episode toy_cfg_eval0 = 0 /\ eval toy_cfg_eval0 = false /\
  eval_block toy_cfg_eval0 toy_world0 = Err ZeroDivisionError.
Proof. split; [reflexivity|]. split; [reflexivity|]. apply eval_block_zero_period. reflexivity. Defined.

Lemma train_runs_all_episodes_witness :
  wf_config toy_cfg /\
  wp (train toy_cfg)
     (fun _ w' => w_i_episode w' = Nat.max 1 (max_episodes toy_cfg - 1) /\
        exists evs, w_trace w' = w_trace toy_world0 ++ evs /\
          count_ev is_done_push evs = Nat.max 1 (max_episodes toy_cfg - 1) /\
          count_ev is_rank evs <= Nat.max 1 (max_episodes toy_cfg - 1) /\
          w_rank_count w' = w_rank_count toy_world0 + count_ev is_rank evs) toy_world0.
Proof.
  split; [unfold wf_config; cbn; lia|].
  apply train_runs_all_episodes. unfold wf_config; cbn; lia.
Defined.

Lemma train_pretrain_exit_once_witness :
  wf_config toy_cfg_pre_warm /\
  wp (train toy_cfg_pre_warm)
     (fun _ w' => exists evs, w_trace w' = w_trace toy_world0 ++ evs /\
        count_ev is_reset_critic evs =
        if (0 <? pretrain_episodes toy_cfg_pre_warm) &&
           (start_episodes toy_cfg_pre_warm + pretrain_episodes toy_cfg_pre_warm
              <=? Nat.max 1 (max_episodes toy_cfg_pre_warm - 1))
        then 1 else 0) toy_world0.
Proof.
  split; [unfold wf_config; cbn; lia|].
  apply train_pretrain_exit_once. unfold wf_config; cbn; lia.
Defined.


Lemma train_loop_rank_ceiling_witness :
  wf_config toy_cfg /\ max_rank_num toy_cfg < w_rank_num toy_world_rn5 /\
  max_episodes toy_cfg - 1 - 1 < S (max_episodes toy_cfg) /\
  wp (train_loop toy_cfg (S (max_episodes toy_cfg)) 1 train_init)
     (fun _ w' => w_rank_num w' = w_rank_num toy_world_rn5 /\
        exists evs, w_trace w' = w_trace toy_world_rn5 ++ evs /\ count_ev is_rank evs = 0)
     toy_world_rn5.
Proof.
  split; [unfold wf_config; cbn; lia|]. split; [cbn; lia|]. split; [cbn; lia|].
  apply train_loop_rank_ceiling; [unfold wf_config; cbn; lia|cbn; lia|cbn; lia].
Defined.

Lemma train_periodic_ranking_witness :
  wf_config toy_cfg_scenario /\
  learn_reward_frequency_1 toy_cfg_scenario = learn_reward_frequency toy_cfg_scenario /\
  (forall (rn : nat) k, ranked_trajs_len (fst (rank_op rn k)) <= max_rank_num toy_cfg_scenario) /\
  w_rank_num toy_world_capped0 <= max_rank_num toy_cfg_scenario /\
  wp (train toy_cfg_scenario)
     (fun _ w' => exists evs, w_trace w' = w_trace toy_world_capped0 ++ evs /\
        count_ev is_rank evs = 3) toy_world_capped0.
Proof.
  assert (Hwf : wf_config toy_cfg_scenario) by (unfold wf_config; cbn; lia).
  assert (Hp : forall (rn : nat) k, ranked_trajs_len (fst (rank_op rn k)) <= max_rank_num toy_cfg_scenario)
    by (intros rn k; exact (Nat.le_min_l 1000 (rn + k))).
  split; [exact Hwf|]. split; [reflexivity|]. split; [exact Hp|]. split; [cbn; lia|].
  apply (train_periodic_ranking toy_cfg_scenario toy_world_capped0 Hwf eq_refl Hp); cbn; lia.
Defined.

Lemma train_labels_fresh_witness :
  wf_config toy_cfg_pre_warm /\
  wp (train toy_cfg_pre_warm)
     (fun _ w' => exists evs, w_trace w' = w_trace toy_world0 ++ evs /\ labels_fresh evs) toy_world0.
Proof.
  split; [unfold wf_config; cbn; lia|].
  apply train_labels_fresh. unfold wf_config; cbn; lia.
Defined.

Lemma train_step_bounds_witness :
  wf_config toy_cfg /\
  wp (train toy_cfg)
     (fun _ w' => exists n,
        Nat.max 1 (max_episodes toy_cfg - 1) <= n <= Nat.max 1 (max_episodes toy_cfg - 1) * episode_len toy_cfg /\
        w_total_numsteps w' = w_total_numsteps toy_world0 + n /\
        w_updates toy_world0 <= w_updates w' <= w_updates toy_world0 + n * updates_per_step toy_cfg) toy_world0.
Proof.
  split; [unfold wf_config; cbn; lia|].
  apply train_step_bounds. unfold wf_config; cbn; lia.
Defined.

Lemma train_records_episodes_witness :
  wf_config toy_cfg /\
  wp (train toy_cfg)
     (fun _ w' => exists ls,
        w_episode_len_list w' = w_episode_len_list toy_world0 ++ ls /\
        List.length ls = Nat.max 1 (max_episodes toy_cfg - 1) /\
        Forall (fun n => 1 <= n <= episode_len toy_cfg) ls /\
        w_total_numsteps w' = w_total_numsteps toy_world0 + list_sum ls /\
        List.length (w_e_reward_list w') = List.length (w_e_reward_list toy_world0) + List.length ls)
     toy_world0.
Proof.
  split; [unfold wf_config; cbn; lia|].
  apply train_records_episodes. unfold wf_config; cbn; lia.
Defined.

(** RLBench with logging on. *)
Definition toy_cfg_rlbench : config :=
  mkConfig 5 6 (3 # 1) Rlbench true 2 0 0 1 3 false 1 2 1 3 2 4.

Lemma train_success_window_witness :
  wf_config toy_cfg_rlbench /\ env_type toy_cfg_rlbench = Rlbench /\ wandb_log toy_cfg_rlbench = true /\
  wp (train toy_cfg_rlbench)
     (fun tl w' => exists ls,
        w_episode_len_list w' = w_episode_len_list toy_world0 ++ ls /\
        tl_succ_de tl = lastn succ_maxlen (map (fun n => n <? episode_len toy_cfg_rlbench) ls))
     toy_world0.
Proof.
  split; [unfold wf_config; cbn; lia|]. split; [reflexivity|]. split; [reflexivity|].
  apply train_success_window; [unfold wf_config; cbn; lia|reflexivity|reflexivity].
Defined.

Lemma train_logs_success_rates_witness :
  wf_config toy_cfg_rlbench /\ env_type toy_cfg_rlbench = Rlbench /\ wandb_log toy_cfg_rlbench = true /\
  wp (train toy_cfg_rlbench)
     (fun _ w' => exists ls,
        w_episode_len_list w' = w_episode_len_list toy_world0 ++ ls /\
        trace_rates w' = trace_rates toy_world0 ++
          map (fun k => Some (success_rate
                          (lastn succ_maxlen (firstn k (map (fun n => n <? episode_len toy_cfg_rlbench) ls)))))
              (seq 1 (List.length ls))) toy_world0.
Proof.
  split; [unfold wf_config; cbn; lia|]. split; [reflexivity|]. split; [reflexivity|].
  apply train_logs_success_rates; [unfold wf_config; cbn; lia|reflexivity|reflexivity].
Defined.

Lemma train_logs_episodes_witness :
  wf_config toy_cfg_rlbench /\
  wp (train toy_cfg_rlbench)
     (fun _ w' => exists rs rs' ls,
        w_e_reward_list w' = w_e_reward_list toy_world0 ++ rs /\
        w_e_reward_prime_list w' = w_e_reward_prime_list toy_world0 ++ rs' /\
        w_episode_len_list w' = w_episode_len_list toy_world0 ++ ls /\
        List.length ls = Nat.max 1 (max_episodes toy_cfg_rlbench - 1) /\
        trace_logs w' = trace_logs toy_world0 ++
          (if wandb_log toy_cfg_rlbench then ep_records rs rs' ls 1 else []))
     toy_world0.
Proof.
  split; [unfold wf_config; cbn; lia|].
  apply train_logs_episodes. unfold wf_config; cbn; lia.
Defined.

Lemma train_sched_converges_witness :
  wf_config toy_cfg_scenario /\
  wp (train toy_cfg_scenario)
     (fun tl w' => exists rs,
        w_e_reward_list w' = w_e_reward_list toy_world_capped0 ++ rs /\
        List.length rs = Nat.max 1 (max_episodes toy_cfg_scenario - 1) /\
        tl_sched tl = sched_run toy_cfg_scenario rs /\
        (frequency_flag (tl_sched tl) = Flag2 <-> 9 <= count_high toy_cfg_scenario rs))
     toy_world_capped0.
Proof.
  split; [unfold wf_config; cbn; lia|].
  apply train_sched_converges. unfold wf_config; cbn; lia.
Defined.

Lemma train_obj_wf_witness :
  wf_config toy_cfg /\ obj_wf toy_cfg toy_world0 /\
  wp (train toy_cfg)
     (fun _ w' => obj_wf toy_cfg w' /\
        List.length (w_episode_len_list w') =
        List.length (w_episode_len_list toy_world0) + Nat.max 1 (max_episodes toy_cfg - 1))
     toy_world0.
Proof.
  assert (Hwf : wf_config toy_cfg) by (unfold wf_config; cbn; lia).
  assert (Hw : obj_wf toy_cfg toy_world0) by (unfold obj_wf; cbn; repeat split; lia || constructor).
  split; [exact Hwf|]. split; [exact Hw|]. apply train_obj_wf; [exact Hwf|exact Hw].
Defined.
