(* ===== verification/Logging.v ===== *)
(** * The logging sink does not alter control flow

    With [config.experiment.wandb_log] on, the orchestrator calls
    [self.logger.log] after each agent update (line 196), after each
    episode (lines 230/240, with the success window of lines 233-239
    computed only for it) and after each ranking round (line 284).  The
    spec (section 3) requires that the logging sink's absence not alter
    control flow.  This file proves it for [train]: the run with logging
    on and the run with logging off ([no_log cfg]) go in lockstep, making
    the same calls in the same order apart from the logger's, leaving the
    object in the same state, or raising the same exception.

    The lockstep is the simulation [sim] of [Prelude] over the relation
    [log_eq] ([erase w1 = erase w2]): the two objects agree on every field
    and on their traces once the logger's calls are removed.  [log_eq] is
    an [Equivalence] and the object's field reads and updates are [Proper]
    for it, so each step of the lockstep is a setoid [rewrite]. *)

From Stdlib Require Import Arith QArith List Lia Morphisms Setoid.
From S2P Require Import Prelude Interfaces ReplayMemory World Toy Init LearnReward Scheduler Episode SuccessWindow Train.
Import ListNotations.
Local Open Scope nat_scope.

(** The logger's calls: [logger.log] and [wandb.init]. *)
Definition is_log (e : event) : bool :=
  match e with EvLog _ | EvWandbInit => true | _ => false end.

(** The object with the logger's calls removed from its trace. *)
Definition erase {E G RN Mem} (w : World E G RN Mem) : World E G RN Mem :=
  with_trace (filter (fun e => negb (is_log e)) (w_trace w)) w.

(** The configuration with logging off. *)
Definition no_log (cfg : config) : config :=
  mkConfig (episode_len cfg) (max_episodes cfg) (change_flag_reward cfg) (env_type cfg) false
           (start_episodes cfg) (pretrain_episodes cfg) (batch_size cfg) (updates_per_step cfg)
           (eval_per_episode cfg) (eval cfg) (eval_episodes cfg) (learn_reward_frequency_1 cfg)
           (num_to_rank_1 cfg) (learn_reward_frequency cfg) (num_to_rank cfg) (max_rank_num cfg).

(** ** [no_log] changes only the logging switch *)

Section NoLog.
Variable cfg : config.
Lemma no_log_episode_len : episode_len (no_log cfg) = episode_len cfg. Proof. reflexivity. Qed.
Lemma no_log_max_episodes : max_episodes (no_log cfg) = max_episodes cfg. Proof. reflexivity. Qed.
Lemma no_log_env_type : env_type (no_log cfg) = env_type cfg. Proof. reflexivity. Qed.
Lemma no_log_wandb_log : wandb_log (no_log cfg) = false. Proof. reflexivity. Qed.
Lemma no_log_start_episodes : start_episodes (no_log cfg) = start_episodes cfg. Proof. reflexivity. Qed.
Lemma no_log_pretrain_episodes : pretrain_episodes (no_log cfg) = pretrain_episodes cfg.
Proof. reflexivity. Qed.
Lemma no_log_batch_size : batch_size (no_log cfg) = batch_size cfg. Proof. reflexivity. Qed.
Lemma no_log_updates_per_step : updates_per_step (no_log cfg) = updates_per_step cfg.
Proof. reflexivity. Qed.
Lemma no_log_eval_per_episode : eval_per_episode (no_log cfg) = eval_per_episode cfg.
Proof. reflexivity. Qed.
Lemma no_log_eval : eval (no_log cfg) = eval cfg. Proof. reflexivity. Qed.
Lemma no_log_eval_episodes : eval_episodes (no_log cfg) = eval_episodes cfg. Proof. reflexivity. Qed.
Lemma no_log_max_rank_num : max_rank_num (no_log cfg) = max_rank_num cfg. Proof. reflexivity. Qed.
Lemma no_log_freq_update : freq_update (no_log cfg) = freq_update cfg. Proof. reflexivity. Qed.
Lemma no_log_update_rule_for : update_rule_for (no_log cfg) = update_rule_for cfg.
Proof. reflexivity. Qed.
End NoLog.

Create Rewrite HintDb no_log_rw.
#[export] Hint Rewrite no_log_episode_len no_log_max_episodes no_log_env_type no_log_wandb_log
  no_log_start_episodes no_log_pretrain_episodes no_log_batch_size no_log_updates_per_step
  no_log_eval_per_episode no_log_eval no_log_eval_episodes no_log_max_rank_num
  no_log_freq_update no_log_update_rule_for : no_log_rw.

(** ** Objects equal up to the logger's calls

    [log_eq] is an equivalence coarser than equality; the object's field
    reads respect it ([Proper (log_eq ==> eq)]) and its field updates
    preserve it ([Proper (eq ==> log_eq ==> log_eq)]), so that [rewrite]
    replaces an object by one equal to it up to the logger's calls. *)

Record log_eq {E G RN Mem} (w1 w2 : World E G RN Mem) : Prop :=
  log_eq_intro { log_eq_erase : erase w1 = erase w2 }.

Section LogEq.
Context {E G RN Mem : Type}.
Implicit Types w : World E G RN Mem.

#[export] Instance log_eq_equiv : Equivalence (@log_eq E G RN Mem).
Proof.
  split; [intros ?|intros ? ? [?]|intros ? ? ? [?] [?]]; constructor; congruence.
Qed.

Lemma erase_fields w1 w2 :
  log_eq w1 w2 ->
  w_env w1 = w_env w2 /\ w_agent w1 = w_agent w2 /\ w_rnet w1 = w_rnet w2 /\ w_mem w1 = w_mem w2 /\
  w_i_episode w1 = w_i_episode w2 /\ w_total_numsteps w1 = w_total_numsteps w2 /\
  w_updates w1 = w_updates w2 /\ w_rank_count w1 = w_rank_count w2 /\
  w_rank_num w1 = w_rank_num w2 /\ w_e_reward_list w1 = w_e_reward_list w2 /\
  w_e_reward_prime_list w1 = w_e_reward_prime_list w2 /\
  w_episode_len_list w1 = w_episode_len_list w2.
Proof. intros [H]. injection H. intros. repeat split; assumption. Qed.

#[export] Instance record_proper : Proper (eq ==> log_eq ==> log_eq) (@record E G RN Mem).
Proof.
  intros e ? <- w1 w2 [H]. pose proof (f_equal w_trace H) as Ht. cbn in Ht. injection H. intros.
  constructor. unfold erase, record, with_trace. cbn. rewrite !filter_app, Ht. f_equal; assumption.
Qed.

(** A call of the logger is invisible. *)
Lemma log_eq_record_log e w : is_log e = true -> log_eq (record e w) w.
Proof.
  intros He. constructor. unfold erase, record, with_trace. cbn. rewrite filter_app. cbn. rewrite He. cbn.
  now rewrite app_nil_r.
Qed.
End LogEq.

(** The reads of a field: equal on objects equal up to the logger. *)
Ltac log_read := let H := fresh in intros ? ? H; apply erase_fields in H; tauto.
(** The update of a field: commutes with [erase]. *)
Ltac log_update :=
  let H := fresh in
  intros ? ? <- ? ? [H]; constructor;
  cbv [erase with_trace with_env with_agent with_rnet with_mem with_i_episode
       with_total_numsteps with_updates with_rank_count with_rank_num] in *;
  cbn in *; injection H; intros; f_equal; assumption.

Section LogEqMorphisms.
Context {E G RN Mem : Type}.
Local Abbreviation log_eq := (@log_eq E G RN Mem).
#[export] Instance w_env_proper : Proper (log_eq ==> eq) w_env. Proof. log_read. Qed.
#[export] Instance w_agent_proper : Proper (log_eq ==> eq) w_agent. Proof. log_read. Qed.
#[export] Instance w_rnet_proper : Proper (log_eq ==> eq) w_rnet. Proof. log_read. Qed.
#[export] Instance w_mem_proper : Proper (log_eq ==> eq) w_mem. Proof. log_read. Qed.
#[export] Instance w_i_episode_proper : Proper (log_eq ==> eq) w_i_episode. Proof. log_read. Qed.
#[export] Instance w_total_numsteps_proper : Proper (log_eq ==> eq) w_total_numsteps.
Proof. log_read. Qed.
#[export] Instance w_updates_proper : Proper (log_eq ==> eq) w_updates. Proof. log_read. Qed.
#[export] Instance w_rank_count_proper : Proper (log_eq ==> eq) w_rank_count. Proof. log_read. Qed.
#[export] Instance w_rank_num_proper : Proper (log_eq ==> eq) w_rank_num. Proof. log_read. Qed.
#[export] Instance w_e_reward_list_proper : Proper (log_eq ==> eq) w_e_reward_list.
Proof. log_read. Qed.
#[export] Instance w_e_reward_prime_list_proper : Proper (log_eq ==> eq) w_e_reward_prime_list.
Proof. log_read. Qed.
#[export] Instance w_episode_len_list_proper : Proper (log_eq ==> eq) w_episode_len_list.
Proof. log_read. Qed.

#[export] Instance with_env_proper : Proper (eq ==> log_eq ==> log_eq) with_env.
Proof. log_update. Qed.
#[export] Instance with_agent_proper : Proper (eq ==> log_eq ==> log_eq) with_agent.
Proof. log_update. Qed.
#[export] Instance with_rnet_proper : Proper (eq ==> log_eq ==> log_eq) with_rnet.
Proof. log_update. Qed.
#[export] Instance with_mem_proper : Proper (eq ==> log_eq ==> log_eq) with_mem.
Proof. log_update. Qed.
#[export] Instance with_i_episode_proper : Proper (eq ==> log_eq ==> log_eq) with_i_episode.
Proof. log_update. Qed.
#[export] Instance with_total_numsteps_proper : Proper (eq ==> log_eq ==> log_eq) with_total_numsteps.
Proof. log_update. Qed.
#[export] Instance with_updates_proper : Proper (eq ==> log_eq ==> log_eq) with_updates.
Proof. log_update. Qed.
#[export] Instance with_rank_count_proper : Proper (eq ==> log_eq ==> log_eq) with_rank_count.
Proof. log_update. Qed.
#[export] Instance with_rank_num_proper : Proper (eq ==> log_eq ==> log_eq) with_rank_num.
Proof. log_update. Qed.
#[export] Instance with_episode_lists_proper :
  Proper (eq ==> eq ==> eq ==> log_eq ==> log_eq) with_episode_lists.
Proof. intros ? ? <- ? ? <-. unfold with_episode_lists. log_update. Qed.
End LogEqMorphisms.

(** ** Lockstep of the collaborator calls *)


(** A collaborator call run on two objects equal up to the logger's
    calls: the same call on the same collaborator state, hence the same
    result and objects again equal up to the logger's calls. *)
Ltac sim_prim :=
  let w1 := fresh "w1" in let w2 := fresh "w2" in let Hw := fresh "Hw" in
  intros w1 w2 Hw;
  cbv beta delta [env_reset random_action select_action agent_update env_step get_reward
                  memory_push push_data rank learn_reward_soft relabel_memory reset_critic
                  reset_actor log];
  destruct (erase_fields w1 w2 Hw) as (He & Hg & Hr & Hm & _);
  rewrite ?He, ?Hg, ?Hr, ?Hm;
  repeat match goal with |- context [let (_, _) := ?p in _] => destruct p end;
  split; [reflexivity|rewrite Hw; reflexivity].

Section SimPrims.
Context {St Act E G RN Mem : Type}.
Context `{Environment E St Act} `{Agent G St Act Mem} `{RewardModel RN St Act}
        `{ReplayMemory Mem St Act}.
Local Abbreviation World := (World E G RN Mem).
(** The simulation up to the logger's calls. *)
Local Abbreviation lsim := (sim (@log_eq E G RN Mem)).

Lemma sim_env_reset : lsim eq env_reset env_reset.
Proof. sim_prim. Qed.
Lemma sim_random_action k : lsim eq (random_action k) (random_action k).
Proof. destruct k; sim_prim. Qed.
Lemma sim_select_action s ev : lsim eq (select_action s ev) (select_action s ev).
Proof. sim_prim. Qed.
Lemma sim_agent_update rule b i : lsim eq (agent_update rule b i) (agent_update rule b i).
Proof. destruct rule; sim_prim. Qed.
Lemma sim_env_step a : lsim eq (env_step a) (env_step a).
Proof. sim_prim. Qed.
Lemma sim_get_reward s a : lsim eq (get_reward s a) (get_reward s a).
Proof. sim_prim. Qed.
Lemma sim_memory_push t : lsim eq (memory_push t) (memory_push t).
Proof. sim_prim. Qed.
Lemma sim_push_data s a r d : lsim eq (push_data s a r d) (push_data s a r d).
Proof. sim_prim. Qed.
Lemma sim_rank k : lsim eq (rank k) (rank k).
Proof. sim_prim. Qed.
Lemma sim_learn_reward_soft : lsim eq (learn_reward_soft) learn_reward_soft.
Proof. sim_prim. Qed.
Lemma sim_relabel_memory : lsim eq (relabel_memory) relabel_memory.
Proof. sim_prim. Qed.
Lemma sim_reset_critic : lsim eq (reset_critic) reset_critic.
Proof. sim_prim. Qed.
Lemma sim_reset_actor : lsim eq (reset_actor) reset_actor.
Proof. sim_prim. Qed.

(** A [logger.log] call against none. *)
Lemma sim_log_skip t : lsim eq (log t) (ret tt).
Proof. intros w1 w2 Hw. split; [reflexivity|]. cbn -[record]. rewrite log_eq_record_log; [exact Hw|reflexivity]. Qed.

(** The logging of a ranking round (line 284), which reads the two
    counters it logs, against none. *)
Lemma sim_log_rank_skip acc k_tau :
  lsim eq (rc <- gets w_rank_count ;; rn <- gets w_rank_num ;; log (LogRank acc k_tau rc rn))
          (ret tt).
Proof. intros w1 w2 Hw. split; [reflexivity|]. cbn -[record]. rewrite log_eq_record_log; [exact Hw|reflexivity]. Qed.
End SimPrims.

Create HintDb sim discriminated.
#[export] Hint Resolve sim_env_reset sim_random_action sim_select_action sim_agent_update
  sim_env_step sim_get_reward sim_memory_push sim_push_data sim_rank sim_learn_reward_soft
  sim_relabel_memory sim_reset_critic sim_reset_actor sim_log_skip sim_log_rank_skip : sim.

(** ** Lockstep of the orchestrator *)

(** Two objects equal up to the logger's calls read the same counters
    and lists, and stay so under the same field update. *)
Ltac erase_step := let H := fresh "Hw" in intros ? ? H; cbv beta; rewrite H; reflexivity.

(** One step of a lockstep proof: both programs have the same shape, or
    the left one logs where the right one does nothing. *)
Ltac sim_step :=
  match goal with
  | |- sim _ _ (bind _ _) (bind _ _) => apply sim_bind_eq; [|intros ?]
  | |- sim _ _ (ret _) (ret _) => apply sim_ret; reflexivity
  | |- sim _ _ (gets _) (gets _) => apply sim_gets; erase_step
  | |- sim _ _ (modify _) (modify _) => apply sim_modify; erase_step
  | |- sim _ _ (lift _) (lift _) => apply sim_lift
  | |- sim _ _ (throw _) (throw _) => apply sim_throw
  | |- sim _ _ (repeat_m _ _) (repeat_m _ _) => apply sim_repeat
  | |- sim _ _ (if wandb_log ?c then _ else _) _ => destruct (wandb_log c); cbv iota
  | |- sim _ _ (if ?b then _ else _) (if ?b then _ else _) => destruct b
  | |- sim _ _ (match ?x with _ => _ end) (match ?x with _ => _ end) => destruct x
  | |- sim _ _ (let (_, _) := ?x in _) (let (_, _) := ?x in _) => destruct x
  end.
Ltac sim_run := autorewrite with no_log_rw; repeat (first [solve [eauto with sim] | sim_step]).

Section SimEpisode.
Context {St Act E G RN Mem : Type}.
Context `{Environment E St Act} `{Agent G St Act Mem} `{RewardModel RN St Act}
        `{ReplayMemory Mem St Act}.
Local Abbreviation World := (World E G RN Mem).
Local Abbreviation lsim := (sim (@log_eq E G RN Mem)).
Variable cfg : config.

Lemma sim_choose_action i s : lsim eq (choose_action cfg i s) (choose_action (no_log cfg) i s).
Proof. unfold choose_action. sim_run. Qed.

Lemma sim_one_update i pf : lsim eq (one_update cfg i pf) (one_update (no_log cfg) i pf).
Proof. unfold one_update. sim_run. Qed.

Lemma sim_update_loop i n pf : lsim eq (update_loop cfg i n pf) (update_loop (no_log cfg) i n pf).
Proof. revert pf; induction n as [|n IH]; intros pf; cbn [update_loop]; sim_run; apply sim_one_update. Qed.
#[local] Hint Resolve sim_choose_action sim_update_loop : sim.

Lemma sim_maybe_update i pf : lsim eq (maybe_update cfg i pf) (maybe_update (no_log cfg) i pf).
Proof. unfold maybe_update, memory_len. sim_run. Qed.
#[local] Hint Resolve sim_maybe_update : sim.

Lemma sim_step_body e : lsim eq (step_body cfg e) (step_body (no_log cfg) e).
Proof. unfold step_body. sim_run. Qed.

Lemma sim_step_loop fuel e : lsim eq (step_loop cfg fuel e) (step_loop (no_log cfg) fuel e).
Proof.
  revert e; induction fuel as [|f IH]; intros e; cbn [step_loop]; sim_run. apply sim_step_body.
Qed.

Lemma sim_run_episode pf : lsim eq (run_episode cfg pf) (run_episode (no_log cfg) pf).
Proof. unfold run_episode, episode_start. sim_run. apply sim_step_loop. Qed.
End SimEpisode.

#[export] Hint Resolve sim_choose_action sim_one_update sim_update_loop sim_maybe_update
  sim_step_body sim_step_loop sim_run_episode : sim.

Section SimTrain.
Context {St Act E G RN Mem : Type}.
Context `{Environment E St Act} `{Agent G St Act Mem} `{RewardModel RN St Act}
        `{ReplayMemory Mem St Act}.
Local Abbreviation World := (World E G RN Mem).
Local Abbreviation lsim := (sim (@log_eq E G RN Mem)).
Variable cfg : config.

Lemma sim_learn_loop n eb : lsim eq (learn_loop n eb) (learn_loop n eb).
Proof. induction n as [|n IH]; cbn [learn_loop]; sim_run. Qed.
#[local] Hint Resolve sim_learn_loop : sim.

Lemma sim_learn_reward n eb rl : lsim eq (learn_reward n eb rl) (learn_reward n eb rl).
Proof. unfold learn_reward. sim_run. Qed.
#[local] Hint Resolve sim_learn_reward : sim.

Lemma sim_rank_and_refit f k : lsim eq (rank_and_refit cfg f k) (rank_and_refit (no_log cfg) f k).
Proof. unfold rank_and_refit, ranked_len. sim_run. Qed.
#[local] Hint Resolve sim_rank_and_refit : sim.

Lemma sim_scheduler_block s r : lsim eq (scheduler_block cfg s r) (scheduler_block (no_log cfg) s r).
Proof. unfold scheduler_block. sim_run. Qed.

(** The success window is computed only for the logger: the two runs
    may hold different windows. *)
Lemma sim_log_block (ep : ep_locals St) d1 d2 :
  lsim (fun _ _ => True) (log_block cfg ep d1) (log_block (no_log cfg) ep d2).
Proof.
  unfold log_block. autorewrite with no_log_rw. destruct (wandb_log cfg); [|apply sim_ret; exact I].
  intros w1 w2 Hw. destruct (env_type cfg); (split; [exact I|]); cbn -[record];
    (rewrite log_eq_record_log; [exact Hw|reflexivity]).
Qed.

Lemma sim_record_episode (ep : ep_locals St) : lsim eq (record_episode ep) (record_episode ep).
Proof. unfold record_episode. sim_run. Qed.

Lemma sim_pretrain_exit : lsim eq (pretrain_exit cfg) (pretrain_exit (no_log cfg)).
Proof. unfold pretrain_exit. sim_run. Qed.

Lemma sim_eval_loop fuel len ev s r steps d :
  lsim eq (eval_loop fuel len ev s r steps d) (eval_loop fuel len ev s r steps d).
Proof. revert s r steps d; induction fuel as [|f IH]; intros s r steps d; cbn [eval_loop]; sim_run. Qed.
#[local] Hint Resolve sim_eval_loop : sim.

Lemma sim_evaluate n len ev : lsim eq (evaluate n len ev) (evaluate n len ev).
Proof. induction n as [|n IH]; cbn [evaluate]; unfold eval_episode; sim_run. Qed.
#[local] Hint Resolve sim_evaluate : sim.

Lemma sim_eval_block : lsim eq (eval_block cfg) (eval_block (no_log cfg)).
Proof. unfold eval_block. sim_run. Qed.
End SimTrain.

#[export] Hint Resolve sim_learn_loop sim_learn_reward sim_rank_and_refit sim_scheduler_block
  sim_record_episode sim_pretrain_exit sim_eval_loop sim_evaluate sim_eval_block : sim.

(** The locals of [train] the two runs share: the scheduler state and
    [print_flag]; the success windows may differ. *)
Definition same_locals (tl1 tl2 : train_locals) : Prop :=
  tl_sched tl1 = tl_sched tl2 /\ tl_print_flag tl1 = tl_print_flag tl2.

Section SimLoop.
Context {St Act E G RN Mem : Type}.
Context `{Environment E St Act} `{Agent G St Act Mem} `{RewardModel RN St Act}
        `{ReplayMemory Mem St Act}.
Local Abbreviation World := (World E G RN Mem).
Local Abbreviation lsim := (sim (@log_eq E G RN Mem)).
Variable cfg : config.

Lemma sim_train_episode tl1 tl2 :
  same_locals tl1 tl2 ->
  lsim same_locals (train_episode cfg tl1) (train_episode (no_log cfg) tl2).
Proof.
  intros [Hs Hp]. unfold train_episode. rewrite Hs, Hp.
  apply sim_bind_eq; [apply sim_run_episode|intros ep].
  apply (sim_bind _ (fun _ _ => True)); [apply sim_log_block|intros d1 d2 _].
  sim_run. apply sim_ret. split; reflexivity.
Qed.

Lemma sim_train_loop fuel i tl1 tl2 :
  same_locals tl1 tl2 ->
  lsim same_locals (train_loop cfg fuel i tl1) (train_loop (no_log cfg) fuel i tl2).
Proof.
  revert i tl1 tl2; induction fuel as [|f IH]; intros i tl1 tl2 Htl; cbn [train_loop];
    [apply sim_throw|].
  apply sim_bind_eq; [apply sim_modify; erase_step|intros _].
  apply (sim_bind _ same_locals); [apply sim_train_episode, Htl|intros tl1' tl2' Htl'].
  autorewrite with no_log_rw. destruct (max_episodes cfg - 1 <=? i); [apply sim_ret, Htl'|apply IH, Htl'].
Qed.

(** [train] with logging on and off from objects equal up to the
    logger's calls. *)
Lemma train_lockstep (w1 w2 : World) :
  erase w1 = erase w2 ->
  match train cfg w1, train (no_log cfg) w2 with
  | Ok (tl1, w1'), Ok (tl2, w2') => tl_sched tl1 = tl_sched tl2 /\ erase w1' = erase w2'
  | Err e1, Err e2 => e1 = e2
  | _, _ => False
  end.
Proof.
  intros Hw. pose proof (sim_train_loop (S (max_episodes cfg)) 1 train_init train_init
                           (conj eq_refl eq_refl) w1 w2 {| log_eq_erase := Hw |}) as Hs.
  unfold train. autorewrite with no_log_rw.
  destruct (train_loop cfg _ 1 train_init w1) as [[tl1 w1']|e1],
           (train_loop (no_log cfg) _ 1 train_init w2) as [[tl2 w2']|e2]; try exact Hs.
  destruct Hs as [[Hs _] [Hw']]. split; assumption.
Qed.
End SimLoop.

Section SimInit.
Context {St Act E G RN Mem : Type}.
Context `{Environment E St Act} `{Agent G St Act Mem} `{RewardModel RN St Act}
        `{ReplayMemory Mem St Act} `{Builders E G RN Mem}.
Local Abbreviation World := (World E G RN Mem).

(** Construction with logging on and off: the same calls but for
    [wandb.init], or the same exception. *)
Lemma oprrl_new_lockstep ic cfg :
  match (oprrl_new ic cfg : result World), (oprrl_new ic (no_log cfg) : result World) with
  | Ok w1, Ok w2 => erase w1 = erase w2
  | Err e1, Err e2 => e1 = e2
  | _, _ => False
  end.
Proof.
  unfold oprrl_new, oprrl_init, bind, lift. autorewrite with no_log_rw.
  destruct (parse_env_type (ic_env_type ic)) as [k|er]; [|reflexivity].
  destruct (make_env ic k (episode_len cfg) []) as [[e evs]|er]; [|reflexivity].
  unfold call, gets, ret. destruct (wandb_log cfg); unfold erase; cbn; rewrite ?filter_app; cbn;
    rewrite ?app_nil_r; reflexivity.
Qed.
End SimInit.
