(* ===== verification/Main.v ===== *)
(** * The command-line entry point (lines 307-319)

    [python main.py --config-name NAME] composes the named hydra
    configuration (default [mujoco-HalfCheetah-fb250]), builds an [OPRRL]
    object and runs [train] on it.  Reading the command line and the
    configuration files is library code: [compose] stands for hydra's
    composition (lines 314-315) and yields the fields [__init__] reads and
    the rest of the configuration.  The theorem here composes those of
    [Init] and [Train]: on a well-formed configuration the whole program
    fails only at the two exceptions of the constructor. *)

From Stdlib Require Import Arith QArith List String Lia.
From S2P Require Import Prelude Interfaces ReplayMemory World Toy Init Scheduler Train Logging.
Import ListNotations.
Local Open Scope nat_scope.

(** Lines 309-312: the value of [--config-name]. *)
Definition config_name (arg : option string) : string :=
  match arg with
  | Some s => s
  | None => "mujoco-HalfCheetah-fb250"
  end.

Section Main.
Context {St Act E G RN Mem : Type}.
Context `{Environment E St Act} `{Agent G St Act Mem} `{RewardModel RN St Act}
        `{ReplayMemory Mem St Act} `{Builders E G RN Mem}.
Local Abbreviation World := (World E G RN Mem).

(** hydra's [compose(config_name=...)]: the configuration of a name. *)
Variable compose : string -> init_config * config.

(** Lines 314-319: compose the configuration, [oprrl = OPRRL(config)],
    [oprrl.train()]; the printed description (line 316) is omitted. *)
Definition main (arg : option string) : result (train_locals * World) :=
  let (ic, cfg) := compose (config_name arg) in
  match oprrl_new ic cfg with
  | Err e => Err e
  | Ok w => train cfg w
  end.

(** C2: the whole program on a well-formed configuration: it either
    stops with one of the two exceptions of the constructor (an unknown
    backend name, a Meta-World task missing from the table), or it runs
    to the end, leaving a well-formed object whose episode index and
    episode-length list both count the max(1, max_episodes - 1) episodes
    run, with the scheduler in an invariant state: training itself never
    raises. *)
Theorem main_result arg :
  wf_config (snd (compose (config_name arg))) ->
  match main arg with
  | Ok (tl, w) =>
      let cfg := snd (compose (config_name arg)) in
      obj_wf cfg w /\ w_i_episode w = Nat.max 1 (max_episodes cfg - 1) /\
      List.length (w_episode_len_list w) = Nat.max 1 (max_episodes cfg - 1) /\
      sched_inv (tl_sched tl)
  | Err er =>
      let ic := fst (compose (config_name arg)) in
      (er = ConfigError /\ ~ In (ic_env_type ic) ["rlbench"; "mujoco"; "metaworld"]%string) \/
      (ic_env_type ic = "metaworld"%string /\ metaworld_env_op (E := E) (ic_task ic) = None /\
       er = KeyError)
  end.
Proof.
  unfold main. destruct (compose (config_name arg)) as [ic cfg]. cbn [fst snd]. intros Hwf.
  destruct (oprrl_new ic cfg) as [w|er] eqn:Hn.
  - destruct (oprrl_new_ok ic cfg w Hn) as (k & evs & _ & _ & _ & _ & _ & _ & Hc & Hl).
    pose proof (train_wf_run cfg w Hwf (fresh_obj_wf cfg w Hc Hl)) as Hr.
    apply wp_ok in Hr as (tl & w' & Hr & (W' & L' & I' & S')). rewrite Hr.
    unfold episode_lists in Hl. injection Hl as _ _ L0. rewrite L0 in L'. clear Hc.
    split; [exact W'|]. split; [exact I'|]. split; [exact L'|exact S'].
  - apply oprrl_new_err in Hn as [Hp|(Hk & Hm & ->)].
    + left. apply parse_env_type_err, Hp.
    + right. apply parse_env_type_ok in Hk as [(_ & ?)|[(_ & ?)|(-> & _)]]; [discriminate..|auto].
Qed.
End Main.

(** The same configurations with logging off. *)
Definition compose_no_log (compose : string -> init_config * config) (name : string)
  : init_config * config :=
  let (ic, cfg) := compose name in (ic, no_log cfg).

Section MainLogging.
Context {St Act E G RN Mem : Type}.
Context `{Environment E St Act} `{Agent G St Act Mem} `{RewardModel RN St Act}
        `{ReplayMemory Mem St Act} `{Builders E G RN Mem}.
Local Abbreviation World := (World E G RN Mem).

(** C3: the logging sink does not alter control flow (spec, section 3):
    the program run with [wandb_log] on and the same program with it off
    either raise the same exception, or both finish with the same
    scheduler state and objects that differ only by the logger's calls
    ([wandb.init], [logger.log]): the same collaborator states, counters
    and lists, and the same calls on the environment, agent, reward
    model and memory in the same order. *)
Theorem main_logging_transparent compose arg :
  match (main compose arg : result (train_locals * World)), main (compose_no_log compose) arg with
  | Ok (tl1, w1), Ok (tl2, w2) => tl_sched tl1 = tl_sched tl2 /\ erase w1 = erase w2
  | Err e1, Err e2 => e1 = e2
  | _, _ => False
  end.
Proof.
  unfold main, compose_no_log. destruct (compose (config_name arg)) as [ic cfg].
  pose proof (oprrl_new_lockstep ic cfg) as Hn.
  destruct (oprrl_new ic cfg) as [w1|e1], (oprrl_new ic (no_log cfg)) as [w2|e2];
    try contradiction; [apply train_lockstep, Hn|exact Hn].
Qed.
End MainLogging.

(** ** Witness *)

(** A composition that maps the default name to a MuJoCo run of [toy_cfg]. *)
Definition toy_compose (name : string) : init_config * config :=
  (toy_ic (if String.eqb name "mujoco-HalfCheetah-fb250" then "mujoco" else name) "reach-v2",
   toy_cfg).

Lemma main_result_witness :
  wf_config (snd (toy_compose (config_name None))) /\
  match (main toy_compose None : result (train_locals * ToyWorld)) with
  | Ok (tl, w) =>
      let cfg := snd (toy_compose (config_name None)) in
      obj_wf cfg w /\ w_i_episode w = Nat.max 1 (max_episodes cfg - 1) /\
      List.length (w_episode_len_list w) = Nat.max 1 (max_episodes cfg - 1) /\
      sched_inv (tl_sched tl)
  | Err er =>
      let ic := fst (toy_compose (config_name None)) in
      (er = ConfigError /\ ~ In (ic_env_type ic) ["rlbench"; "mujoco"; "metaworld"]%string) \/
      (ic_env_type ic = "metaworld"%string /\ metaworld_env_op (E := nat) (ic_task ic) = None /\
       er = KeyError)
  end.
Proof.
  assert (Hwf : wf_config (snd (toy_compose (config_name None)))) by (unfold wf_config; cbn; lia).
  split; [exact Hwf|].
  pose proof (@main_result nat nat nat nat (nat * nat) (ListMemory nat nat) _ _ _ _ _
                toy_compose None Hwf) as R.
  exact R.
Defined.
